(** * TinyLLaVA: multimodal sequence fusion and shard-aware checkpoint loading

    A shallow embedding of [tinyllava/model/modeling_tinyllava.py]:

    - [prepare_inputs_labels_for_multimodal], the routine that splices image
      embedding blocks into tokenised text, rebuilds labels, attention mask
      and position ids, and pads the batch;
    - [from_pretrained] with [load_llm], [load_vision_tower] and
      [load_connector], the checkpoint loader that merges sharded weight
      files and routes prefixes of the merged map to the three components;
    - [forward], [generate] and [prepare_inputs_for_generation], the entry
      points that hand the decoder what the fusion returns.

    Python exceptions are values of [exn] carried by the [Result] monad;
    printed lines are threaded through the [Eff] monad; tensors are lists of
    rows; Python dictionaries are insertion-ordered association lists. *)

From stdpp Require Import base list strings.
From Stdlib Require Import ZArith Lia.

Local Open Scope Z_scope.
Local Open Scope nat_scope.

(** ** Exceptions and the error monad *)

Inductive exn : Type :=
  | IndexError
  | ValueError
  | TypeError
  | AttributeError
  | NotImplementedError
  | UnboundLocalError (name : string)
  | RuntimeError (msg : string).

Inductive Result (A : Type) : Type :=
  | Ok (a : A)
  | Raise (e : exn).
Arguments Ok {A} a.
Arguments Raise {A} e.

Global Instance Result_ret : MRet Result := λ A a, Ok a.
Global Instance Result_bind : MBind Result := λ A B f m,
  match m with
  | Ok a => f a
  | Raise e => Raise e
  end.

(** A [for] loop whose body may raise: the state is threaded left to right
    and the first exception leaves the loop. *)
Fixpoint foldM {M : Type → Type} `{!MBind M, !MRet M} {St X : Type}
    (body : St → X → M St) (s : St) (xs : list X) : M St :=
  match xs with
  | [] => mret s
  | x :: xs' => s' ← body s x; foldM body s' xs'
  end.

(** A list comprehension whose element expression may raise. *)
Fixpoint mapM {X Y : Type} (f : X → Result Y) (xs : list X) : Result (list Y) :=
  match xs with
  | [] => Ok []
  | x :: xs' => y ← f x; ys ← mapM f xs'; Ok (y :: ys)
  end.

(** [enumerate(xs)], counting from [k]. *)
Fixpoint enumerate_from {X : Type} (k : nat) (xs : list X) : list (nat * X) :=
  match xs with
  | [] => []
  | x :: xs' => (k, x) :: enumerate_from (S k) xs'
  end.

Definition enumerate {X : Type} (xs : list X) : list (nat * X) :=
  enumerate_from 0 xs.

(** ** Printing

    The loader reports through [print]; the lines written so far are
    threaded through its steps, and stay written when a step raises. *)
Definition Eff (A : Type) : Type := list string → list string * Result A.

Global Instance Eff_ret : MRet Eff := λ A a out, (out, Ok a).
Global Instance Eff_bind : MBind Eff := λ A B f m out,
  match m out with
  | (out', Ok a) => f a out'
  | (out', Raise e) => (out', Raise e)
  end.

Definition print (line : string) : Eff unit := λ out, (out ++ [line], Ok tt).

Definition raise {A} (e : exn) : Eff A := λ out, (out, Raise e).

Definition lift {A} (r : Result A) : Eff A := λ out, (out, r).

(** A local variable of a Python function: reading it before any
    assignment raises [UnboundLocalError]. *)
Inductive Local (A : Type) : Type :=
  | Unbound
  | Bound (v : A).
Arguments Unbound {A}.
Arguments Bound {A} v.

Definition read_local {A} (name : string) (x : Local A) : Eff A :=
  match x with
  | Bound v => mret v
  | Unbound => raise (UnboundLocalError name)
  end.

(** ** Python and torch primitives *)

Module Py.

(** [l[i]] for a non-negative index. *)
Definition index {A} (l : list A) (i : nat) : Result A :=
  match l !! i with
  | Some x => Ok x
  | None => Raise IndexError
  end.

(** A slice bound as Python resolves it against a length: a negative bound
    counts from the end, and the outcome is clamped to [0, len]. *)
Definition bound (len : nat) (i : Z) : nat :=
  let i' := if (i <? 0)%Z then (i + Z.of_nat len)%Z else i in
  Z.to_nat (Z.min (Z.max i' 0) (Z.of_nat len)).

Definition lower (len : nat) (lo : option Z) : nat :=
  match lo with None => 0 | Some i => bound len i end.

Definition upper (len : nat) (hi : option Z) : nat :=
  match hi with None => len | Some i => bound len i end.

(** [l[lo:hi]] *)
Definition slice {A} (l : list A) (lo hi : option Z) : list A :=
  let a := lower (length l) lo in
  let b := upper (length l) hi in
  take (b - a) (drop a l).

(** [max(xs)]: raises on an empty sequence. *)
Definition max (xs : list nat) : Result nat :=
  match xs with
  | [] => Raise ValueError
  | x :: xs' => Ok (foldl Nat.max x xs')
  end.

(** [s.startswith(p)], [s.endswith(p)] and [s[n:]] on strings. *)
Definition startswith (s p : string) : bool := String.prefix p s.

Definition endswith (s p : string) : bool :=
  String.prefix (String.rev p) (String.rev s).

Definition str_from (n : nat) (s : string) : string :=
  String.substring n (String.length s - n) s.

(** Dictionaries keep insertion order; a key occurs once. *)
Fixpoint dict_get {V} (d : list (string * V)) (k : string) : option V :=
  match d with
  | [] => None
  | (k', v) :: d' => if String.eqb k' k then Some v else dict_get d' k
  end.

Definition dict_contains {V} (d : list (string * V)) (k : string) : bool :=
  match dict_get d k with Some _ => true | None => false end.

(** [d[k] = v]: an existing key keeps its place, a new one goes last. *)
Fixpoint dict_set {V} (d : list (string * V)) (k : string) (v : V)
  : list (string * V) :=
  match d with
  | [] => [(k, v)]
  | (k', v') :: d' =>
      if String.eqb k' k then (k', v) :: d' else (k', v') :: dict_set d' k v
  end.

(** [d.pop(k)] for its effect on [d]. *)
Fixpoint dict_del {V} (d : list (string * V)) (k : string) : list (string * V) :=
  match d with
  | [] => []
  | (k', v') :: d' =>
      if String.eqb k' k then d' else (k', v') :: dict_del d' k
  end.

(** [os.path.join(a, b)] on POSIX. *)
Definition path_join (a b : string) : string :=
  if startswith b "/" then b
  else if String.eqb a "" || endswith a "/" then a +:+ b
  else a +:+ "/" +:+ b.

End Py.

Module Torch.

(** A 2-D tensor: its second dimension and its rows.  The first dimension
    is the number of rows. *)
Record Tensor2 (A : Type) : Type := mkTensor2 {
  shape1 : nat;
  rows : list (list A)
}.
Arguments mkTensor2 {A} _ _.
Arguments shape1 {A} _.
Arguments rows {A} _.

Definition shape0 {A} (t : Tensor2 A) : nat := length (rows t).

(** Every row has the declared width. *)
Definition wf {A} (t : Tensor2 A) : Prop :=
  Forall (λ r, length r = shape1 t) (rows t).

Definition tmap {A B} (f : A → B) (t : Tensor2 A) : Tensor2 B :=
  mkTensor2 (shape1 t) (map (map f) (rows t)).

(** [torch.full_like(t, v)] *)
Definition full_like {A B} (t : Tensor2 A) (v : B) : Tensor2 B :=
  tmap (λ _, v) t.

(** [torch.ones_like(t, dtype=torch.bool)] *)
Definition ones_like_bool {A} (t : Tensor2 A) : Tensor2 bool :=
  full_like t true.

(** [t.bool()]: nonzero is true. *)
Definition to_bool (t : Tensor2 Z) : Tensor2 bool :=
  tmap (λ x, negb (x =? 0)%Z) t.

(** [t.to(dtype=...)] from a boolean tensor back to the caller's dtype (a
    boolean target keeps true and false, written 1 and 0). *)
Definition of_bool (t : Tensor2 bool) : Tensor2 Z := tmap Z.b2z t.

(** [torch.full((n, m), v)] as rows. *)
Definition full {A} (n m : nat) (v : A) : list (list A) :=
  replicate n (replicate m v).

(** [torch.arange(0, n)] *)
Definition arange (n : nat) : list Z := map Z.of_nat (seq 0 n).

(** The entries of [x] kept by a boolean mask, without the shape check. *)
Fixpoint select {A} (x : list A) (m : list bool) : list A :=
  match x, m with
  | a :: x', b :: m' => if b then a :: select x' m' else select x' m'
  | _, _ => []
  end.

(** [x[mask]] for 1-D [x] and a boolean [mask]: the shapes must agree. *)
Definition mask_index {A} (x : list A) (m : list bool) : Result (list A) :=
  if decide (length x = length m) then Ok (select x m) else Raise IndexError.

(** Consecutive chunks of the given sizes, without the size check. *)
Fixpoint chunks {A} (x : list A) (sizes : list nat) : list (list A) :=
  match sizes with
  | [] => []
  | n :: sizes' => take n x :: chunks (drop n x) sizes'
  end.

(** [torch.split(x, sizes, dim=0)]: the sizes must add up to the length. *)
Definition split {A} (x : list A) (sizes : list nat) : Result (list (list A)) :=
  if decide (sum_list sizes = length x) then Ok (chunks x sizes)
  else Raise (RuntimeError "split_with_sizes expects split_sizes to sum exactly to the size of the dimension").

(** [t[i, lo:hi] = vals]: the row is replaced between the resolved bounds;
    the value must have exactly the length of the slice. *)
Definition setitem_slice {A} (t : list (list A)) (i : nat) (lo hi : option Z)
    (vals : list A) : Result (list (list A)) :=
  row ← Py.index t i;
  let a := Py.lower (length row) lo in
  let b := Py.upper (length row) hi in
  if decide (length vals = b - a)
  then Ok (<[i := take a row ++ vals ++ drop (a + (b - a)) row]> t)
  else Raise (RuntimeError "The expanded size of the tensor must match the existing size").

(** [t[i, lo:hi] = v] for a scalar [v], broadcast over the slice. *)
Definition fill_slice {A} (t : list (list A)) (i : nat) (lo hi : option Z)
    (v : A) : Result (list (list A)) :=
  row ← Py.index t i;
  let a := Py.lower (length row) lo in
  let b := Py.upper (length row) hi in
  Ok (<[i := take a row ++ replicate (b - a) v ++ drop (a + (b - a)) row]> t).

End Torch.

Import Torch.

(** ** The types and constants the model is built over

    Embedding entries with the value [torch.zeros] fills in, the width of an
    embedding row, checkpoint weights, the opaque objects handed through
    (image batches, vision features, key-value caches, the state of a
    sub-module, other keyword values), and the two reserved ids of
    [utils.constants]. *)
Class Domain : Type := {
  scalar : Type;
  szero : scalar;
  hidden_dim : nat;
  Weight : Type;
  Images : Type;
  Features : Type;
  PastKeyValues : Type;
  Component : Type;
  Opaque : Type;
  IMAGE_TOKEN_INDEX : Z;
  IGNORE_INDEX : Z
}.

Section Model.
Context {D : Domain}.

Local Abbreviation vec := (list scalar).

(** ** Keyword arguments

    The values that travel in [**kwargs]: [None], a string, a state
    dictionary, or something the loader only passes on. *)
Inductive Value : Type :=
  | VNone
  | VStr (s : string)
  | VStateDict (d : list (string * Weight))
  | VOpaque (x : Opaque).

Definition Kwargs : Type := list (string * Value).

(** [get_value_from_kwargs] (lines 23-27): the value popped, or [None], and
    the keyword arguments left. *)
Definition get_value_from_kwargs (kwargs : Kwargs) (name : string)
  : Value * Kwargs :=
  match Py.dict_get kwargs name with
  | Some v => (v, Py.dict_del kwargs name)
  | None => (VNone, kwargs)
  end.

(** [str(v)] as [print] shows it. *)
Definition show_value (v : Value) : string :=
  match v with
  | VNone => "None"
  | VStr s => s
  | VStateDict _ => "{...}"
  | VOpaque _ => "<object>"
  end.

(** ** The composed model

    [getattr(config, name, default)] is folded into the field: an absent
    [tune_mm_mlp_adapter] is [false], an absent [tokenizer_model_max_length]
    is [None], an absent [tokenizer_padding_side] is ["right"]. *)
Record TinyLlavaConfig : Type := mkConfig {
  tune_mm_mlp_adapter : bool;
  tokenizer_model_max_length : option Z;
  tokenizer_padding_side : string;
  vision_feature_layer : Z;
  vision_feature_select_strategy : string;
  text_config_torch_dtype : Value;
  pad_token : option string;
  pad_token_id : option Z
}.

Record Tokenizer : Type := mkTokenizer {
  tokenizer_pad_token : option string;
  tokenizer_pad_token_id : option Z
}.

Record TinyLlavaForConditionalGeneration : Type := mkModel {
  language_model : Component;
  language_model_requires_grad : bool;
  vision_tower : option Component;
  connector : Component;
  tokenizer : Tokenizer;
  config : TinyLlavaConfig
}.

(** ** The collaborators

    What the file calls and does not define: the decoder's embedding table,
    the forward passes of the vision tower and the connector,
    [nn.Module.load_state_dict] (the module afterwards, and the message of
    the [RuntimeError] it raised, if any), the standalone loaders of the
    three components, and the factories behind [cls(config)]. *)
Class Collaborators : Type := {
  embed_token : Component → Z → vec;
  vision_tower_call : Component → Images → Z → string → Features;
  connector_call : Component → Features → list (list vec);
  load_state_dict :
    Component → list (string * Weight) → bool → Component * option string;
  language_model_from_pretrained :
    Component → Value → Kwargs → Result Component;
  vision_tower_load_model : Component → Value → Kwargs → Result Component;
  connector_load_model : Component → Kwargs → Result Component;
  LLMFactory : TinyLlavaConfig → Component;
  VisionTowerFactory : TinyLlavaConfig → Component;
  ConnectorFactory : TinyLlavaConfig → Component;
  TokenizerFactory : TinyLlavaConfig → Tokenizer
}.

Context {C : Collaborators}.

(** [cls(config)] *)
Definition init (config : TinyLlavaConfig) : TinyLlavaForConditionalGeneration :=
  mkModel (LLMFactory config) true (Some (VisionTowerFactory config))
          (ConnectorFactory config) (TokenizerFactory config) config.

(** ** Sequence fusion: [prepare_inputs_labels_for_multimodal] *)

(** [self.language_model.get_input_embeddings()(ids)] *)
Definition get_input_embeddings (self : TinyLlavaForConditionalGeneration)
    (ids : list Z) : list vec :=
  map (embed_token (language_model self)) ids.

(** [self.encode_images(images)]: one block of patch rows per image. *)
Definition encode_images (self : TinyLlavaForConditionalGeneration)
    (images : Images) : Result (list (list vec)) :=
  match vision_tower self with
  | None => Raise TypeError
  | Some vt =>
      let image_features :=
        vision_tower_call vt images (vision_feature_layer (config self))
                          (vision_feature_select_strategy (config self)) in
      Ok (connector_call (connector self) image_features)
  end.

(** [torch.zeros((n, hidden_dim))]; a negative size is refused. *)
Definition zeros (n : Z) : Result (list vec) :=
  if decide (0 ≤ n)%Z
  then Ok (replicate (Z.to_nat n) (replicate hidden_dim szero))
  else Raise (RuntimeError "Trying to create tensor with negative dimension").

(** [[x[m] for x, m in zip(xs, attention_mask)]] *)
Definition depad {A} (xs : list (list A)) (attention_mask : list (list bool))
  : Result (list (list A)) :=
  mapM (λ p, mask_index p.1 p.2) (zip xs attention_mask).

(** [(cur_input_ids == IMAGE_TOKEN_INDEX).sum()] *)
Definition num_images (cur_input_ids : list Z) : nat :=
  sum_list (map (λ t, if (t =? IMAGE_TOKEN_INDEX)%Z then 1 else 0) cur_input_ids).

(** [torch.where(cur_input_ids == IMAGE_TOKEN_INDEX)[0].tolist()], counting
    positions from [pos]. *)
Fixpoint where_image (pos : Z) (cur_input_ids : list Z) : list Z :=
  match cur_input_ids with
  | [] => []
  | t :: rest =>
      if (t =? IMAGE_TOKEN_INDEX)%Z
      then pos :: where_image (pos + 1) rest
      else where_image (pos + 1) rest
  end.

Definition image_token_indices (cur_input_ids : list Z) : list Z :=
  [(-1)%Z] ++ where_image 0 cur_input_ids ++ [Z.of_nat (length cur_input_ids)].

(** [[x[idx[i]+1 : idx[i+1]] for i in range(len(idx) - 1)]] *)
Fixpoint segments {A} (x : list A) (idx : list Z) : list (list A) :=
  match idx with
  | a :: ((b :: _) as rest) =>
      Py.slice x (Some (a + 1)%Z) (Some b) :: segments x rest
  | _ => []
  end.

(** Per-sample accumulators of the splice loop, with the shared cursor:
    [cur_new_input_embeds], [cur_new_labels], [cur_image_idx]. *)
Definition splice_state : Type := (list (list vec) * list (list Z) * nat)%type.

(** Body of [for i in range(num_images + 1)] (lines 286-293). *)
Definition splice_step (image_features : list (list vec)) (n_images : nat)
    (cur_input_embeds_no_im : list (list vec)) (cur_labels_noim : list (list Z))
    (st : splice_state) (i : nat) : Result splice_state :=
  let '(cur_new_input_embeds, cur_new_labels, cur_image_idx) := st in
  e ← Py.index cur_input_embeds_no_im i;
  let cur_new_input_embeds := cur_new_input_embeds ++ [e] in
  l ← Py.index cur_labels_noim i;
  let cur_new_labels := cur_new_labels ++ [l] in
  if decide (i < n_images) then
    cur_image_features ← Py.index image_features cur_image_idx;
    Ok (cur_new_input_embeds ++ [cur_image_features],
        cur_new_labels ++ [replicate (length cur_image_features) IGNORE_INDEX],
        S cur_image_idx)
  else Ok (cur_new_input_embeds, cur_new_labels, cur_image_idx).

(** One iteration of [for batch_idx, cur_input_ids in enumerate(input_ids)]
    (lines 263-301): the fused embeddings and labels of the sample and the
    cursor after it. *)
Definition fuse_sample (self : TinyLlavaForConditionalGeneration)
    (image_features : list (list vec)) (labels : list (list Z))
    (cur_image_idx : nat) (batch_idx : nat) (cur_input_ids : list Z)
  : Result (list vec * list Z * nat) :=
  let n_images := num_images cur_input_ids in
  if decide (n_images = 0) then
    cur_image_features ← Py.index image_features cur_image_idx;
    let cur_input_embeds_1 := get_input_embeddings self cur_input_ids in
    let cur_input_embeds :=
      cur_input_embeds_1 ++ Py.slice cur_image_features (Some 0%Z) (Some 0%Z) in
    cur_labels ← Py.index labels batch_idx;
    Ok (cur_input_embeds, cur_labels, S cur_image_idx)
  else
    let idx := image_token_indices cur_input_ids in
    let cur_input_ids_noim := segments cur_input_ids idx in
    cur_labels ← Py.index labels batch_idx;
    let cur_labels_noim := segments cur_labels idx in
    let split_sizes := map length cur_labels_noim in
    let cur_input_embeds :=
      get_input_embeddings self (concat cur_input_ids_noim) in
    cur_input_embeds_no_im ← Torch.split cur_input_embeds split_sizes;
    st ← foldM (splice_step image_features n_images
                            cur_input_embeds_no_im cur_labels_noim)
               ([], [], cur_image_idx) (seq 0 (n_images + 1));
    Ok (concat st.1.1, concat st.1.2, st.2).

(** Accumulators of the batch loop: [new_input_embeds], [new_labels] and
    [cur_image_idx]. *)
Definition batch_state : Type := (list (list vec) * list (list Z) * nat)%type.

Definition fuse_step (self : TinyLlavaForConditionalGeneration)
    (image_features : list (list vec)) (labels : list (list Z))
    (st : batch_state) (it : nat * list Z) : Result batch_state :=
  r ← fuse_sample self image_features labels st.2 it.1 it.2;
  Ok (st.1.1 ++ [r.1.1], st.1.2 ++ [r.1.2], r.2).

Definition fuse_batch (self : TinyLlavaForConditionalGeneration)
    (image_features : list (list vec)) (input_ids labels : list (list Z))
  : Result batch_state :=
  foldM (fuse_step self image_features labels) ([], [], 0) (enumerate input_ids).

(** [[x[:tokenizer_model_max_length] for x in xs]] when a cap is configured
    (lines 304-307). *)
Definition truncate {A} (cap : option Z) (xs : list (list A)) : list (list A) :=
  match cap with
  | None => xs
  | Some n => map (λ x, Py.slice x None (Some n)) xs
  end.

(** The four tensors built by the padding loop. *)
Record Padded : Type := mkPadded {
  new_input_embeds_padded : list (list vec);
  new_labels_padded : list (list Z);
  attention_mask_padded : list (list bool);
  position_ids_padded : list (list Z)
}.

(** Body of [for i, (cur_new_embed, cur_new_labels) in enumerate(zip(...))]
    (lines 319-337). *)
Definition pad_step (padding_side : string) (max_len : nat)
    (st : Padded) (it : nat * (list vec * list Z)) : Result Padded :=
  let i := it.1 in
  let cur_new_embed := it.2.1 in
  let cur_new_labels := it.2.2 in
  let cur_len := length cur_new_embed in
  pad ← zeros (Z.of_nat max_len - Z.of_nat cur_len);
  if decide (padding_side = "left") then
    let embeds := new_input_embeds_padded st ++ [pad ++ cur_new_embed] in
    if decide (0 < cur_len) then
      let lo := Some (- Z.of_nat cur_len)%Z in
      lab ← setitem_slice (new_labels_padded st) i lo None cur_new_labels;
      msk ← fill_slice (attention_mask_padded st) i lo None true;
      pos ← setitem_slice (position_ids_padded st) i lo None (arange cur_len);
      Ok (mkPadded embeds lab msk pos)
    else
      Ok (mkPadded embeds (new_labels_padded st) (attention_mask_padded st)
                   (position_ids_padded st))
  else
    let embeds := new_input_embeds_padded st ++ [cur_new_embed ++ pad] in
    if decide (0 < cur_len) then
      let hi := Some (Z.of_nat cur_len) in
      lab ← setitem_slice (new_labels_padded st) i None hi cur_new_labels;
      msk ← fill_slice (attention_mask_padded st) i None hi true;
      pos ← setitem_slice (position_ids_padded st) i None hi (arange cur_len);
      Ok (mkPadded embeds lab msk pos)
    else
      Ok (mkPadded embeds (new_labels_padded st) (attention_mask_padded st)
                   (position_ids_padded st)).

(** "Combine them" (lines 310-337): the batch maximum, the pre-filled
    tensors and the padding loop. *)
Definition pad_batch (padding_side : string)
    (new_input_embeds : list (list vec)) (new_labels : list (list Z))
  : Result (nat * Padded) :=
  max_len ← Py.max (map length new_input_embeds);
  let batch_size := length new_input_embeds in
  let init :=
    mkPadded [] (full batch_size max_len IGNORE_INDEX)
             (full batch_size max_len false) (full batch_size max_len 0%Z) in
  padded ← foldM (pad_step padding_side max_len) init
                 (enumerate (zip new_input_embeds new_labels));
  Ok (max_len, padded).

(** "Let's just add dummy tensors if they do not exist": an all-true mask
    and all-ignore labels of the shape of [input_ids]; a given mask is cast
    to booleans. *)
Definition default_attention_mask (input_ids : Tensor2 Z)
    (attention_mask : option (Tensor2 Z)) : Tensor2 bool :=
  match attention_mask with
  | None => ones_like_bool input_ids
  | Some m => to_bool m
  end.

Definition default_labels (input_ids : Tensor2 Z) (labels : option (Tensor2 Z))
  : Tensor2 Z :=
  match labels with
  | None => full_like input_ids IGNORE_INDEX
  | Some l => l
  end.

(** Everything the fusion path computes between the short-circuit test and
    the final tuple: the depadded inputs, the spliced samples with the
    cursor reached, the samples after the length cap, and the padded batch. *)
Record Fusion : Type := mkFusion {
  depadded_input_ids : list (list Z);
  depadded_labels : list (list Z);
  spliced_embeds : list (list vec);
  spliced_labels : list (list Z);
  final_image_idx : nat;
  new_input_embeds : list (list vec);
  new_labels : list (list Z);
  max_len : nat;
  padded : Padded
}.

(** The fusion path proper (lines 232-339), after the short-circuit test.  The dummy
    position ids built when the caller gave none only lend their dtype to
    the padded tensor, so they leave no trace here. *)
Definition fuse (self : TinyLlavaForConditionalGeneration) (input_ids : Tensor2 Z)
    (attention_mask labels : option (Tensor2 Z)) (images : Images)
  : Result Fusion :=
  image_features ← encode_images self images;
  if tune_mm_mlp_adapter (config self) then Raise NotImplementedError else
  let attention_mask := default_attention_mask input_ids attention_mask in
  let labels := default_labels input_ids labels in
  ids ← depad (rows input_ids) (rows attention_mask);
  labs ← depad (rows labels) (rows attention_mask);
  st ← fuse_batch self image_features ids labs;
  let cap := tokenizer_model_max_length (config self) in
  let embeds := truncate cap st.1.1 in
  let labs' := truncate cap st.1.2 in
  p ← pad_batch (tokenizer_padding_side (config self)) embeds labs';
  Ok (mkFusion ids labs st.1.1 st.1.2 st.2 embeds labs' p.1 p.2).

(** The six-tuple handed back to [forward] and [generate]. *)
Record Prepared : Type := mkPrepared {
  out_input_ids : option (Tensor2 Z);
  out_position_ids : option (Tensor2 Z);
  out_attention_mask : option (Tensor2 Z);
  out_past_key_values : option PastKeyValues;
  out_inputs_embeds : option (list (list vec));
  out_labels : option (Tensor2 Z)
}.

(** [prepare_inputs_labels_for_multimodal] (lines 223-353): the
    short-circuit, the fusion path, and the outputs set back to [None] for
    the optional inputs the caller left out. *)
Definition prepare_inputs_labels_for_multimodal
    (self : TinyLlavaForConditionalGeneration)
    (input_ids : Tensor2 Z) (position_ids attention_mask : option (Tensor2 Z))
    (past_key_values : option PastKeyValues) (labels : option (Tensor2 Z))
    (images : option Images) : Result Prepared :=
  match vision_tower self, images with
  | None, _ | _, None =>
      Ok (mkPrepared (Some input_ids) position_ids attention_mask
                     past_key_values None labels)
  | Some _, Some imgs =>
      if decide (shape1 input_ids = 1) then
        Ok (mkPrepared (Some input_ids) position_ids attention_mask
                       past_key_values None labels)
      else
        fu ← fuse self input_ids attention_mask labels imgs;
        let p := padded fu in
        let new_labels :=
          match labels with
          | None => None
          | Some _ => Some (mkTensor2 (max_len fu) (new_labels_padded p))
          end in
        let attention_mask' :=
          match attention_mask with
          | None => None
          | Some _ =>
              Some (of_bool (mkTensor2 (max_len fu) (attention_mask_padded p)))
          end in
        let position_ids' :=
          match position_ids with
          | None => None
          | Some _ => Some (mkTensor2 (max_len fu) (position_ids_padded p))
          end in
        Ok (mkPrepared None position_ids' attention_mask' past_key_values
                       (Some (new_input_embeds_padded p)) new_labels)
  end.

(** ** Checkpoint loading *)

(** An index manifest as [json.load] returns it: its [weight_map] entry,
    when present, maps tensor names to shard file names. *)
Record IndexData : Type := mkIndexData {
  weight_map : option (list (string * string))
}.

(** The file system as the loader sees it.  [load_file] and [json_load]
    raise on a file they cannot read. *)
Record Disk : Type := mkDisk {
  isfile : string → bool;
  isdir : string → bool;
  load_file : string → Result (list (string * Weight));
  json_load : string → Result IndexData
}.

(** Body of [for tensor_name, file_name in index_data['weight_map'].items()]
    (lines 479-482). *)
Definition group_step (files_to_load : list (string * list string))
    (entry : string * string) : list (string * list string) :=
  let tensor_name := entry.1 in
  let file_name := entry.2 in
  let files_to_load :=
    if Py.dict_contains files_to_load file_name then files_to_load
    else Py.dict_set files_to_load file_name [] in
  Py.dict_set files_to_load file_name
    (default [] (Py.dict_get files_to_load file_name) ++ [tensor_name]).

Definition group_by_file (weight_map : list (string * string))
  : list (string * list string) :=
  foldl group_step [] weight_map.

(** Body of [for tensor_name in tensor_names] (lines 493-497). *)
Definition merge_tensor (file_path : string) (part_state_dict : list (string * Weight))
    (full_state_dict : list (string * Weight)) (tensor_name : string)
  : Eff (list (string * Weight)) :=
  match Py.dict_get part_state_dict tensor_name with
  | Some v => mret (Py.dict_set full_state_dict tensor_name v)
  | None =>
      print ("Warning: Tensor " +:+ tensor_name +:+ " not found in " +:+ file_path);;
      mret full_state_dict
  end.

(** Body of [for file_name, tensor_names in files_to_load.items()]
    (lines 484-497). *)
Definition merge_file (disk : Disk) (pretrained_path : string)
    (full_state_dict : list (string * Weight)) (group : string * list string)
  : Eff (list (string * Weight)) :=
  let file_name := group.1 in
  let tensor_names := group.2 in
  let file_path := Py.path_join pretrained_path file_name in
  if negb (isfile disk file_path) then
    print ("Warning: Expected safetensors file " +:+ file_path +:+ " not found.");;
    mret full_state_dict
  else
    print ("Loading part from " +:+ file_path);;
    part_state_dict ← lift (load_file disk file_path);
    foldM (merge_tensor file_path part_state_dict) full_state_dict tensor_names.

(** The merge of a split checkpoint, given the manifest's [weight_map]
    (lines 478-497). *)
Definition merge_shards (disk : Disk) (pretrained_path : string)
    (weight_map : list (string * string)) : Eff (list (string * Weight)) :=
  let files_to_load := group_by_file weight_map in
  foldM (merge_file disk pretrained_path) [] files_to_load.

(** [v.items()] *)
Definition items (v : Value) : Eff (list (string * Weight)) :=
  match v with
  | VStateDict d => mret d
  | _ => raise AttributeError
  end.

(** The entries of the merged map under a component's prefix, the prefix
    ([n] characters) cut off:
    [for k, v in full_state_dict.items(): if k.startswith(prefix): sub[k[n:]] = v]. *)
Definition route (prefix : string) (n : nat) (full_state_dict : list (string * Weight))
  : list (string * Weight) :=
  foldl (λ sub kv,
           if Py.startswith kv.1 prefix
           then Py.dict_set sub (Py.str_from n kv.1) kv.2
           else sub)
        [] full_state_dict.

Definition with_language_model (self : TinyLlavaForConditionalGeneration)
    (lm : Component) : TinyLlavaForConditionalGeneration :=
  mkModel lm (language_model_requires_grad self) (vision_tower self)
          (connector self) (tokenizer self) (config self).

Definition with_vision_tower (self : TinyLlavaForConditionalGeneration)
    (vt : Component) : TinyLlavaForConditionalGeneration :=
  mkModel (language_model self) (language_model_requires_grad self) (Some vt)
          (connector self) (tokenizer self) (config self).

Definition with_connector (self : TinyLlavaForConditionalGeneration)
    (c : Component) : TinyLlavaForConditionalGeneration :=
  mkModel (language_model self) (language_model_requires_grad self)
          (vision_tower self) c (tokenizer self) (config self).

(** The tail of [load_llm]: freeze the decoder and copy the dtype and the
    pad token into the configuration. *)
Definition freeze_and_configure (self : TinyLlavaForConditionalGeneration)
    (kwargs : Kwargs) : TinyLlavaForConditionalGeneration :=
  let c := config self in
  mkModel (language_model self) false (vision_tower self) (connector self)
          (tokenizer self)
          (mkConfig (tune_mm_mlp_adapter c) (tokenizer_model_max_length c)
                    (tokenizer_padding_side c) (vision_feature_layer c)
                    (vision_feature_select_strategy c)
                    (default VNone (Py.dict_get kwargs "torch_dtype"))
                    (tokenizer_pad_token (tokenizer self))
                    (tokenizer_pad_token_id (tokenizer self))).

(** [load_llm] (lines 356-391). *)
Definition load_llm (self : TinyLlavaForConditionalGeneration) (kwargs : Kwargs)
  : Eff TinyLlavaForConditionalGeneration :=
  let got := get_value_from_kwargs kwargs "full_state_dict" in
  let full_state_dict := got.1 in
  let kwargs := got.2 in
  r ← match full_state_dict with
      | VNone =>
          let got := get_value_from_kwargs kwargs "model_name_or_path" in
          let language_model_name := got.1 in
          let got := get_value_from_kwargs got.2 "pretrained_llm_path" in
          let pretrained_llm_path := got.1 in
          let kwargs := got.2 in
          let language_model_name :=
            match pretrained_llm_path with
            | VNone => language_model_name
            | _ => pretrained_llm_path
            end in
          lm ← match language_model_name with
               | VNone => mret (language_model self)
               | _ => lift (language_model_from_pretrained
                              (language_model self) language_model_name kwargs)
               end;
          print ("loading language model from  " +:+ show_value language_model_name);;
          mret (lm, kwargs)
      | _ =>
          print "Loading language model weights from provided checkpoint (full_state_dict)...";;
          d ← items full_state_dict;
          let llm_state_dict := route "language_model." 15 d in
          match load_state_dict (language_model self) llm_state_dict false with
          | (lm, None) =>
              print "Language model weights loaded successfully from full_state_dict.";;
              mret (lm, kwargs)
          | (_, Some e) =>
              print ("Error loading language model weights from full_state_dict: " +:+ e);;
              raise (RuntimeError e)
          end
      end;
  mret (freeze_and_configure (with_language_model self r.1) r.2).

(** [self.vision_tower] as an object to call a method on. *)
Definition the_vision_tower (self : TinyLlavaForConditionalGeneration)
  : Eff Component :=
  match vision_tower self with
  | Some vt => mret vt
  | None => raise AttributeError
  end.

(** [load_vision_tower] (lines 394-414). *)
Definition load_vision_tower (self : TinyLlavaForConditionalGeneration)
    (kwargs : Kwargs) : Eff TinyLlavaForConditionalGeneration :=
  let got := get_value_from_kwargs kwargs "full_state_dict" in
  let full_state_dict := got.1 in
  let kwargs := got.2 in
  match full_state_dict with
  | VNone =>
      let got := get_value_from_kwargs kwargs "model_name_or_path" in
      let vision_tower_name := got.1 in
      let kwargs := got.2 in
      vt ← the_vision_tower self;
      vt' ← lift (vision_tower_load_model vt vision_tower_name kwargs);
      print ("loading vision tower from  " +:+ show_value vision_tower_name);;
      mret (with_vision_tower self vt')
  | _ =>
      print "Loading vision tower weights from provided checkpoint (full_state_dict)...";;
      d ← items full_state_dict;
      let vision_tower_state_dict := route "vision_tower." 13 d in
      vt ← the_vision_tower self;
      match load_state_dict vt vision_tower_state_dict true with
      | (vt', None) =>
          print "Vision tower weights loaded successfully from full_state_dict.";;
          mret (with_vision_tower self vt')
      | (_, Some e) =>
          print ("Error loading vision tower weights from full_state_dict: " +:+ e);;
          raise (RuntimeError e)
      end
  end.

(** [load_connector] (lines 417-437). *)
Definition load_connector (self : TinyLlavaForConditionalGeneration)
    (kwargs : Kwargs) : Eff TinyLlavaForConditionalGeneration :=
  let got := get_value_from_kwargs kwargs "full_state_dict" in
  let full_state_dict := got.1 in
  let kwargs := got.2 in
  match full_state_dict with
  | VNone =>
      c ← lift (connector_load_model (connector self) kwargs);
      print "loading connector with existing logic";;
      mret (with_connector self c)
  | _ =>
      print "Loading connector weights from provided checkpoint (full_state_dict)...";;
      d ← items full_state_dict;
      let connector_state_dict := route "connector." 10 d in
      match load_state_dict (connector self) connector_state_dict true with
      | (c, None) =>
          print "Connector weights loaded successfully from full_state_dict.";;
          mret (with_connector self c)
      | (c, Some e) =>
          print ("Error loading connector weights with strict=True from full_state_dict: " +:+ e);;
          print "Attempting to load with strict=False.";;
          match load_state_dict c connector_state_dict false with
          | (c', None) =>
              print "Connector weights loaded successfully with strict=False from full_state_dict.";;
              mret (with_connector self c')
          | (_, Some e') => raise (RuntimeError e')
          end
      end
  end.

(** [os.path.isfile] and its kin want a path. *)
Definition as_path (v : Value) : Eff string :=
  match v with
  | VStr s => mret s
  | _ => raise TypeError
  end.

(** The branches of [from_pretrained] that look for a consolidated
    checkpoint (lines 453-497).  [full_state_dict] is assigned in three of
    them and in no other place. *)
Definition find_checkpoint (disk : Disk) (pretrained_path : string)
  : Eff (Local Value) :=
  if isfile disk pretrained_path && Py.endswith pretrained_path ".safetensors" then
    print ("Found safetensors file at " +:+ pretrained_path +:+ ". Loading checkpoint.");;
    d ← lift (load_file disk pretrained_path);
    mret (Bound (VStateDict d))
  else if isdir disk pretrained_path then
    let single_file := Py.path_join pretrained_path "model.safetensors" in
    let index_file := Py.path_join pretrained_path "model.safetensors.index.json" in
    if isfile disk single_file then
      print ("Found model.safetensors at " +:+ single_file +:+ ". Loading checkpoint.");;
      d ← lift (load_file disk single_file);
      mret (Bound (VStateDict d))
    else if isfile disk index_file then
      print ("Found safetensors index at " +:+ index_file +:+ ". Loading split checkpoint from directory.");;
      index_data ← lift (json_load disk index_file);
      d ← match weight_map index_data with
          | Some wm => merge_shards disk pretrained_path wm
          | None => mret []
          end;
      mret (Bound (VStateDict d))
    else mret Unbound
  else mret Unbound.

(** [from_pretrained] (lines 440-517). *)
Definition from_pretrained (disk : Disk) (model_config : TinyLlavaConfig)
    (kwargs : Kwargs) : Eff TinyLlavaForConditionalGeneration :=
  let config := model_config in
  let model := init config in
  let got := get_value_from_kwargs kwargs "pretrained_model_path" in
  let kwargs := got.2 in
  pretrained_path ← as_path got.1;
  local_full_state_dict ← find_checkpoint disk pretrained_path;
  full_state_dict ← read_local "full_state_dict" local_full_state_dict;
  match full_state_dict with
  | VNone =>
      print "No model.safetensors found from provided config path. Proceeding with default loading behavior.";;
      model ← load_llm model kwargs;
      model ← load_vision_tower model kwargs;
      model ← load_connector model kwargs;
      mret model
  | _ =>
      let kwargs := Py.dict_set kwargs "full_state_dict" full_state_dict in
      model ← load_llm model kwargs;
      model ← load_vision_tower model kwargs;
      model ← load_connector model kwargs;
      print "All components (LLM, Vision Tower, Connector) loaded from model.safetensors successfully.";;
      mret model
  end.

(** ** The entry points: [forward], [generate], [prepare_inputs_for_generation] *)

(** The call of [prepare_inputs_labels_for_multimodal] as [forward] and
    [generate] make it, where [input_ids] may be [None]: of the three tests
    of line 228 only the last reads [input_ids.shape]. *)
Definition call_prepare_inputs_labels_for_multimodal
    (self : TinyLlavaForConditionalGeneration)
    (input_ids : option (Tensor2 Z))
    (position_ids attention_mask : option (Tensor2 Z))
    (past_key_values : option PastKeyValues) (labels : option (Tensor2 Z))
    (images : option Images) : Result Prepared :=
  match input_ids with
  | Some ids =>
      prepare_inputs_labels_for_multimodal self ids position_ids
        attention_mask past_key_values labels images
  | None =>
      match vision_tower self, images with
      | None, _ | _, None =>
          Ok (mkPrepared None position_ids attention_mask past_key_values
                         None labels)
      | Some _, Some _ => Raise AttributeError
      end
  end.

(** The keyword arguments the decoder's [forward] is called with
    (lines 146-157). *)
Record ForwardArgs : Type := mkForwardArgs {
  fw_input_ids : option (Tensor2 Z);
  fw_attention_mask : option (Tensor2 Z);
  fw_position_ids : option (Tensor2 Z);
  fw_past_key_values : option PastKeyValues;
  fw_inputs_embeds : option (list (list vec));
  fw_labels : option (Tensor2 Z);
  fw_use_cache : option bool;
  fw_output_attentions : option bool;
  fw_output_hidden_states : option bool;
  fw_return_dict : option bool
}.

(** A value in the keyword dictionaries of generation: [None], a tensor of
    integers, a batch of embeddings, a key-value cache, an image batch, or
    something else that is only passed on. *)
Inductive GenValue : Type :=
  | GNone
  | GTensor (t : Tensor2 Z)
  | GEmbeds (e : list (list vec))
  | GCache (c : PastKeyValues)
  | GImages (x : Images)
  | GOther (x : Opaque).

Definition GenKwargs : Type := list (string * GenValue).

(** The decoder at work: its [forward], [generate] and
    [prepare_inputs_for_generation], and the [use_cache] attribute of the
    configuration, which [configuration_tinyllava] declares. *)
Class Decoder : Type := {
  ForwardOutput : Type;
  GenerateOutput : Type;
  config_use_cache : TinyLlavaConfig → option bool;
  language_model_forward : Component → ForwardArgs → Result ForwardOutput;
  language_model_generate :
    Component → option (Tensor2 Z) → option (Tensor2 Z) →
    option (list (list vec)) → GenKwargs → Result GenerateOutput;
  language_model_prepare_inputs_for_generation :
    Component → Tensor2 Z → option PastKeyValues →
    option (list (list vec)) → GenKwargs → Result GenKwargs
}.

Context {G : Decoder}.

(** [forward] (lines 113-157). *)
Definition forward (self : TinyLlavaForConditionalGeneration)
    (input_ids attention_mask position_ids : option (Tensor2 Z))
    (past_key_values : option PastKeyValues)
    (inputs_embeds : option (list (list vec))) (labels : option (Tensor2 Z))
    (use_cache output_attentions output_hidden_states : option bool)
    (images : option Images) (image_sizes : option Opaque)
    (return_dict : option bool) : Result ForwardOutput :=
  let use_cache :=
    match use_cache with
    | Some b => Some b
    | None => config_use_cache (config self)
    end in
  p ← match inputs_embeds with
      | None =>
          call_prepare_inputs_labels_for_multimodal self input_ids
            position_ids attention_mask past_key_values labels images
      | Some _ =>
          Ok (mkPrepared input_ids position_ids attention_mask
                         past_key_values inputs_embeds labels)
      end;
  language_model_forward (language_model self)
    (mkForwardArgs (out_input_ids p) (out_attention_mask p)
                   (out_position_ids p) (out_past_key_values p)
                   (out_inputs_embeds p) (out_labels p) use_cache
                   output_attentions output_hidden_states return_dict).

(** [self.language_model.get_input_embeddings()(inputs)] on a batch. *)
Definition embed_inputs (self : TinyLlavaForConditionalGeneration)
    (inputs : option (Tensor2 Z)) : Result (list (list vec)) :=
  match inputs with
  | Some t => Ok (map (get_input_embeddings self) (rows t))
  | None => Raise TypeError
  end.

(** [generate] (lines 159-197).  [position_ids] and [attention_mask] are
    the two keywords popped at lines 167-168, [None] when the caller left
    them out; [kwargs] holds the keywords that are left. *)
Definition generate (self : TinyLlavaForConditionalGeneration)
    (inputs : option (Tensor2 Z)) (images : option Images)
    (image_sizes : option Opaque)
    (position_ids attention_mask : option (Tensor2 Z)) (kwargs : GenKwargs)
  : Result GenerateOutput :=
  if Py.dict_contains kwargs "inputs_embeds" then Raise NotImplementedError
  else
    match images with
    | Some _ =>
        p ← call_prepare_inputs_labels_for_multimodal self inputs
              position_ids attention_mask None None images;
        language_model_generate (language_model self) (out_position_ids p)
          (out_attention_mask p) (out_inputs_embeds p) kwargs
    | None =>
        inputs_embeds ← embed_inputs self inputs;
        language_model_generate (language_model self) position_ids
          attention_mask (Some inputs_embeds) kwargs
    end.

(** [prepare_inputs_for_generation] (lines 210-221). *)
Definition prepare_inputs_for_generation
    (self : TinyLlavaForConditionalGeneration) (input_ids : Tensor2 Z)
    (past_key_values : option PastKeyValues)
    (inputs_embeds : option (list (list vec))) (kwargs : GenKwargs)
  : Result GenKwargs :=
  let images := default GNone (Py.dict_get kwargs "images") in
  let kwargs := Py.dict_del kwargs "images" in
  let image_sizes := default GNone (Py.dict_get kwargs "image_sizes") in
  let kwargs := Py.dict_del kwargs "image_sizes" in
  inputs ← language_model_prepare_inputs_for_generation (language_model self)
             input_ids past_key_values inputs_embeds kwargs;
  let inputs :=
    match images with
    | GNone => inputs
    | _ => Py.dict_set inputs "images" images
    end in
  let inputs :=
    match image_sizes with
    | GNone => inputs
    | _ => Py.dict_set inputs "image_sizes" image_sizes
    end in
  Ok inputs.

End Model.

(** ** Vocabulary of the statements *)

(** A row padded to [m] entries with [v], before or after its content. *)
Definition pad_row {A} (padding_side : string) (m : nat) (v : A) (x : list A)
  : list A :=
  if decide (padding_side = "left")
  then replicate (m - length x) v ++ x
  else x ++ replicate (m - length x) v.

(** The (tensor, file) pairs held by a grouping. *)
Definition flat_groups (G : list (string * list string)) : list (string * string) :=
  concat (map (λ g, map (λ t, (t, g.1)) g.2) G).

Section Vocabulary.
Context {D : Domain} {C : Collaborators}.

Local Abbreviation vec := (list scalar).

(** The state of the padding loop when the first rows are done and the
    rest still hold their initial fill. *)
Definition pad_state (m : nat) (dE : list (list vec)) (dL : list (list Z))
    (dM : list (list bool)) (dP : list (list Z)) (todo : nat) : Padded :=
  mkPadded dE
    (dL ++ replicate todo (replicate m IGNORE_INDEX))
    (dM ++ replicate todo (replicate m false))
    (dP ++ replicate todo (replicate m 0%Z)).

(** What the padding stage returns for aligned samples: every row padded
    to the batch maximum on the configured side. *)
Definition padded_batch (side : string) (m : nat)
    (E : list (list vec)) (L : list (list Z)) : Padded :=
  mkPadded
    (map (pad_row side m (replicate hidden_dim szero)) E)
    (map (pad_row side m IGNORE_INDEX) L)
    (map (λ e, pad_row side m false (replicate (length e) true)) E)
    (map (λ e, pad_row side m 0%Z (arange (length e))) E).

(** The tuple returned when the fusion path ran. *)
Definition fused_output (position_ids attention_mask : option (Tensor2 Z))
    (past_key_values : option PastKeyValues) (labels : option (Tensor2 Z))
    (fu : Fusion) : Prepared :=
  mkPrepared None
    ((λ _, mkTensor2 (max_len fu) (position_ids_padded (padded fu)))
       <$> position_ids)
    ((λ _, of_bool (mkTensor2 (max_len fu) (attention_mask_padded (padded fu))))
       <$> attention_mask)
    past_key_values
    (Some (new_input_embeds_padded (padded fu)))
    ((λ _, mkTensor2 (max_len fu) (new_labels_padded (padded fu))) <$> labels).

(** The tuple returned by the short-circuit. *)
Definition passthrough (input_ids : Tensor2 Z)
    (position_ids attention_mask : option (Tensor2 Z))
    (past_key_values : option PastKeyValues) (labels : option (Tensor2 Z))
  : Prepared :=
  mkPrepared (Some input_ids) position_ids attention_mask past_key_values
             None labels.

(** What the merge owes a manifest entry: the shard's value when the shard
    is on disk and holds the tensor, and otherwise no entry and a printed
    warning. *)
Definition shard_outcome (disk : Disk) (pretrained_path : string)
    (full : list (string * Weight)) (out : list string) (t f : string) : Prop :=
  let file_path := Py.path_join pretrained_path f in
  if isfile disk file_path then
    ∃ part, load_file disk file_path = Ok part
      ∧ match Py.dict_get part t with
        | Some v => Py.dict_get full t = Some v
        | None =>
            Py.dict_get full t = None
            ∧ ("Warning: Tensor " +:+ t +:+ " not found in " +:+ file_path) ∈ out
        end
  else
    Py.dict_get full t = None
    ∧ ("Warning: Expected safetensors file " +:+ file_path +:+ " not found.") ∈ out.

(** The runs of [x] between the positions where [ids] holds the image
    sentinel: one more run than there are sentinels. *)
Fixpoint runs {A} (ids : list Z) (x : list A) : list (list A) :=
  match ids, x with
  | t :: ids', a :: x' =>
      if (t =? IMAGE_TOKEN_INDEX)%Z then [] :: runs ids' x'
      else match runs ids' x' with
           | r :: rs => (a :: r) :: rs
           | [] => [[a]]
           end
  | _, _ => [[]]
  end.

(** Runs and blocks in turn: a block after every run but the last. *)
Fixpoint weave {A} (parts blocks : list (list A)) : list A :=
  match parts with
  | [] => []
  | p :: ps =>
      p ++ match ps with
           | [] => []
           | _ :: _ => default [] (head blocks) ++ weave ps (tail blocks)
           end
  end.

(** A sample read token by token: a sentinel gives way to the rows of the
    next image block, any other token to its embedding. *)
Fixpoint interleave_embeds (embed : Z → vec) (image_features : list (list vec))
    (cur_image_idx : nat) (ids : list Z) : list vec :=
  match ids with
  | [] => []
  | t :: rest =>
      if (t =? IMAGE_TOKEN_INDEX)%Z
      then default [] (image_features !! cur_image_idx)
           ++ interleave_embeds embed image_features (S cur_image_idx) rest
      else embed t :: interleave_embeds embed image_features cur_image_idx rest
  end.

(** Its labels: the ignore value over every row of an image block, and the
    sample's own label at any other token. *)
Fixpoint interleave_labels (image_features : list (list vec))
    (cur_image_idx : nat) (ids labels : list Z) : list Z :=
  match ids, labels with
  | t :: rest, l :: labels' =>
      if (t =? IMAGE_TOKEN_INDEX)%Z
      then replicate (length (default [] (image_features !! cur_image_idx)))
                     IGNORE_INDEX
           ++ interleave_labels image_features (S cur_image_idx) rest labels'
      else l :: interleave_labels image_features cur_image_idx rest labels'
  | _, _ => []
  end.

(** The batch read sample by sample, the cursor into the image blocks
    moving on by one block per sentinel, and by one for a sample without
    sentinels. *)
Fixpoint interleave_batch (embed : Z → vec) (image_features : list (list vec))
    (cur_image_idx : nat) (input_ids : list (list Z)) : list (list vec) :=
  match input_ids with
  | [] => []
  | ids :: rest =>
      interleave_embeds embed image_features cur_image_idx ids
      :: interleave_batch embed image_features
           (cur_image_idx + Nat.max 1 (num_images ids)) rest
  end.

Fixpoint interleave_labels_batch (image_features : list (list vec))
    (cur_image_idx : nat) (input_ids labels : list (list Z)) : list (list Z) :=
  match input_ids, labels with
  | ids :: rest, l :: labels' =>
      interleave_labels image_features cur_image_idx ids l
      :: interleave_labels_batch image_features
           (cur_image_idx + Nat.max 1 (num_images ids)) rest labels'
  | _, _ => []
  end.

(** The model [from_pretrained] hands back once the three components took
    their weights: the decoder frozen, the [torch_dtype] keyword and the
    tokenizer's pad token written into the configuration, everything else
    as [cls(config)] built it. *)
Definition loaded_model (model_config : TinyLlavaConfig) (kwargs : Kwargs)
    (lm vt c : Component) : TinyLlavaForConditionalGeneration :=
  let tok := TokenizerFactory model_config in
  mkModel lm false (Some vt) c tok
    (mkConfig (tune_mm_mlp_adapter model_config)
              (tokenizer_model_max_length model_config)
              (tokenizer_padding_side model_config)
              (vision_feature_layer model_config)
              (vision_feature_select_strategy model_config)
              (default VNone (Py.dict_get kwargs "torch_dtype"))
              (tokenizer_pad_token tok) (tokenizer_pad_token_id tok)).

End Vocabulary.

(** ** A small concrete model

    Embeddings of width 4 over the integers; an image batch is given by
    the blocks its encoding yields; a sub-module is the list of its named
    parameters, and loading a state dictionary into it overwrites the
    parameters it names, a strict load raising when a parameter is missing
    or a key is unexpected. *)

Module Sample.

#[global] Instance domain : Domain := {|
  scalar := Z;
  szero := 0%Z;
  hidden_dim := 4;
  Weight := Z;
  Images := list (list (list Z));
  Features := list (list (list Z));
  PastKeyValues := unit;
  Component := list (string * Z);
  Opaque := unit;
  IMAGE_TOKEN_INDEX := (-200)%Z;
  IGNORE_INDEX := (-100)%Z
|}.

Definition load (m sd : list (string * Z)) (strict : bool)
  : list (string * Z) * option string :=
  let loaded :=
    map (λ kv : string * Z, (kv.1, default kv.2 (Py.dict_get sd kv.1))) m in
  let missing := filter (λ kv : string * Z, Py.dict_contains sd kv.1 = false) m in
  let unexpected := filter (λ kv : string * Z, Py.dict_contains m kv.1 = false) sd in
  (loaded,
   if strict && negb (bool_decide (missing = []) && bool_decide (unexpected = []))
   then Some "Error(s) in loading state_dict"
   else None).

#[global] Instance collaborators : Collaborators := {|
  embed_token := λ _ t, [t; t; t; t];
  vision_tower_call := λ _ images _ _, images;
  connector_call := λ _ features, features;
  load_state_dict := load;
  language_model_from_pretrained := λ m _ _, Ok m;
  vision_tower_load_model := λ m _ _, Ok m;
  connector_load_model := λ m _, Ok m;
  LLMFactory := λ _, [("w", 0%Z)];
  VisionTowerFactory := λ _, [("v", 0%Z)];
  ConnectorFactory := λ _, [("c", 0%Z)];
  TokenizerFactory := λ _, mkTokenizer None None
|}.

Definition config_right : TinyLlavaConfig :=
  mkConfig false None "right" (-2)%Z "patch" VNone None None.

Definition config_left : TinyLlavaConfig :=
  mkConfig false (Some 3%Z) "left" (-2)%Z "patch" VNone None None.

Definition model : TinyLlavaForConditionalGeneration := init config_right.

Definition model_left : TinyLlavaForConditionalGeneration := init config_left.

(** Sample A is [5, <image>, 7]; sample B is [9] and two padding tokens. *)
Definition input_ids : Tensor2 Z :=
  mkTensor2 3 [[5; -200; 7]; [9; 0; 0]]%Z.

Definition attention_mask : Tensor2 Z :=
  mkTensor2 3 [[1; 1; 1]; [1; 0; 0]]%Z.

Definition labels : Tensor2 Z :=
  mkTensor2 3 [[5; -200; 7]; [9; 0; 0]]%Z.

Definition position_ids : Tensor2 Z :=
  mkTensor2 3 [[0; 1; 2]; [0; 1; 2]]%Z.

(** A block of two patches for sample A, and the block sample B draws. *)
Definition images : list (list (list Z)) :=
  [[[100; 100; 100; 100]; [101; 101; 101; 101]]; [[1; 1; 1; 1]]]%Z.

(** What the fusion path computes on these inputs, padding on the right. *)
Definition fused : Fusion :=
  mkFusion
    [[5; -200; 7]; [9]]%Z
    [[5; -200; 7]; [9]]%Z
    [[[5; 5; 5; 5]; [100; 100; 100; 100]; [101; 101; 101; 101]; [7; 7; 7; 7]];
     [[9; 9; 9; 9]]]%Z
    [[5; -100; -100; 7]; [9]]%Z
    2
    [[[5; 5; 5; 5]; [100; 100; 100; 100]; [101; 101; 101; 101]; [7; 7; 7; 7]];
     [[9; 9; 9; 9]]]%Z
    [[5; -100; -100; 7]; [9]]%Z
    4
    (mkPadded
       [[[5; 5; 5; 5]; [100; 100; 100; 100]; [101; 101; 101; 101]; [7; 7; 7; 7]];
        [[9; 9; 9; 9]; [0; 0; 0; 0]; [0; 0; 0; 0]; [0; 0; 0; 0]]]%Z
       [[5; -100; -100; 7]; [9; -100; -100; -100]]%Z
       [[true; true; true; true]; [true; false; false; false]]
       [[0; 1; 2; 3]; [0; 0; 0; 0]]%Z).

(** The same inputs with a cap of 3 positions, padding on the left. *)
Definition fused_left : Fusion :=
  mkFusion
    [[5; -200; 7]; [9]]%Z
    [[5; -200; 7]; [9]]%Z
    [[[5; 5; 5; 5]; [100; 100; 100; 100]; [101; 101; 101; 101]; [7; 7; 7; 7]];
     [[9; 9; 9; 9]]]%Z
    [[5; -100; -100; 7]; [9]]%Z
    2
    [[[5; 5; 5; 5]; [100; 100; 100; 100]; [101; 101; 101; 101]];
     [[9; 9; 9; 9]]]%Z
    [[5; -100; -100]; [9]]%Z
    3
    (mkPadded
       [[[5; 5; 5; 5]; [100; 100; 100; 100]; [101; 101; 101; 101]];
        [[0; 0; 0; 0]; [0; 0; 0; 0]; [9; 9; 9; 9]]]%Z
       [[5; -100; -100]; [-100; -100; 9]]%Z
       [[true; true; true]; [false; false; true]]
       [[0; 1; 2]; [0; 0; 0]]%Z).

(** What the caller gets back, with and without the optional inputs. *)
Definition prepared : Prepared :=
  mkPrepared None
    (Some (mkTensor2 4 [[0; 1; 2; 3]; [0; 0; 0; 0]]%Z))
    (Some (mkTensor2 4 [[1; 1; 1; 1]; [1; 0; 0; 0]]%Z))
    None
    (Some [[[5; 5; 5; 5]; [100; 100; 100; 100]; [101; 101; 101; 101]; [7; 7; 7; 7]];
           [[9; 9; 9; 9]; [0; 0; 0; 0]; [0; 0; 0; 0]; [0; 0; 0; 0]]]%Z)
    (Some (mkTensor2 4 [[5; -100; -100; 7]; [9; -100; -100; -100]]%Z)).

Definition prepared_bare : Prepared :=
  mkPrepared None None None None
    (Some [[[5; 5; 5; 5]; [100; 100; 100; 100]; [101; 101; 101; 101]; [7; 7; 7; 7]];
           [[9; 9; 9; 9]; [0; 0; 0; 0]; [0; 0; 0; 0]; [0; 0; 0; 0]]]%Z)
    None.

(** A checkpoint directory [ckpt] with a manifest and two of the three
    shards it names; [shard2] lacks the tensor the manifest places in it.
    [bare] is a directory with no checkpoint in it. *)
Definition manifest : list (string * string) :=
  [("language_model.w", "shard1"); ("vision_tower.v", "shard2");
   ("connector.c", "shard1"); ("lost", "shard3")].

Definition disk : Disk :=
  mkDisk
    (λ p, bool_decide (p ∈ ["ckpt/model.safetensors.index.json";
                            "ckpt/shard1"; "ckpt/shard2"]))
    (λ p, bool_decide (p ∈ ["ckpt"; "bare"]))
    (λ p, if String.eqb p "ckpt/shard1"
          then Ok [("language_model.w", 1%Z); ("connector.c", 3%Z)]
          else if String.eqb p "ckpt/shard2" then Ok [("other", 9%Z)]
          else Raise ValueError)
    (λ p, if String.eqb p "ckpt/model.safetensors.index.json"
          then Ok (mkIndexData (Some manifest))
          else Raise ValueError).

(** A manifest of two tensors in two shards, on a disk that holds the
    second shard or not. *)
Definition manifest_two : list (string * string) :=
  [("w1", "shard1.bin"); ("w2", "shard2.bin")].

Definition disk_two (second_present : bool) : Disk :=
  mkDisk
    (λ p, String.eqb p "dir/shard1.bin"
          || (second_present && String.eqb p "dir/shard2.bin"))
    (λ p, String.eqb p "dir")
    (λ p, if String.eqb p "dir/shard1.bin" then Ok [("w1", 1%Z)]
          else if String.eqb p "dir/shard2.bin" then Ok [("w2", 2%Z)]
          else Raise ValueError)
    (λ _, Raise ValueError).

(** A merged map with one entry per component, and one with a key the
    vision tower and the connector do not expect. *)
Definition merged : list (string * Weight) :=
  [("language_model.w", 1%Z); ("vision_tower.v", 2%Z); ("connector.c", 3%Z)].

Definition merged_extra : list (string * Weight) :=
  [("language_model.w", 1%Z); ("vision_tower.v", 2%Z);
   ("vision_tower.extra", 8%Z); ("connector.c", 3%Z); ("connector.extra", 9%Z)].

(** The keyword arguments [from_pretrained] hands to the three loaders. *)
Definition kwargs_extra : Kwargs :=
  [("full_state_dict", VStateDict merged_extra)].

(** A decoder that hands back what it was called with. *)
#[global] Instance decoder : Decoder := {|
  ForwardOutput := ForwardArgs;
  GenerateOutput :=
    (option (Tensor2 Z) * option (Tensor2 Z) * option (list (list (list Z)))
     * GenKwargs)%type;
  config_use_cache := λ _, Some true;
  language_model_forward := λ _ args, Ok args;
  language_model_generate :=
    λ _ position_ids attention_mask inputs_embeds kwargs,
      Ok (position_ids, attention_mask, inputs_embeds, kwargs);
  language_model_prepare_inputs_for_generation :=
    λ _ input_ids _ _ kwargs, Ok (("input_ids", GTensor input_ids) :: kwargs)
|}.

(** An attention mask that empties sample B. *)
Definition attention_mask_off : Tensor2 Z :=
  mkTensor2 3 [[1; 1; 1]; [0; 0; 0]]%Z.

(** A checkpoint directory [whole] with a consolidated file beside a
    manifest that cannot be read. *)
Definition disk_whole : Disk :=
  mkDisk
    (λ p, bool_decide (p ∈ ["whole/model.safetensors";
                            "whole/model.safetensors.index.json"]))
    (λ p, String.eqb p "whole")
    (λ p, if String.eqb p "whole/model.safetensors" then Ok merged
          else Raise ValueError)
    (λ _, Raise ValueError).

Definition kwargs_whole : Kwargs :=
  [("pretrained_model_path", VStr "whole"); ("torch_dtype", VStr "float16")].

(** Keywords of a standalone load that name two decoders. *)
Definition kwargs_paths : Kwargs :=
  [("model_name_or_path", VStr "base"); ("pretrained_llm_path", VStr "tuned")].

(** Keywords of a generation step. *)
Definition kwargs_step : GenKwargs :=
  [("images", GImages images); ("use_cache", GNone); ("image_sizes", GNone)].


(** What the fusion path computes when the mask empties sample B. *)
Definition fused_off : Fusion :=
  mkFusion
    [[5; -200; 7]; []]%Z
    [[5; -200; 7]; []]%Z
    [[[5; 5; 5; 5]; [100; 100; 100; 100]; [101; 101; 101; 101]; [7; 7; 7; 7]];
     []]%Z
    [[5; -100; -100; 7]; []]%Z
    2
    [[[5; 5; 5; 5]; [100; 100; 100; 100]; [101; 101; 101; 101]; [7; 7; 7; 7]];
     []]%Z
    [[5; -100; -100; 7]; []]%Z
    4
    (mkPadded
       [[[5; 5; 5; 5]; [100; 100; 100; 100]; [101; 101; 101; 101]; [7; 7; 7; 7]];
        [[0; 0; 0; 0]; [0; 0; 0; 0]; [0; 0; 0; 0]; [0; 0; 0; 0]]]%Z
       [[5; -100; -100; 7]; [-100; -100; -100; -100]]%Z
       [[true; true; true; true]; [false; false; false; false]]
       [[0; 1; 2; 3]; [0; 0; 0; 0]]%Z).

(** The keywords that carry the merged map of all three components. *)
Definition kwargs_merged : Kwargs :=
  [("full_state_dict", VStateDict merged)].


(** The inputs prepared for the generation step. *)
Definition inputs_step : GenKwargs :=
  [("input_ids", GTensor input_ids); ("use_cache", GNone);
   ("images", GImages images)].

(** A prompt of one token per sample. *)
Definition input_ids_one : Tensor2 Z := mkTensor2 1 [[5]; [9]]%Z.

(** An attention mask one column short of the token ids. *)
Definition attention_mask_short : Tensor2 Z :=
  mkTensor2 2 [[1; 1]; [1; 0]]%Z.

(** The directory of [disk_two] with a second shard that is there and
    cannot be read. *)
Definition disk_corrupt : Disk :=
  mkDisk
    (λ p, String.eqb p "dir/shard1.bin" || String.eqb p "dir/shard2.bin")
    (λ p, String.eqb p "dir")
    (λ p, if String.eqb p "dir/shard1.bin" then Ok [("w1", 1%Z)]
          else Raise ValueError)
    (λ _, Raise ValueError).

End Sample.

(** * Properties *)

(** ** The error monad and its loops *)

Lemma bind_Ok {A B} (m : Result A) (f : A → Result B) (b : B) :
  m ≫= f = Ok b → ∃ a, m = Ok a ∧ f a = Ok b.
Proof. destruct m as [a|e]; simpl; [eauto | discriminate]. Qed.

(** Peel the successful steps off a monadic hypothesis. *)
Tactic Notation "ok_inv" hyp(H) "as" ident(a) ident(Ha) :=
  apply bind_Ok in H as (a & Ha & H).

Lemma foldM_cons {St X} (body : St → X → Result St) s x xs :
  foldM body s (x :: xs) = (body s x ≫= λ s', foldM body s' xs).
Proof. reflexivity. Qed.

(** A property kept by every iteration that returns is kept by the loop. *)
Lemma foldM_invariant {St X} (P : St → Prop) (body : St → X → Result St) xs :
  (∀ s x s', x ∈ xs → P s → body s x = Ok s' → P s') →
  ∀ s s', P s → foldM body s xs = Ok s' → P s'.
Proof.
  induction xs as [|x xs IH]; intros Hstep s s' Hs Hrun.
  - simpl in Hrun. injection Hrun as <-. exact Hs.
  - rewrite foldM_cons in Hrun. ok_inv Hrun as s1 Hs1.
    eapply IH; [| |exact Hrun].
    + intros s2 y s3 Hy. apply Hstep. by right.
    + eapply Hstep; [by left|exact Hs|exact Hs1].
Qed.

Lemma mapM_Forall2 {X Y} (f : X → Result Y) xs ys :
  mapM f xs = Ok ys → Forall2 (λ x y, f x = Ok y) xs ys.
Proof.
  revert ys. induction xs as [|x xs IH]; intros ys Hrun; simpl in Hrun.
  - injection Hrun as <-. constructor.
  - ok_inv Hrun as y Hy. ok_inv Hrun as ys' Hys. injection Hrun as <-.
    constructor; [done | by apply IH].
Qed.

Lemma enumerate_from_elem {X} (xs : list X) k j x :
  (j, x) ∈ enumerate_from k xs → ∃ i, j = k + i ∧ xs !! i = Some x.
Proof.
  revert k. induction xs as [|y xs IH]; intros k; simpl.
  - by intros ?%elem_of_nil.
  - intros [[= -> ->]|Hin]%elem_of_cons.
    + exists 0. split; [lia|done].
    + destruct (IH _ Hin) as (i & -> & Hi). exists (S i). split; [lia|done].
Qed.

Lemma enumerate_elem {X} (xs : list X) j x :
  (j, x) ∈ enumerate xs → xs !! j = Some x.
Proof. intros (i & -> & Hi)%enumerate_from_elem. exact Hi. Qed.

Lemma length_enumerate_from {X} (xs : list X) k :
  length (enumerate_from k xs) = length xs.
Proof. revert k. induction xs; intros k; simpl; auto. Qed.

(** ** Python primitives *)

Lemma index_Ok {A} (l : list A) i x : Py.index l i = Ok x ↔ l !! i = Some x.
Proof.
  unfold Py.index. destruct (l !! i); split; intros Heq; by simplify_eq.
Qed.

Lemma bound_le len i : Py.bound len i ≤ len.
Proof. unfold Py.bound. destruct (i <? 0)%Z; lia. Qed.

Lemma bound_nat len (n : nat) : Py.bound len (Z.of_nat n) = Nat.min n len.
Proof.
  unfold Py.bound. destruct (Z.ltb_spec (Z.of_nat n) 0); lia.
Qed.

Lemma bound_neg len (n : nat) :
  0 < n → Py.bound len (- Z.of_nat n) = len - n.
Proof.
  intros Hn. unfold Py.bound. destruct (Z.ltb_spec (- Z.of_nat n) 0); lia.
Qed.

Lemma upper_le len hi : Py.upper len hi ≤ len.
Proof. destruct hi; simpl; [apply bound_le | done]. Qed.

Lemma length_slice {A} (l : list A) lo hi :
  length (Py.slice l lo hi)
  = Py.upper (length l) hi - Py.lower (length l) lo.
Proof.
  unfold Py.slice. rewrite length_take, length_drop.
  pose proof (upper_le (length l) hi). lia.
Qed.

Lemma slice_empty {A} (l : list A) : Py.slice l (Some 0%Z) (Some 0%Z) = [].
Proof. unfold Py.slice. simpl. rewrite (bound_nat _ 0). by destruct l. Qed.

Lemma foldl_max_ge (xs : list nat) a : a ≤ foldl Nat.max a xs.
Proof.
  revert a. induction xs as [|x xs IH]; intros a; simpl; [done|].
  etrans; [|apply IH]. lia.
Qed.

Lemma foldl_max_bound (xs : list nat) a :
  Forall (λ x, x ≤ foldl Nat.max a xs) xs.
Proof.
  revert a. induction xs as [|x xs IH]; intros a; simpl; constructor.
  - etrans; [|apply foldl_max_ge]. lia.
  - apply IH.
Qed.

Lemma max_Ok (xs : list nat) m :
  Py.max xs = Ok m → Forall (λ x, x ≤ m) xs.
Proof.
  destruct xs as [|x xs]; simpl; [discriminate|]. intros [= <-].
  constructor; [apply foldl_max_ge | apply foldl_max_bound].
Qed.


(** ** Torch primitives *)

Lemma length_select {A B} (x : list A) (y : list B) (m : list bool) :
  length x = length m → length y = length m →
  length (select x m) = length (select y m).
Proof.
  revert x y. induction m as [|b m IH]; intros [|a x] [|c y]; simpl; try done.
  intros [= Hx] [= Hy]. destruct b; simpl; auto.
Qed.

Lemma length_chunks {A} (x : list A) sizes :
  sum_list sizes ≤ length x → map length (chunks x sizes) = sizes.
Proof.
  revert x. induction sizes as [|n sizes IH]; intros x Hsum; simpl in *; [done|].
  rewrite length_take, IH; [f_equal; lia|]. rewrite length_drop. lia.
Qed.

Lemma Forall2_same_length {A B} (xs : list (list A)) (ys : list (list B)) :
  map length xs = map length ys →
  Forall2 (λ x y, length x = length y) xs ys.
Proof.
  revert ys. induction xs as [|x xs IH]; intros [|y ys] Hmap;
    simpl in Hmap; try discriminate; [constructor|].
  injection Hmap as Hxy Hrest. constructor; auto.
Qed.

Lemma split_Ok {A} (x : list A) sizes parts :
  Torch.split x sizes = Ok parts → map length parts = sizes.
Proof.
  unfold Torch.split. case_decide; [|discriminate]. intros [= <-].
  apply length_chunks. lia.
Qed.

Lemma setitem_slice_at {A} (done rest : list (list A)) row i lo hi vals :
  length done = i →
  length vals = Py.upper (length row) hi - Py.lower (length row) lo →
  setitem_slice (done ++ row :: rest) i lo hi vals
  = Ok (done ++ (take (Py.lower (length row) lo) row ++ vals
                 ++ drop (Py.lower (length row) lo
                          + (Py.upper (length row) hi - Py.lower (length row) lo)) row)
             :: rest).
Proof.
  intros <- Hlen. unfold setitem_slice.
  assert (Py.index (done ++ row :: rest) (length done) = Ok row) as ->.
  { apply index_Ok, list_lookup_middle. done. }
  simpl. rewrite decide_True by done.
  rewrite insert_app_r_alt, Nat.sub_diag by done. done.
Qed.

Lemma fill_slice_at {A} (done rest : list (list A)) row i lo hi v :
  length done = i →
  fill_slice (done ++ row :: rest) i lo hi v
  = Ok (done ++ (take (Py.lower (length row) lo) row
                 ++ replicate (Py.upper (length row) hi - Py.lower (length row) lo) v
                 ++ drop (Py.lower (length row) lo
                          + (Py.upper (length row) hi - Py.lower (length row) lo)) row)
             :: rest).
Proof.
  intros <-. unfold fill_slice.
  assert (Py.index (done ++ row :: rest) (length done) = Ok row) as ->.
  { apply index_Ok, list_lookup_middle. done. }
  simpl. rewrite insert_app_r_alt, Nat.sub_diag by done. done.
Qed.

Lemma length_pad_row {A} side m (v : A) x :
  length x ≤ m → length (pad_row side m v x) = m.
Proof.
  intros Hm. unfold pad_row.
  case_decide; rewrite length_app, length_replicate; lia.
Qed.

Lemma setitem_blank_right {A} (done rest : list (list A)) m (v : A) i vals :
  length done = i → length vals ≤ m →
  setitem_slice (done ++ replicate m v :: rest) i None
                (Some (Z.of_nat (length vals))) vals
  = Ok (done ++ pad_row "right" m v vals :: rest).
Proof.
  intros Hi Hm. rewrite setitem_slice_at; [|done|].
  - rewrite length_replicate. simpl Py.lower. simpl Py.upper.
    rewrite bound_nat, Nat.min_l, Nat.sub_0_r, drop_replicate by lia.
    done.
  - rewrite length_replicate. simpl. rewrite bound_nat. lia.
Qed.

Lemma setitem_blank_left {A} (done rest : list (list A)) m (v : A) i vals :
  length done = i → length vals ≤ m → 0 < length vals →
  setitem_slice (done ++ replicate m v :: rest) i
                (Some (- Z.of_nat (length vals))%Z) None vals
  = Ok (done ++ pad_row "left" m v vals :: rest).
Proof.
  intros Hi Hm Hpos. rewrite setitem_slice_at; [|done|].
  - rewrite length_replicate. simpl Py.lower. simpl Py.upper.
    rewrite bound_neg, take_replicate, drop_replicate by done.
    replace (m - (m - length vals + (m - (m - length vals)))) with 0 by lia.
    replace (Nat.min (m - length vals) m) with (m - length vals) by lia.
    simpl. by rewrite app_nil_r.
  - rewrite length_replicate. simpl. rewrite bound_neg; lia.
Qed.

Lemma fill_blank_right {A} (done rest : list (list A)) m (v w : A) i n :
  length done = i → n ≤ m →
  fill_slice (done ++ replicate m v :: rest) i None (Some (Z.of_nat n)) w
  = Ok (done ++ pad_row "right" m v (replicate n w) :: rest).
Proof.
  intros Hi Hm. rewrite fill_slice_at by done.
  rewrite length_replicate. simpl Py.lower. simpl Py.upper.
  rewrite bound_nat, Nat.min_l, Nat.sub_0_r, drop_replicate by lia.
  unfold pad_row. simpl. by rewrite length_replicate.
Qed.

Lemma fill_blank_left {A} (done rest : list (list A)) m (v w : A) i n :
  length done = i → n ≤ m → 0 < n →
  fill_slice (done ++ replicate m v :: rest) i (Some (- Z.of_nat n)%Z) None w
  = Ok (done ++ pad_row "left" m v (replicate n w) :: rest).
Proof.
  intros Hi Hm Hpos. rewrite fill_slice_at by done.
  rewrite length_replicate. simpl Py.lower. simpl Py.upper.
  rewrite bound_neg, take_replicate, drop_replicate by done.
  replace (m - (m - n + (m - (m - n)))) with 0 by lia.
  replace (Nat.min (m - n) m) with (m - n) by lia.
  replace (m - (m - n)) with n by lia.
  unfold pad_row. simpl. by rewrite app_nil_r, length_replicate.
Qed.

Lemma length_arange n : length (arange n) = n.
Proof. unfold arange. by rewrite length_map, length_seq. Qed.

Lemma arange_lookup n j : j < n → arange n !! j = Some (Z.of_nat j).
Proof.
  intros Hj. unfold arange. rewrite list_lookup_fmap, lookup_seq_lt by done.
  done.
Qed.

(** ** Sequence fusion *)

Section FusionProperties.
Context {D : Domain} {C : Collaborators}.

Local Abbreviation vec := (list scalar).
Local Abbreviation same_length :=
  (λ (e : list (list scalar)) (l : list Z), length e = length l).

(** *** Depadding *)

Lemma depad_lookup {A} (xs : list (list A)) mask ys i y :
  depad xs mask = Ok ys → ys !! i = Some y →
  ∃ x m, xs !! i = Some x ∧ mask !! i = Some m
         ∧ length x = length m ∧ y = select x m.
Proof.
  intros Hrun%mapM_Forall2 Hy.
  destruct (Forall2_lookup_r _ _ _ _ _ Hrun Hy) as ([x m] & Hxm & Hsel).
  apply lookup_zip_with_Some in Hxm as (x' & m' & [= -> ->] & Hx & Hm).
  simpl in Hsel. unfold mask_index in Hsel. case_decide; [|discriminate].
  injection Hsel as <-. by exists x', m'.
Qed.

(** Token ids and labels stripped by the same mask stay aligned. *)
Lemma depad_aligned (ids labs : list (list Z)) mask ids' labs' i x l :
  depad ids mask = Ok ids' → depad labs mask = Ok labs' →
  ids' !! i = Some x → labs' !! i = Some l → length x = length l.
Proof.
  intros Hids Hlabs Hx Hl.
  destruct (depad_lookup _ _ _ _ _ Hids Hx) as (x0 & m & _ & Hm & Hlx & ->).
  destruct (depad_lookup _ _ _ _ _ Hlabs Hl) as (l0 & m' & _ & Hm' & Hll & ->).
  assert (m' = m) as -> by congruence.
  by apply length_select.
Qed.

(** *** The splice loop of one sample *)

Lemma splice_step_lengths feats n no_im labs_noim st i st' :
  Forall2 same_length no_im labs_noim →
  splice_step feats n no_im labs_noim st i = Ok st' →
  length (concat st.1.1) = length (concat st.1.2) →
  length (concat st'.1.1) = length (concat st'.1.2).
Proof.
  intros Hsame Hstep Hst. destruct st as [[es ls] idx]. simpl in *.
  ok_inv Hstep as e He. ok_inv Hstep as l Hl.
  apply index_Ok in He, Hl.
  pose proof (Forall2_lookup_lr _ _ _ _ _ _ Hsame He Hl) as Hlen.
  simpl in Hlen.
  case_decide.
  - ok_inv Hstep as f Hf. injection Hstep as <-. simpl.
    rewrite !concat_app, !length_app. simpl.
    rewrite !app_nil_r, length_replicate. lia.
  - injection Hstep as <-. simpl.
    rewrite !concat_app, !length_app. simpl. rewrite !app_nil_r. lia.
Qed.

Lemma splice_lengths feats n no_im labs_noim st xs st' :
  Forall2 same_length no_im labs_noim →
  foldM (splice_step feats n no_im labs_noim) st xs = Ok st' →
  length (concat st.1.1) = length (concat st.1.2) →
  length (concat st'.1.1) = length (concat st'.1.2).
Proof.
  intros Hsame Hrun Hst.
  eapply (foldM_invariant
            (λ s, length (concat s.1.1) = length (concat s.1.2)));
    [|exact Hst|exact Hrun].
  intros s x s' _ Hs Hstep. by eapply splice_step_lengths.
Qed.

(** The cursor moves once for every index below [n]. *)
Lemma splice_cursor feats n no_im labs_noim k a st st' :
  foldM (splice_step feats n no_im labs_noim) st (seq a k) = Ok st' →
  st'.2 = st.2 + (Nat.min (a + k) n - Nat.min a n).
Proof.
  revert a st. induction k as [|k IH]; intros a st Hrun; simpl in Hrun.
  - injection Hrun as <-. lia.
  - ok_inv Hrun as s1 Hs1. apply IH in Hrun. rewrite Hrun.
    destruct st as [[es ls] idx]. simpl in Hs1.
    ok_inv Hs1 as e He. ok_inv Hs1 as l Hl. case_decide.
    + ok_inv Hs1 as f Hf. injection Hs1 as <-. cbn [fst snd]. lia.
    + injection Hs1 as <-. cbn [fst snd]. lia.
Qed.

(** *** One sample *)

Lemma fuse_sample_lengths self feats labels idx bi ids r :
  fuse_sample self feats labels idx bi ids = Ok r →
  ∃ l, labels !! bi = Some l
       ∧ (length l = length ids → length r.1.1 = length r.1.2).
Proof.
  unfold fuse_sample. case_decide as Hn.
  - intros Hrun. ok_inv Hrun as f Hf. ok_inv Hrun as l Hl.
    injection Hrun as <-.
    apply index_Ok in Hl. exists l. split; [done|]. simpl.
    unfold get_input_embeddings.
    rewrite slice_empty, app_nil_r, length_map. done.
  - intros Hrun. ok_inv Hrun as l Hl. ok_inv Hrun as no_im Hsplit.
    ok_inv Hrun as st Hst.
    injection Hrun as <-. apply index_Ok in Hl.
    exists l. split; [done|]. intros _. simpl.
    apply split_Ok in Hsplit.
    eapply splice_lengths; [|exact Hst|done].
    by apply Forall2_same_length.
Qed.

(** The cursor after a sample: one block per sentinel, and one block all
    the same for a sample without sentinels. *)
Lemma fuse_sample_cursor self feats labels idx bi ids r :
  fuse_sample self feats labels idx bi ids = Ok r →
  r.2 = idx + Nat.max 1 (num_images ids).
Proof.
  unfold fuse_sample. case_decide as Hn.
  - intros Hrun. ok_inv Hrun as f Hf. ok_inv Hrun as l Hl.
    injection Hrun as <-. simpl. rewrite Hn. lia.
  - intros Hrun. ok_inv Hrun as l Hl. ok_inv Hrun as no_im Hsplit.
    ok_inv Hrun as st Hst.
    injection Hrun as <-. simpl.
    apply splice_cursor in Hst. rewrite Hst. simpl. lia.
Qed.

(** *** The batch loop *)

Lemma fuse_loop_aligned self feats labels xs st st' :
  (∀ j x l, (j, x) ∈ xs → labels !! j = Some l → length l = length x) →
  foldM (fuse_step self feats labels) st xs = Ok st' →
  Forall2 same_length st.1.1 st.1.2 → Forall2 same_length st'.1.1 st'.1.2.
Proof.
  intros Hal Hrun Hst.
  eapply (foldM_invariant (λ s, Forall2 same_length s.1.1 s.1.2));
    [|exact Hst|exact Hrun].
  intros s [j x] s' Hin Hs Hstep. unfold fuse_step in Hstep.
  ok_inv Hstep as r Hr. injection Hstep as <-. simpl in *.
  destruct (fuse_sample_lengths _ _ _ _ _ _ _ Hr) as (l & Hl & Hlen).
  apply Forall2_app; [done|]. constructor; [|constructor].
  apply Hlen. by eapply Hal.
Qed.

Lemma fuse_loop_length self feats labels xs st st' :
  foldM (fuse_step self feats labels) st xs = Ok st' →
  length st'.1.1 = length st.1.1 + length xs.
Proof.
  revert st. induction xs as [|x xs IH]; intros st Hrun; simpl in Hrun.
  - injection Hrun as <-. simpl. lia.
  - ok_inv Hrun as s1 Hs1. apply IH in Hrun. rewrite Hrun.
    unfold fuse_step in Hs1. ok_inv Hs1 as r Hr. injection Hs1 as <-.
    simpl. rewrite length_app. simpl. lia.
Qed.

(** The shared cursor after a run of samples. *)
Lemma fuse_loop_cursor self feats labels xs st st' :
  foldM (fuse_step self feats labels) st xs = Ok st' →
  st'.2 = st.2 + sum_list (map (λ it, Nat.max 1 (num_images it.2)) xs).
Proof.
  revert st. induction xs as [|x xs IH]; intros st Hrun; simpl in Hrun.
  - injection Hrun as <-. simpl. lia.
  - ok_inv Hrun as s1 Hs1. apply IH in Hrun. rewrite Hrun.
    unfold fuse_step in Hs1. ok_inv Hs1 as r Hr. injection Hs1 as <-.
    apply fuse_sample_cursor in Hr. simpl. rewrite Hr. lia.
Qed.

Lemma fuse_batch_aligned self feats ids labs st :
  (∀ j x l, ids !! j = Some x → labs !! j = Some l → length x = length l) →
  fuse_batch self feats ids labs = Ok st →
  Forall2 same_length st.1.1 st.1.2 ∧ length st.1.1 = length ids.
Proof.
  intros Hal Hrun. unfold fuse_batch in Hrun. split.
  - eapply fuse_loop_aligned; [|exact Hrun|constructor].
    intros j x l Hin%enumerate_elem Hl. symmetry. by eapply Hal.
  - apply fuse_loop_length in Hrun. rewrite Hrun. simpl.
    unfold enumerate. by rewrite length_enumerate_from.
Qed.

(** *** The length cap *)

Lemma truncate_aligned cap (E : list (list vec)) (L : list (list Z)) :
  Forall2 same_length E L →
  Forall2 same_length (truncate cap E) (truncate cap L).
Proof.
  intros Hal. destruct cap as [n|]; simpl; [|done].
  apply Forall2_fmap. eapply Forall2_impl; [exact Hal|].
  intros e l Hlen. simpl in *. rewrite !length_slice. by rewrite Hlen.
Qed.

Lemma length_truncate {A} cap (xs : list (list A)) :
  length (truncate cap xs) = length xs.
Proof. destruct cap; simpl; [apply length_map | done]. Qed.

(** *** The padding loop *)

Lemma zeros_nat m n :
  n ≤ m →
  zeros (Z.of_nat m - Z.of_nat n)
  = Ok (replicate (m - n) (replicate hidden_dim szero)).
Proof.
  intros Hn. unfold zeros. rewrite decide_True by lia.
  do 2 f_equal. lia.
Qed.

Lemma pad_row_right {A} side m (v : A) x :
  side ≠ "left" → pad_row side m v x = pad_row "right" m v x.
Proof. intros Hs. unfold pad_row. by rewrite decide_False. Qed.

Lemma pad_row_nil {A} side m (v : A) : pad_row side m v [] = replicate m v.
Proof.
  unfold pad_row. case_decide; simpl; rewrite Nat.sub_0_r;
    [apply app_nil_r | done].
Qed.

Lemma pad_step_run side m dE dL dM dP todo k e l :
  length dL = k → length dM = k → length dP = k →
  length e ≤ m → length l = length e →
  pad_step side m (pad_state m dE dL dM dP (S todo)) (k, (e, l))
  = Ok (pad_state m
          (dE ++ [pad_row side m (replicate hidden_dim szero) e])
          (dL ++ [pad_row side m IGNORE_INDEX l])
          (dM ++ [pad_row side m false (replicate (length e) true)])
          (dP ++ [pad_row side m 0%Z (arange (length e))])
          todo).
Proof.
  intros HL HM HP He Hl. unfold pad_step, pad_state. cbn [fst snd].
  rewrite zeros_nat by done. cbn [mbind Result_bind].
  cbn [new_input_embeds_padded new_labels_padded attention_mask_padded
       position_ids_padded].
  rewrite <- !(assoc_L (++)). cbn [replicate app].
  case_decide as Hside; [subst side|]; case_decide as Hpos.
  - rewrite <- Hl at 1.
    rewrite setitem_blank_left by lia. cbn [mbind Result_bind].
    rewrite fill_blank_left by lia. cbn [mbind Result_bind].
    rewrite <- (length_arange (length e)) at 1.
    rewrite setitem_blank_left by (rewrite ?length_arange; lia).
    cbn [mbind Result_bind]. done.
  - assert (length e = 0) as He0 by lia.
    destruct e; [|done]. destruct l; [|done].
    cbn [length arange seq map replicate].
    by rewrite !pad_row_nil, ?Nat.sub_0_r, ?app_nil_r.
  - rewrite <- Hl at 1.
    rewrite setitem_blank_right by lia. cbn [mbind Result_bind].
    rewrite fill_blank_right by lia. cbn [mbind Result_bind].
    rewrite <- (length_arange (length e)) at 1.
    rewrite setitem_blank_right by (rewrite ?length_arange; lia).
    cbn [mbind Result_bind].
    by rewrite !(pad_row_right side).
  - assert (length e = 0) as He0 by lia.
    destruct e; [|done]. destruct l; [|done].
    cbn [length arange seq map replicate].
    by rewrite !pad_row_nil, ?Nat.sub_0_r, ?app_nil_r.
Qed.

Lemma pad_loop_run side m items : ∀ k dE dL dM dP,
  length dL = k → length dM = k → length dP = k →
  Forall (λ it, length it.1 ≤ m ∧ length it.2 = length it.1) items →
  foldM (pad_step side m) (pad_state m dE dL dM dP (length items))
        (enumerate_from k items)
  = Ok (pad_state m
          (dE ++ map (λ it, pad_row side m (replicate hidden_dim szero) it.1) items)
          (dL ++ map (λ it, pad_row side m IGNORE_INDEX it.2) items)
          (dM ++ map (λ it, pad_row side m false (replicate (length it.1) true)) items)
          (dP ++ map (λ it, pad_row side m 0%Z (arange (length it.1))) items)
          0).
Proof.
  induction items as [|[e l] items IH]; intros k dE dL dM dP HL HM HP Hall.
  - simpl. by rewrite !app_nil_r.
  - apply Forall_cons in Hall as [[He Hl] Hall]. simpl in He, Hl.
    cbn [enumerate_from length foldM].
    rewrite pad_step_run by done. cbn [mbind Result_bind].
    rewrite IH; [|rewrite length_app; simpl; lia..|done].
    cbn [map fst snd]. by rewrite <- !(assoc_L (++)).
Qed.

Lemma pad_batch_run side (E : list (list vec)) (L : list (list Z)) m :
  Forall2 same_length E L → Py.max (map length E) = Ok m →
  pad_batch side E L = Ok (m, padded_batch side m E L).
Proof.
  intros Hal Hmax. unfold pad_batch. rewrite Hmax. cbn [mbind Result_bind].
  pose proof (Forall2_length _ _ _ Hal) as Hlen.
  pose proof (pad_loop_run side m (zip E L) 0 [] [] [] []) as Hrun.
  unfold pad_state in Hrun. cbn [app] in Hrun.
  rewrite length_zip_with, <- Hlen, Nat.min_id in Hrun.
  unfold enumerate, full. rewrite Hrun; [|done..|].
  - cbn [mbind Result_bind]. do 2 f_equal. unfold padded_batch.
    rewrite !app_nil_r.
    assert (map fst (zip E L) = E) as HE by (apply fst_zip; lia).
    assert (map snd (zip E L) = L) as HL by (apply snd_zip; lia).
    f_equal.
    + rewrite <- HE at 2. by rewrite <- list_fmap_compose.
    + rewrite <- HL at 2. by rewrite <- list_fmap_compose.
    + rewrite <- HE at 2. by rewrite <- list_fmap_compose.
    + rewrite <- HE at 2. by rewrite <- list_fmap_compose.
  - apply max_Ok in Hmax. rewrite Forall_fmap in Hmax.
    apply Forall_forall. intros [e l] Hin.
    apply list_elem_of_lookup in Hin as [i Hi].
    apply lookup_zip_with_Some in Hi as (e' & l' & [= -> ->] & He & Hl).
    simpl. split.
    + eapply (Forall_lookup_1 _ _ _ _ Hmax He).
    + symmetry. apply (Forall2_lookup_lr _ _ _ _ _ _ Hal He Hl).
Qed.

(** *** The stages of the fusion path *)

(** A successful run of the fusion path went through every stage, and the
    record holds what each stage produced. *)
Lemma fuse_stages self input_ids attention_mask labels images fu :
  fuse self input_ids attention_mask labels images = Ok fu →
  let mask := default_attention_mask input_ids attention_mask in
  let labs := default_labels input_ids labels in
  let cap := tokenizer_model_max_length (config self) in
  ∃ image_features,
    encode_images self images = Ok image_features
    ∧ tune_mm_mlp_adapter (config self) = false
    ∧ depad (rows input_ids) (rows mask) = Ok (depadded_input_ids fu)
    ∧ depad (rows labs) (rows mask) = Ok (depadded_labels fu)
    ∧ fuse_batch self image_features (depadded_input_ids fu) (depadded_labels fu)
      = Ok (spliced_embeds fu, spliced_labels fu, final_image_idx fu)
    ∧ new_input_embeds fu = truncate cap (spliced_embeds fu)
    ∧ new_labels fu = truncate cap (spliced_labels fu)
    ∧ pad_batch (tokenizer_padding_side (config self))
                (new_input_embeds fu) (new_labels fu)
      = Ok (max_len fu, padded fu).
Proof.
  intros Hrun. unfold fuse in Hrun. ok_inv Hrun as feats Hfeats.
  destruct (tune_mm_mlp_adapter (config self)) eqn:Htune; [discriminate|].
  ok_inv Hrun as ids Hids. ok_inv Hrun as labs Hlabs.
  ok_inv Hrun as st Hst. ok_inv Hrun as p Hp. injection Hrun as <-.
  destruct st as [[E L] idx], p as [m P]. simpl in *.
  exists feats. by repeat split.
Qed.

(** The samples entering the padding stage are aligned, and the padded
    batch is their row-by-row padding to the batch maximum. *)
Lemma fuse_padded self input_ids attention_mask labels images fu :
  fuse self input_ids attention_mask labels images = Ok fu →
  Forall2 same_length (spliced_embeds fu) (spliced_labels fu)
  ∧ Forall2 same_length (new_input_embeds fu) (new_labels fu)
  ∧ length (new_input_embeds fu) = length (depadded_input_ids fu)
  ∧ Py.max (map length (new_input_embeds fu)) = Ok (max_len fu)
  ∧ padded fu
    = padded_batch (tokenizer_padding_side (config self)) (max_len fu)
                   (new_input_embeds fu) (new_labels fu).
Proof.
  intros Hrun.
  destruct (fuse_stages _ _ _ _ _ _ Hrun)
    as (feats & _ & _ & Hids & Hlabs & Hbatch & HE & HL & Hpad).
  destruct (fuse_batch_aligned _ _ _ _ _
              (λ j x l, depad_aligned _ _ _ _ _ j x l Hids Hlabs) Hbatch)
    as [Hal Hlen].
  simpl in Hal, Hlen.
  assert (Forall2 same_length (new_input_embeds fu) (new_labels fu)) as Hal'.
  { rewrite HE, HL. by apply truncate_aligned. }
  split; [done|]. split; [done|].
  split; [by rewrite HE, length_truncate|].
  pose proof Hpad as Hpad0. unfold pad_batch in Hpad0.
  ok_inv Hpad0 as m Hm.
  rewrite (pad_batch_run _ _ _ m Hal' Hm) in Hpad.
  injection Hpad as <- <-. done.
Qed.

(** *** Reading a padded row *)

Lemma pad_row_right_take {A} side m (v : A) x :
  side ≠ "left" → take (length x) (pad_row side m v x) = x.
Proof.
  intros Hs. rewrite pad_row_right by done. unfold pad_row. simpl.
  by rewrite take_app_length.
Qed.

Lemma pad_row_right_fill {A} side m (v : A) x j :
  side ≠ "left" → length x ≤ j < m → pad_row side m v x !! j = Some v.
Proof.
  intros Hs Hj. rewrite pad_row_right by done. unfold pad_row. simpl.
  rewrite lookup_app_r by lia. apply lookup_replicate_2. lia.
Qed.

Lemma pad_row_right_lookup {A} side m (v : A) x j :
  side ≠ "left" → j < length x → pad_row side m v x !! j = x !! j.
Proof.
  intros Hs Hj. rewrite pad_row_right by done. unfold pad_row. simpl.
  by rewrite lookup_app_l.
Qed.

Lemma pad_row_left_drop {A} m (v : A) x :
  drop (m - length x) (pad_row "left" m v x) = x.
Proof.
  unfold pad_row. simpl.
  rewrite drop_app_length'; [done | by rewrite length_replicate].
Qed.

Lemma pad_row_left_fill {A} m (v : A) x j :
  j < m - length x → pad_row "left" m v x !! j = Some v.
Proof.
  intros Hj. unfold pad_row. simpl.
  rewrite lookup_app_l by (rewrite length_replicate; lia).
  by apply lookup_replicate_2.
Qed.

Lemma pad_row_left_lookup {A} m (v : A) x j :
  pad_row "left" m v x !! (m - length x + j) = x !! j.
Proof.
  unfold pad_row. simpl.
  rewrite lookup_app_r by (rewrite length_replicate; lia).
  rewrite length_replicate. f_equal. lia.
Qed.

(** The rows of a sample in the padded batch. *)
Lemma fuse_padded_rows self input_ids attention_mask labels images fu i e l :
  fuse self input_ids attention_mask labels images = Ok fu →
  new_input_embeds fu !! i = Some e → new_labels fu !! i = Some l →
  let side := tokenizer_padding_side (config self) in
  let m := max_len fu in
  length e = length l ∧ length e ≤ m
  ∧ new_input_embeds_padded (padded fu) !! i
    = Some (pad_row side m (replicate hidden_dim szero) e)
  ∧ new_labels_padded (padded fu) !! i = Some (pad_row side m IGNORE_INDEX l)
  ∧ attention_mask_padded (padded fu) !! i
    = Some (pad_row side m false (replicate (length e) true))
  ∧ position_ids_padded (padded fu) !! i
    = Some (pad_row side m 0%Z (arange (length e))).
Proof.
  intros Hrun He Hl side m.
  destruct (fuse_padded _ _ _ _ _ _ Hrun) as (_ & Hal & _ & Hmax & ->).
  split; [exact (Forall2_lookup_lr _ _ _ _ _ _ Hal He Hl)|].
  split.
  { apply max_Ok in Hmax. rewrite Forall_fmap in Hmax.
    exact (Forall_lookup_1 _ _ _ _ Hmax He). }
  unfold padded_batch. simpl. rewrite !list_lookup_fmap, He, Hl. done.
Qed.

(** *** The two ways out of [prepare_inputs_labels_for_multimodal] *)

Lemma prepare_inv self input_ids position_ids attention_mask past_key_values
    labels images out :
  prepare_inputs_labels_for_multimodal self input_ids position_ids
    attention_mask past_key_values labels images = Ok out →
  ((vision_tower self = None ∨ images = None ∨ shape1 input_ids = 1)
   ∧ out = passthrough input_ids position_ids attention_mask past_key_values labels)
  ∨ (∃ vt imgs fu,
       vision_tower self = Some vt ∧ images = Some imgs
       ∧ shape1 input_ids ≠ 1
       ∧ fuse self input_ids attention_mask labels imgs = Ok fu
       ∧ out = fused_output position_ids attention_mask past_key_values labels fu).
Proof.
  unfold prepare_inputs_labels_for_multimodal.
  destruct (vision_tower self) as [vt|] eqn:Hvt;
    [|intros [= <-]; left; split; [by left|done]].
  destruct images as [imgs|];
    [|intros [= <-]; left; split; [right; by left|done]].
  case_decide as Hshape; [intros [= <-]; left; split; [by do 2 right|done]|].
  intros Hrun. ok_inv Hrun as fu Hfu. injection Hrun as <-.
  right. exists vt, imgs, fu. do 4 (split; [done|]).
  unfold fused_output. by destruct position_ids, attention_mask, labels.
Qed.

Lemma prepare_returns_fused self input_ids position_ids attention_mask
    past_key_values labels imgs fu out :
  fuse self input_ids attention_mask labels imgs = Ok fu →
  prepare_inputs_labels_for_multimodal self input_ids position_ids
    attention_mask past_key_values labels (Some imgs) = Ok out →
  out_input_ids out = None →
  out = fused_output position_ids attention_mask past_key_values labels fu.
Proof.
  intros Hfu Hout Hnone.
  apply prepare_inv in Hout
    as [[_ ->]|(vt & imgs' & fu' & _ & [= <-] & _ & Hfu' & ->)];
    [discriminate|].
  rewrite Hfu in Hfu'. by injection Hfu' as <-.
Qed.

(** *** The fusion path returns *)

Lemma length_where_image pos ids :
  length (where_image pos ids) = num_images ids.
Proof.
  unfold num_images. revert pos.
  induction ids as [|t ids IH]; intros pos; simpl; [done|].
  destruct (t =? IMAGE_TOKEN_INDEX)%Z; simpl; by rewrite IH.
Qed.

Lemma length_segments {A} (x : list A) idx :
  length (segments x idx) = length idx - 1.
Proof.
  induction idx as [|a [|b idx] IH]; simpl in *; [done..|].
  rewrite IH. lia.
Qed.

Lemma segments_lengths {A B} (x : list A) (y : list B) idx :
  length x = length y →
  map length (segments x idx) = map length (segments y idx).
Proof.
  intros Hlen. induction idx as [|a [|b idx] IH]; simpl in *; [done..|].
  f_equal; [|exact IH]. rewrite !length_slice. by rewrite Hlen.
Qed.

Lemma sum_list_lengths {A} (xs : list (list A)) :
  sum_list (map length xs) = length (concat xs).
Proof.
  induction xs as [|x xs IH]; simpl; [done|]. rewrite length_app. lia.
Qed.

Lemma length_chunks_list {A} (x : list A) sizes :
  length (chunks x sizes) = length sizes.
Proof. revert x. induction sizes as [|n sizes IH]; intros x; simpl; auto. Qed.

Lemma index_total {A} (l : list A) i : i < length l → ∃ x, Py.index l i = Ok x.
Proof.
  intros Hi. destruct (lookup_lt_is_Some_2 l i Hi) as [x Hx].
  exists x. by apply index_Ok.
Qed.

Lemma splice_step_total feats n no_im labs_noim st i :
  i < length no_im → i < length labs_noim →
  (i < n → st.2 < length feats) →
  ∃ st', splice_step feats n no_im labs_noim st i = Ok st'
         ∧ st'.2 = st.2 + (if decide (i < n) then 1 else 0).
Proof.
  intros Hno Hlabs Hfeats. destruct st as [[es ls] idx]. simpl in Hfeats.
  unfold splice_step.
  destruct (index_total no_im i Hno) as [e ->].
  destruct (index_total labs_noim i Hlabs) as [l ->].
  cbn [mbind Result_bind]. case_decide as Hi.
  - destruct (index_total feats idx (Hfeats Hi)) as [f ->].
    cbn [mbind Result_bind]. eexists. split; [done|]. simpl. lia.
  - eexists. split; [done|]. simpl. lia.
Qed.

Lemma splice_total feats n no_im labs_noim k : ∀ a st,
  a + k ≤ length no_im → a + k ≤ length labs_noim →
  st.2 + (Nat.min (a + k) n - Nat.min a n) ≤ length feats →
  ∃ st', foldM (splice_step feats n no_im labs_noim) st (seq a k) = Ok st'.
Proof.
  induction k as [|k IH]; intros a st Hno Hlabs Hfeats; [by eexists|].
  cbn [seq]. rewrite foldM_cons.
  destruct (splice_step_total feats n no_im labs_noim st a)
    as (st1 & -> & Hcur); [lia..|].
  cbn [mbind Result_bind]. apply IH; [lia..|].
  rewrite Hcur. case_decide; lia.
Qed.

Lemma fuse_sample_total self feats labels idx bi ids l :
  labels !! bi = Some l → length l = length ids →
  idx + Nat.max 1 (num_images ids) ≤ length feats →
  ∃ r, fuse_sample self feats labels idx bi ids = Ok r.
Proof.
  intros Hl Hlen Hfeats. apply index_Ok in Hl. unfold fuse_sample.
  case_decide as Hn.
  - destruct (index_total feats idx) as [f ->]; [lia|].
    cbn [mbind Result_bind]. rewrite Hl. cbn [mbind Result_bind].
    by eexists.
  - rewrite Hl. cbn [mbind Result_bind]. unfold Torch.split.
    assert (map length (segments l (image_token_indices ids))
            = map length (segments ids (image_token_indices ids))) as Hseg
      by by apply segments_lengths.
    rewrite decide_True; last first.
    { unfold get_input_embeddings.
      by rewrite length_map, Hseg, sum_list_lengths. }
    cbn [mbind Result_bind].
    assert (length (image_token_indices ids) = num_images ids + 2) as Hidx.
    { unfold image_token_indices. simpl.
      rewrite length_app, length_where_image. simpl. lia. }
    destruct (splice_total feats (num_images ids)
                (chunks (get_input_embeddings self
                           (concat (segments ids (image_token_indices ids))))
                        (map length (segments l (image_token_indices ids))))
                (segments l (image_token_indices ids))
                (num_images ids + 1) 0 ([], [], idx)) as [st Hst].
    + rewrite length_chunks_list, length_map, length_segments. lia.
    + rewrite length_segments. lia.
    + simpl. lia.
    + rewrite Hst. cbn [mbind Result_bind]. by eexists.
Qed.

Lemma fuse_loop_total self feats labels xs : ∀ st,
  (∀ j x, (j, x) ∈ xs → ∃ l, labels !! j = Some l ∧ length l = length x) →
  st.2 + sum_list (map (λ it, Nat.max 1 (num_images it.2)) xs) ≤ length feats →
  ∃ st', foldM (fuse_step self feats labels) st xs = Ok st'.
Proof.
  induction xs as [|[j x] xs IH]; intros st Hlabs Hfeats; [by eexists|].
  simpl in Hfeats. rewrite foldM_cons.
  destruct (Hlabs j x) as (l & Hl & Hlen); [by left|].
  destruct (fuse_sample_total self feats labels st.2 j x l Hl Hlen) as [r Hr];
    [lia|].
  assert (fuse_step self feats labels st (j, x)
          = Ok (st.1.1 ++ [r.1.1], st.1.2 ++ [r.1.2], r.2)) as ->.
  { unfold fuse_step. cbn [fst snd]. by rewrite Hr. }
  cbn [mbind Result_bind]. apply IH.
  - intros j' x' Hin. apply Hlabs. by right.
  - apply fuse_sample_cursor in Hr. simpl. lia.
Qed.

Lemma enumerate_from_map {X} (f : X → nat) (xs : list X) k :
  map (λ it, f it.2) (enumerate_from k xs) = map f xs.
Proof. revert k. induction xs as [|x xs IH]; intros k; simpl; by rewrite ?IH. Qed.


(** *** The claims about fusion *)

(** C1. Length invariant: for every sample the fusion path processes, the
    fused embedding sequence and the fused label sequence have the same
    length, as spliced, after the length cap (the samples the padding
    stage receives) and after padding, where both are [max_len] long; the
    padded batch has one row per depadded sample, and its embeddings and
    labels are what a call that ran the fusion path returns. *)
Theorem fusion_length_invariant self input_ids attention_mask labels images fu :
  fuse self input_ids attention_mask labels images = Ok fu →
  Forall2 (λ e l, length e = length l) (spliced_embeds fu) (spliced_labels fu)
  ∧ Forall2 (λ e l, length e = length l) (new_input_embeds fu) (new_labels fu)
  ∧ Forall2 (λ e l, length e = max_len fu ∧ length l = max_len fu)
            (new_input_embeds_padded (padded fu))
            (new_labels_padded (padded fu))
  ∧ length (new_input_embeds_padded (padded fu))
    = length (depadded_input_ids fu)
  ∧ (∀ position_ids past_key_values out,
       prepare_inputs_labels_for_multimodal self input_ids position_ids
         attention_mask past_key_values labels (Some images) = Ok out →
       out_input_ids out = None →
       out_inputs_embeds out = Some (new_input_embeds_padded (padded fu))
       ∧ out_labels out
         = (λ _, mkTensor2 (max_len fu) (new_labels_padded (padded fu)))
             <$> labels).
Proof.
  intros Hrun.
  destruct (fuse_padded _ _ _ _ _ _ Hrun) as (Hsp & Hal & Hlen & Hmax & Hpad).
  split; [done|]. split; [done|].
  pose proof (Forall2_length _ _ _ Hal) as HEL.
  split; [|split].
  - rewrite Hpad. unfold padded_batch. simpl.
    apply Forall2_same_length_lookup. split; [by rewrite !length_map|].
    intros i pe pl Hpe Hpl.
    apply list_lookup_fmap_Some in Hpe as (e & -> & He).
    apply list_lookup_fmap_Some in Hpl as (l & -> & Hl).
    destruct (fuse_padded_rows _ _ _ _ _ _ i e l Hrun He Hl)
      as (Hel & Hle & _).
    rewrite !length_pad_row; [done|lia|done].
  - rewrite Hpad. unfold padded_batch. simpl. by rewrite length_map.
  - intros position_ids past_key_values out Hout Hnone.
    by rewrite (prepare_returns_fused _ _ _ _ _ _ _ _ _ Hrun Hout Hnone).
Qed.

(** C2. Padding correctness: in the padded batch, the row of a sample of
    fused length [cur_len] carries the unpadded sample in its first
    [cur_len] positions under right-padding and in its last [cur_len]
    positions under left-padding; every other position holds the zero
    embedding vector, the ignore label and a false mask entry, and the
    mask is true on the sample's own positions. *)
Theorem padding_correctness self input_ids attention_mask labels images fu i e l :
  fuse self input_ids attention_mask labels images = Ok fu →
  new_input_embeds fu !! i = Some e →
  new_labels fu !! i = Some l →
  let side := tokenizer_padding_side (config self) in
  let cur_len := length e in
  let m := max_len fu in
  ∃ pe pl pm,
    new_input_embeds_padded (padded fu) !! i = Some pe
    ∧ new_labels_padded (padded fu) !! i = Some pl
    ∧ attention_mask_padded (padded fu) !! i = Some pm
    ∧ length pe = m ∧ length pl = m ∧ length pm = m ∧ cur_len ≤ m
    ∧ (side ≠ "left" →
       take cur_len pe = e ∧ take cur_len pl = l
       ∧ (∀ j, j < cur_len → pm !! j = Some true)
       ∧ (∀ j, cur_len ≤ j < m →
            pe !! j = Some (replicate hidden_dim szero)
            ∧ pl !! j = Some IGNORE_INDEX
            ∧ pm !! j = Some false))
    ∧ (side = "left" →
       drop (m - cur_len) pe = e ∧ drop (m - cur_len) pl = l
       ∧ (∀ j, j < cur_len → pm !! (m - cur_len + j) = Some true)
       ∧ (∀ j, j < m - cur_len →
            pe !! j = Some (replicate hidden_dim szero)
            ∧ pl !! j = Some IGNORE_INDEX
            ∧ pm !! j = Some false)).
Proof.
  intros Hrun He Hl side cur_len m. subst side cur_len m.
  destruct (fuse_padded_rows _ _ _ _ _ _ i e l Hrun He Hl)
    as (Hel & Hle & HpE & HpL & HpM & _).
  eexists _, _, _. split; [exact HpE|]. split; [exact HpL|].
  split; [exact HpM|].
  assert (length (replicate (length e) true) = length e) as Hrep
    by apply length_replicate.
  split; [by apply length_pad_row|].
  split; [apply length_pad_row; lia|].
  split; [apply length_pad_row; lia|].
  split; [done|]. split.
  - intros Hside. split; [by apply pad_row_right_take|].
    split; [rewrite Hel; by apply pad_row_right_take|].
    split.
    + intros j Hj. rewrite pad_row_right_lookup by (rewrite ?Hrep; done).
      by apply lookup_replicate_2.
    + intros j Hj. split; [by apply pad_row_right_fill|].
      split; apply pad_row_right_fill; rewrite ?Hrep; try done. lia.
  - intros Hside. rewrite Hside.
    split; [apply pad_row_left_drop|].
    split; [rewrite Hel; apply pad_row_left_drop|].
    split.
    + intros j Hj. rewrite <- Hrep at 1. rewrite pad_row_left_lookup.
      by apply lookup_replicate_2.
    + intros j Hj. split; [by apply pad_row_left_fill|].
      split; apply pad_row_left_fill; rewrite ?Hrep; try done. lia.
Qed.

(** C3. Position-id restart: in the padded batch, the position ids of a
    sample read 0, 1, ..., [cur_len - 1] over its own positions (those
    where its mask is true), which start at offset 0 under right-padding
    and at [max_len - cur_len] under left-padding; and this tensor is the
    one returned to a caller that passed position ids. *)
Theorem position_ids_restart self input_ids attention_mask labels images fu i e :
  fuse self input_ids attention_mask labels images = Ok fu →
  new_input_embeds fu !! i = Some e →
  let cur_len := length e in
  let offset :=
    if decide (tokenizer_padding_side (config self) = "left")
    then max_len fu - cur_len else 0 in
  (∃ pp pm,
     position_ids_padded (padded fu) !! i = Some pp
     ∧ attention_mask_padded (padded fu) !! i = Some pm
     ∧ length pp = max_len fu
     ∧ ∀ j, j < cur_len →
         pp !! (offset + j) = Some (Z.of_nat j)
         ∧ pm !! (offset + j) = Some true)
  ∧ (∀ position_ids past_key_values out,
       prepare_inputs_labels_for_multimodal self input_ids (Some position_ids)
         attention_mask past_key_values labels (Some images) = Ok out →
       out_input_ids out = None →
       out_position_ids out
       = Some (mkTensor2 (max_len fu) (position_ids_padded (padded fu)))).
Proof.
  intros Hrun He cur_len offset. subst cur_len offset. split.
  - destruct (fuse_padded _ _ _ _ _ _ Hrun) as (_ & Hal & _ & _ & _).
    destruct (Forall2_lookup_l _ _ _ _ _ Hal He) as (l & Hl & _).
    destruct (fuse_padded_rows _ _ _ _ _ _ i e l Hrun He Hl)
      as (Hel & Hle & _ & _ & HpM & HpP).
    eexists _, _. split; [exact HpP|]. split; [exact HpM|].
    assert (length (replicate (length e) true) = length e) as Hrep
      by apply length_replicate.
    pose proof (length_arange (length e)) as Har.
    split; [apply length_pad_row; lia|].
    intros j Hj. case_decide as Hside.
    + rewrite Hside. rewrite <- Har at 1. rewrite <- Hrep at 3.
      rewrite !pad_row_left_lookup.
      split; [by apply arange_lookup | by apply lookup_replicate_2].
    + rewrite !pad_row_right_lookup by (rewrite ?Har, ?Hrep; done).
      split; [by apply arange_lookup | by apply lookup_replicate_2].
  - intros position_ids past_key_values out Hout Hnone.
    by rewrite (prepare_returns_fused _ _ _ _ _ _ _ _ _ Hrun Hout Hnone).
Qed.

(** C4, as amended. Sentinel conservation: fusing one sample moves the
    shared image-block cursor by the number of sentinel tokens of the
    depadded sample when it has at least one, and by exactly one when it
    has none (a block is drawn, and none of its rows is spliced in). *)
Theorem sentinel_conservation self image_features labels cur_image_idx
    batch_idx cur_input_ids r :
  fuse_sample self image_features labels cur_image_idx batch_idx cur_input_ids
  = Ok r →
  let consumed := r.2 - cur_image_idx in
  cur_image_idx ≤ r.2
  ∧ (0 < num_images cur_input_ids → consumed = num_images cur_input_ids)
  ∧ (num_images cur_input_ids = 0 →
     consumed = 1 ∧ r.1.1 = get_input_embeddings self cur_input_ids).
Proof.
  intros Hrun consumed. pose proof (fuse_sample_cursor _ _ _ _ _ _ _ Hrun) as Hc.
  unfold consumed. split; [lia|]. split; [lia|].
  intros Hzero. split; [lia|].
  unfold fuse_sample in Hrun. rewrite decide_True in Hrun by done.
  ok_inv Hrun as f Hf. ok_inv Hrun as l Hl. injection Hrun as <-.
  simpl. by rewrite slice_empty, app_nil_r.
Qed.

Lemma raw_length_one {A} (t : Tensor2 A) :
  wf t → rows t ≠ [] →
  Forall (λ r, length r = 1) (rows t) → shape1 t = 1.
Proof.
  unfold wf. destruct (rows t) as [|r rs]; [done|].
  intros [Hr _]%Forall_cons _ [Hone _]%Forall_cons. congruence.
Qed.

(** C5. Short-circuit: without a vision encoder, without images, or with a
    batch whose raw token length is 1 (the second dimension of
    [input_ids], that is the length of every sample of a well-formed batch
    that is not empty), the inputs are returned as they came and the
    embeddings slot is left unset. *)
Theorem passthrough_without_fusion self input_ids position_ids attention_mask
    past_key_values labels images :
  vision_tower self = None ∨ images = None ∨ shape1 input_ids = 1
  ∨ (wf input_ids ∧ rows input_ids ≠ []
     ∧ Forall (λ r, length r = 1) (rows input_ids)) →
  prepare_inputs_labels_for_multimodal self input_ids position_ids
    attention_mask past_key_values labels images
  = Ok (mkPrepared (Some input_ids) position_ids attention_mask
                   past_key_values None labels).
Proof.
  intros Hcase. unfold prepare_inputs_labels_for_multimodal.
  destruct (vision_tower self) as [vt|]; [|done].
  destruct images as [imgs|]; [|done].
  assert (shape1 input_ids = 1) as Hone.
  { destruct Hcase as [?|[?|[?|(Hwf & Hne & Hrows)]]]; [done..|].
    by apply raw_length_one. }
  by rewrite decide_True.
Qed.

(** C6. Absence propagation: whatever path a returning call takes, an
    attention mask, labels or position ids the caller left out are left
    out of the result; and when the fusion path ran, it did depad the
    token ids and the labels with the mask and the labels it had made up
    for the absent ones. *)
Theorem absence_propagation self input_ids position_ids attention_mask
    past_key_values labels images out :
  prepare_inputs_labels_for_multimodal self input_ids position_ids
    attention_mask past_key_values labels images = Ok out →
  (attention_mask = None → out_attention_mask out = None)
  ∧ (labels = None → out_labels out = None)
  ∧ (position_ids = None → out_position_ids out = None)
  ∧ (out_input_ids out = None →
     ∃ imgs fu,
       images = Some imgs
       ∧ fuse self input_ids attention_mask labels imgs = Ok fu
       ∧ depad (rows input_ids)
               (rows (default_attention_mask input_ids attention_mask))
         = Ok (depadded_input_ids fu)
       ∧ depad (rows (default_labels input_ids labels))
               (rows (default_attention_mask input_ids attention_mask))
         = Ok (depadded_labels fu)).
Proof.
  intros Hout.
  apply prepare_inv in Hout
    as [[_ ->]|(vt & imgs & fu & _ & -> & _ & Hfu & ->)]; simpl.
  - by repeat split.
  - split; [by intros ->|]. split; [by intros ->|]. split; [by intros ->|].
    intros _. exists imgs, fu. split; [done|]. split; [done|].
    destruct (fuse_stages _ _ _ _ _ _ Hfu) as (_ & _ & _ & Hids & Hlabs & _).
    by split.
Qed.

(** C10. Whenever the fusion path runs (a vision encoder, images, and a
    token length other than 1) and returns, the token-id slot of the tuple
    is [None] and the embeddings slot is set; and no returning call gets
    both token ids and embeddings. *)
Theorem fusion_returns_no_token_ids self input_ids position_ids attention_mask
    past_key_values labels images out :
  prepare_inputs_labels_for_multimodal self input_ids position_ids
    attention_mask past_key_values labels images = Ok out →
  (vision_tower self ≠ None → images ≠ None → shape1 input_ids ≠ 1 →
   out_input_ids out = None ∧ is_Some (out_inputs_embeds out))
  ∧ (out_input_ids out = None ↔ is_Some (out_inputs_embeds out)).
Proof.
  intros Hout.
  apply prepare_inv in Hout
    as [[Hcase ->]|(vt & imgs & fu & _ & -> & _ & Hfu & ->)]; simpl.
  - split.
    + intros Hvt Himg Hshape. by destruct Hcase as [?|[?|?]].
    + split; [discriminate | by intros [? ?]].
  - split; [by intros _ _ _|]. done.
Qed.

(** *** Further properties of the fusion path *)


(** X2. The cursor at the end of a fusion call: the blocks drawn by all the
    samples, which the encoded image batch had to supply. *)
Theorem fusion_cursor_total self input_ids attention_mask labels images fu :
  fuse self input_ids attention_mask labels images = Ok fu →
  final_image_idx fu
  = sum_list (map (λ x, Nat.max 1 (num_images x)) (depadded_input_ids fu)).
Proof.
  intros Hrun.
  destruct (fuse_stages _ _ _ _ _ _ Hrun)
    as (feats & _ & _ & _ & _ & Hbatch & _).
  unfold fuse_batch in Hbatch. apply fuse_loop_cursor in Hbatch.
  simpl in Hbatch. rewrite Hbatch. unfold enumerate.
  by rewrite (enumerate_from_map (λ x, Nat.max 1 (num_images x))).
Qed.

End FusionProperties.

(** ** Checkpoint loading *)

(** *** Running the printing monad *)

Lemma eff_bind_run {A B} (m : Eff A) (f : A → Eff B) out :
  (m ≫= f) out
  = match m out with
    | (out', Ok a) => f a out'
    | (out', Raise e) => (out', Raise e)
    end.
Proof. reflexivity. Qed.

Lemma eff_ret_run {A} (a : A) out : (mret a : Eff A) out = (out, Ok a).
Proof. reflexivity. Qed.

Lemma print_run line out : print line out = (out ++ [line], Ok tt).
Proof. reflexivity. Qed.

Lemma lift_run {A} (r : Result A) out : lift r out = (out, r).
Proof. reflexivity. Qed.

Lemma raise_run {A} e out : raise (A:=A) e out = (out, Raise e).
Proof. reflexivity. Qed.

(** Run the steps of a loader whose next step is known. *)
Ltac eff_run :=
  repeat (first [ rewrite eff_bind_run | rewrite print_run | rewrite lift_run
                | rewrite eff_ret_run | rewrite raise_run ];
          cbn beta iota).

(** *** Dictionaries *)

Lemma dict_get_set_eq {V} (d : list (string * V)) k v :
  Py.dict_get (Py.dict_set d k v) k = Some v.
Proof.
  induction d as [|[k' v'] d IH]; simpl.
  - by rewrite String.eqb_refl.
  - destruct (String.eqb k' k) eqn:Hk; simpl; rewrite Hk; [done | exact IH].
Qed.

Lemma dict_get_set_ne {V} (d : list (string * V)) k k' v :
  k ≠ k' → Py.dict_get (Py.dict_set d k v) k' = Py.dict_get d k'.
Proof.
  intros Hne. induction d as [|[k0 v0] d IH]; simpl.
  - destruct (String.eqb_spec k k'); [done | done].
  - destruct (String.eqb_spec k0 k) as [->|Hk0]; simpl.
    + destruct (String.eqb_spec k k'); [done | done].
    + destruct (String.eqb_spec k0 k'); [done | exact IH].
Qed.

Lemma dict_set_keys {V} (d : list (string * V)) k v k' :
  k' ∈ map fst (Py.dict_set d k v) → k' = k ∨ k' ∈ map fst d.
Proof.
  induction d as [|[k0 v0] d IH]; simpl.
  - intros [->|Hin%elem_of_nil]%elem_of_cons; [by left | done].
  - destruct (String.eqb_spec k0 k) as [->|Hne]; simpl.
    + intros [->|Hin]%elem_of_cons; [by left|]. right. by right.
    + intros [->|Hin]%elem_of_cons; [right; by left|].
      destruct (IH Hin) as [->|Hd]; [by left|]. right. by right.
Qed.

(** *** Grouping the manifest by shard file *)

Lemma flat_groups_cons g G :
  flat_groups (g :: G) = map (λ t, (t, g.1)) g.2 ++ flat_groups G.
Proof. reflexivity. Qed.

Lemma flat_groups_names g G :
  map fst (flat_groups (g :: G)) = g.2 ++ map fst (flat_groups G).
Proof.
  rewrite flat_groups_cons, map_app. f_equal.
  rewrite map_map. simpl. apply map_id.
Qed.

Lemma flat_dict_set_new G f :
  Py.dict_get G f = None → flat_groups (Py.dict_set G f []) = flat_groups G.
Proof.
  induction G as [|[k names] G IH]; simpl; [done|].
  destruct (String.eqb_spec k f) as [->|Hne]; [discriminate|].
  intros Hget. rewrite !flat_groups_cons. simpl. by rewrite IH.
Qed.

Lemma flat_dict_set_append G f names t :
  Py.dict_get G f = Some names →
  flat_groups (Py.dict_set G f (names ++ [t])) ≡ₚ (t, f) :: flat_groups G.
Proof.
  induction G as [|[k names'] G IH]; simpl; [discriminate|].
  destruct (String.eqb_spec k f) as [->|Hne].
  - intros [= ->]. rewrite !flat_groups_cons. simpl.
    rewrite map_app. simpl. rewrite <- (assoc_L (++)). simpl.
    by rewrite <- Permutation_middle.
  - intros Hget. rewrite !flat_groups_cons. simpl.
    rewrite (IH Hget). by rewrite <- Permutation_middle.
Qed.

Lemma group_step_flat G t f :
  flat_groups (group_step G (t, f)) ≡ₚ (t, f) :: flat_groups G.
Proof.
  unfold group_step, Py.dict_contains. simpl.
  destruct (Py.dict_get G f) as [names|] eqn:Hget.
  - rewrite Hget. simpl. by apply flat_dict_set_append.
  - rewrite dict_get_set_eq. simpl.
    rewrite (flat_dict_set_append _ f [] t) by apply dict_get_set_eq.
    by rewrite flat_dict_set_new.
Qed.

Lemma group_loop_flat wm : ∀ G,
  flat_groups (foldl group_step G wm) ≡ₚ flat_groups G ++ wm.
Proof.
  induction wm as [|[t f] wm IH]; intros G; simpl.
  - by rewrite app_nil_r.
  - rewrite IH, group_step_flat. by rewrite <- Permutation_middle.
Qed.

(** The grouping holds exactly the pairs of the manifest. *)
Lemma group_by_file_flat wm : flat_groups (group_by_file wm) ≡ₚ wm.
Proof. unfold group_by_file. by rewrite group_loop_flat. Qed.

Lemma group_step_keys G t f k :
  k ∈ map fst (group_step G (t, f)) → k = f ∨ k ∈ map fst G.
Proof.
  unfold group_step. simpl. intros Hin.
  apply dict_set_keys in Hin as [->|Hin]; [by left|].
  destruct (Py.dict_contains G f); [by right|].
  apply dict_set_keys in Hin as [->|Hin]; [by left | by right].
Qed.

Lemma group_loop_keys wm : ∀ G k,
  k ∈ map fst (foldl group_step G wm) → k ∈ map fst G ∨ k ∈ map snd wm.
Proof.
  induction wm as [|[t f] wm IH]; intros G k; simpl; [by left|].
  intros Hin. apply IH in Hin as [Hin|Hin].
  - apply group_step_keys in Hin as [->|Hin]; [right; by left | by left].
  - right. by right.
Qed.

Lemma group_by_file_keys wm g :
  g ∈ group_by_file wm → g.1 ∈ map snd wm.
Proof.
  intros Hin.
  assert (g.1 ∈ map fst (foldl group_step [] wm)) as Hk.
  { apply list_elem_of_fmap. by exists g. }
  apply group_loop_keys in Hk as [Hnil|Hwm]; [|done].
  simpl in Hnil. by apply elem_of_nil in Hnil.
Qed.

Section LoaderProperties.
Context {D : Domain} {C : Collaborators}.

(** *** The merge of a split checkpoint *)

Lemma merge_tensors_run file_path part names : ∀ full0 out0,
  ∃ full1 out1,
    foldM (merge_tensor file_path part) full0 names out0 = (out1, Ok full1)
    ∧ (∀ t, t ∈ names → NoDup names →
         match Py.dict_get part t with
         | Some v => Py.dict_get full1 t = Some v
         | None =>
             Py.dict_get full1 t = Py.dict_get full0 t
             ∧ ("Warning: Tensor " +:+ t +:+ " not found in " +:+ file_path) ∈ out1
         end)
    ∧ (∀ t, t ∉ names → Py.dict_get full1 t = Py.dict_get full0 t)
    ∧ (∀ line, line ∈ out0 → line ∈ out1).
Proof.
  induction names as [|n names IH]; intros full0 out0.
  - exists full0, out0. split; [done|]. split; [|done].
    intros t Hin. by apply elem_of_nil in Hin.
  - cbn [foldM]. unfold mbind, Eff_bind at 1. unfold merge_tensor at 1.
    destruct (Py.dict_get part n) as [v|] eqn:Hn.
    + cbn. destruct (IH (Py.dict_set full0 n v) out0)
        as (full1 & out1 & Hrun & Hin & Hout & Hlog).
      exists full1, out1. split; [exact Hrun|]. split; [|split; [|done]].
      * intros t Ht Hnd. apply NoDup_cons in Hnd as [Hfresh Hnd].
        apply elem_of_cons in Ht as [->|Ht].
        -- rewrite Hn, (Hout _ Hfresh). apply dict_get_set_eq.
        -- specialize (Hin t Ht Hnd).
           destruct (Py.dict_get part t); [done|].
           destruct Hin as [Hget Hw]. split; [|done].
           rewrite Hget. apply dict_get_set_ne. by intros ->.
      * intros t Ht. apply not_elem_of_cons in Ht as [Hne Ht].
        rewrite (Hout _ Ht). by apply dict_get_set_ne.
    + cbn. destruct (IH full0 (out0 ++ ["Warning: Tensor " +:+ n +:+ " not found in " +:+ file_path]))
        as (full1 & out1 & Hrun & Hin & Hout & Hlog).
      exists full1, out1. split; [exact Hrun|]. split; [|split].
      * intros t Ht Hnd. apply NoDup_cons in Hnd as [Hfresh Hnd].
        apply elem_of_cons in Ht as [->|Ht].
        -- rewrite Hn. split; [by apply Hout|].
           apply Hlog, elem_of_app. right. by left.
        -- by apply Hin.
      * intros t Ht. apply not_elem_of_cons in Ht as [Hne Ht]. by apply Hout.
      * intros line Hline. apply Hlog, elem_of_app. by left.
Qed.

Lemma merge_files_run disk path G : ∀ full0 out0,
  NoDup (map fst (flat_groups G)) →
  (∀ g, g ∈ G → isfile disk (Py.path_join path g.1) = true →
        ∃ part, load_file disk (Py.path_join path g.1) = Ok part) →
  ∃ full out,
    foldM (merge_file disk path) full0 G out0 = (out, Ok full)
    ∧ (∀ t f, (t, f) ∈ flat_groups G → Py.dict_get full0 t = None →
         shard_outcome disk path full out t f)
    ∧ (∀ t, t ∉ map fst (flat_groups G) →
         Py.dict_get full t = Py.dict_get full0 t)
    ∧ (∀ line, line ∈ out0 → line ∈ out).
Proof.
  induction G as [|[f names] G IH]; intros full0 out0 Hnd Hread.
  - exists full0, out0. split; [done|]. split; [|done].
    intros t f Hin. by apply elem_of_nil in Hin.
  - rewrite flat_groups_names in Hnd. simpl in Hnd.
    apply NoDup_app in Hnd as (Hnames & Hdisj & Hrest).
    assert (∀ g, g ∈ G → isfile disk (Py.path_join path g.1) = true →
                 ∃ part, load_file disk (Py.path_join path g.1) = Ok part)
      as Hread' by (intros g Hg; apply Hread; by right).
    cbn [foldM]. rewrite eff_bind_run. unfold merge_file at 1.
    cbn [fst snd].
    destruct (isfile disk (Py.path_join path f)) eqn:Hfile; cbn [negb].
    + destruct (Hread (f, names)) as [part Hpart]; [by left|done|].
      simpl in Hpart. eff_run. rewrite Hpart. cbn beta iota.
      destruct (merge_tensors_run (Py.path_join path f) part names full0
                  (out0 ++ ["Loading part from " +:+ Py.path_join path f]))
        as (full1 & out1 & Hrun1 & Hin1 & Hout1 & Hlog1).
      rewrite Hrun1.
      destruct (IH full1 out1 Hrest Hread')
        as (full & out & Hrun & Hin & Hout & Hlog).
      exists full, out. split; [exact Hrun|]. split; [|split].
      * intros t f' Htf Hnone. rewrite flat_groups_cons in Htf. simpl in Htf.
        apply elem_of_app in Htf as [Htf|Htf].
        -- apply list_elem_of_fmap in Htf as (t' & [= -> ->] & Ht).
           unfold shard_outcome. cbn zeta. rewrite Hfile.
           exists part. split; [done|].
           specialize (Hin1 _ Ht Hnames). rewrite (Hout _ (Hdisj _ Ht)).
           destruct (Py.dict_get part t'); [done|].
           destruct Hin1 as [Hget Hw]. split; [congruence | by apply Hlog].
        -- apply Hin; [done|]. rewrite Hout1; [done|].
           intros Ht. apply (Hdisj _ Ht).
           apply list_elem_of_fmap. by exists (t, f').
      * intros t Ht. rewrite flat_groups_names in Ht. simpl in Ht.
        apply not_elem_of_app in Ht as [Ht1 Ht2].
        by rewrite (Hout _ Ht2), (Hout1 _ Ht1).
      * intros line Hline. apply Hlog, Hlog1, elem_of_app. by left.
    + eff_run.
      destruct (IH full0 (out0 ++ ["Warning: Expected safetensors file "
                                   +:+ Py.path_join path f +:+ " not found."])
                  Hrest Hread')
        as (full & out & Hrun & Hin & Hout & Hlog).
      exists full, out. split; [exact Hrun|]. split; [|split].
      * intros t f' Htf Hnone. rewrite flat_groups_cons in Htf. simpl in Htf.
        apply elem_of_app in Htf as [Htf|Htf].
        -- apply list_elem_of_fmap in Htf as (t' & [= -> ->] & Ht).
           unfold shard_outcome. cbn zeta. rewrite Hfile.
           rewrite (Hout _ (Hdisj _ Ht)). split; [done|].
           apply Hlog, elem_of_app. right. by left.
        -- by apply Hin.
      * intros t Ht. rewrite flat_groups_names in Ht. simpl in Ht.
        apply not_elem_of_app in Ht as [Ht1 Ht2]. by apply Hout.
      * intros line Hline. apply Hlog, elem_of_app. by left.
Qed.

Lemma merge_shards_run disk path wm out0 :
  NoDup (map fst wm) →
  (∀ f, f ∈ map snd wm → isfile disk (Py.path_join path f) = true →
        ∃ part, load_file disk (Py.path_join path f) = Ok part) →
  ∃ full out,
    merge_shards disk path wm out0 = (out, Ok full)
    ∧ (∀ t f, (t, f) ∈ wm → shard_outcome disk path full out t f)
    ∧ (∀ t, t ∉ map fst wm → Py.dict_get full t = None)
    ∧ (∀ line, line ∈ out0 → line ∈ out).
Proof.
  intros Hnd Hread. unfold merge_shards.
  pose proof (group_by_file_flat wm) as Hflat.
  destruct (merge_files_run disk path (group_by_file wm) [] out0)
    as (full & out & Hrun & Hin & Hout & Hlog).
  - by rewrite Hflat.
  - intros g Hg. apply Hread. by apply group_by_file_keys.
  - exists full, out. split; [exact Hrun|]. split; [|split; [|done]].
    + intros t f Htf. apply Hin; [by rewrite Hflat | done].
    + intros t Ht. rewrite Hout; [done|]. by rewrite Hflat.
Qed.

(** C7. Shard merge: when the checkpoint directory holds an index manifest
    (and no consolidated file), the tensor names of the manifest being the
    keys of a JSON object and the shard files present on disk being
    readable, the loader returns a merged map; it maps every tensor whose
    shard is on disk and holds it to the value stored in that shard; a
    tensor whose shard file is absent, or whose shard lacks it, has no
    entry and a warning naming it was printed; and the map holds nothing
    the manifest does not name. *)
Theorem shard_merge_completeness disk pretrained_path wm out0 :
  let single_file := Py.path_join pretrained_path "model.safetensors" in
  let index_file := Py.path_join pretrained_path "model.safetensors.index.json" in
  let shard f := Py.path_join pretrained_path f in
  isfile disk pretrained_path && Py.endswith pretrained_path ".safetensors" = false →
  isdir disk pretrained_path = true →
  isfile disk single_file = false →
  isfile disk index_file = true →
  json_load disk index_file = Ok (mkIndexData (Some wm)) →
  NoDup (map fst wm) →
  (∀ f, f ∈ map snd wm → isfile disk (shard f) = true →
        ∃ part, load_file disk (shard f) = Ok part) →
  ∃ full out,
    find_checkpoint disk pretrained_path out0 = (out, Ok (Bound (VStateDict full)))
    ∧ (∀ t f part v,
         (t, f) ∈ wm → isfile disk (shard f) = true →
         load_file disk (shard f) = Ok part → Py.dict_get part t = Some v →
         Py.dict_get full t = Some v)
    ∧ (∀ t f,
         (t, f) ∈ wm → isfile disk (shard f) = false →
         Py.dict_get full t = None
         ∧ ("Warning: Expected safetensors file " +:+ shard f +:+ " not found.") ∈ out)
    ∧ (∀ t f part,
         (t, f) ∈ wm → isfile disk (shard f) = true →
         load_file disk (shard f) = Ok part → Py.dict_get part t = None →
         Py.dict_get full t = None
         ∧ ("Warning: Tensor " +:+ t +:+ " not found in " +:+ shard f) ∈ out)
    ∧ (∀ t, is_Some (Py.dict_get full t) → t ∈ map fst wm).
Proof.
  intros single_file index_file shard Hnofile Hdir Hsingle Hindex Hjson Hnd Hread.
  destruct (merge_shards_run disk pretrained_path wm
              (out0 ++ ["Found safetensors index at " +:+ index_file
                        +:+ ". Loading split checkpoint from directory."])
              Hnd Hread)
    as (full & out & Hrun & Hin & Hout & Hlog).
  exists full, out. split.
  { unfold find_checkpoint. rewrite Hnofile, Hdir.
    fold single_file index_file. rewrite Hsingle, Hindex.
    eff_run. rewrite Hjson. cbn beta iota. cbn [weight_map].
    eff_run. rewrite Hrun. by eff_run. }
  split; [|split; [|split]].
  - intros t f part v Htf Hfile Hpart Hget.
    specialize (Hin t f Htf). unfold shard_outcome in Hin. cbn zeta in Hin.
    fold (shard f) in Hin. rewrite Hfile in Hin.
    destruct Hin as (part' & Hpart' & Hv).
    rewrite Hpart in Hpart'. injection Hpart' as <-. by rewrite Hget in Hv.
  - intros t f Htf Hfile.
    specialize (Hin t f Htf). unfold shard_outcome in Hin. cbn zeta in Hin.
    fold (shard f) in Hin. by rewrite Hfile in Hin.
  - intros t f part Htf Hfile Hpart Hget.
    specialize (Hin t f Htf). unfold shard_outcome in Hin. cbn zeta in Hin.
    fold (shard f) in Hin. rewrite Hfile in Hin.
    destruct Hin as (part' & Hpart' & Hv).
    rewrite Hpart in Hpart'. injection Hpart' as <-. by rewrite Hget in Hv.
  - intros t [v Hv]. destruct (decide (t ∈ map fst wm)) as [|Hnot]; [done|].
    rewrite (Hout _ Hnot) in Hv. discriminate.
Qed.

(** *** No consolidated checkpoint *)

(** Without a weight file, a consolidated file or a manifest, no branch
    assigns [full_state_dict]. *)
Lemma find_checkpoint_unbound disk pretrained_path out :
  isfile disk pretrained_path && Py.endswith pretrained_path ".safetensors" = false →
  (isdir disk pretrained_path = true →
   isfile disk (Py.path_join pretrained_path "model.safetensors") = false
   ∧ isfile disk (Py.path_join pretrained_path "model.safetensors.index.json") = false) →
  find_checkpoint disk pretrained_path out = (out, Ok Unbound).
Proof.
  intros Hnofile Hdir. unfold find_checkpoint. rewrite Hnofile.
  destruct (isdir disk pretrained_path); [|done].
  destruct Hdir as [-> ->]; done.
Qed.

(** ... and the test [full_state_dict is not None] then reads an unbound
    local: the loader raises before any component is loaded. *)
Lemma from_pretrained_unbound disk model_config kwargs pretrained_path out :
  Py.dict_get kwargs "pretrained_model_path" = Some (VStr pretrained_path) →
  isfile disk pretrained_path && Py.endswith pretrained_path ".safetensors" = false →
  (isdir disk pretrained_path = true →
   isfile disk (Py.path_join pretrained_path "model.safetensors") = false
   ∧ isfile disk (Py.path_join pretrained_path "model.safetensors.index.json") = false) →
  from_pretrained disk model_config kwargs out
  = (out, Raise (UnboundLocalError "full_state_dict")).
Proof.
  intros Hpath Hnofile Hdir. unfold from_pretrained, get_value_from_kwargs.
  rewrite Hpath. cbn [fst snd as_path]. eff_run.
  rewrite find_checkpoint_unbound by done. by eff_run.
Qed.


(** *** Routing the merged map to the components *)

(** C9, as amended. Strictness per component, for a call that carries the
    merged map: the decoder is loaded once, permissively, and the load is
    reported; the connector is loaded strictly first and, when the strict
    load raises, once more permissively on the module as the strict attempt
    left it, the fallback being reported; the vision encoder is loaded
    strictly, and when the strict load raises the error is reported and
    raised again, with no permissive attempt. *)
Theorem component_load_strictness self kwargs full out :
  Py.dict_get kwargs "full_state_dict" = Some (VStateDict full) →
  let rest := Py.dict_del kwargs "full_state_dict" in
  let llm_sd := route "language_model." 15 full in
  let connector_sd := route "connector." 10 full in
  let vision_sd := route "vision_tower." 13 full in
  (∀ lm,
     load_state_dict (language_model self) llm_sd false = (lm, None) →
     load_llm self kwargs out
     = (out ++ ["Loading language model weights from provided checkpoint (full_state_dict)...";
                "Language model weights loaded successfully from full_state_dict."],
        Ok (freeze_and_configure (with_language_model self lm) rest)))
  ∧ (∀ c,
       load_state_dict (connector self) connector_sd true = (c, None) →
       load_connector self kwargs out
       = (out ++ ["Loading connector weights from provided checkpoint (full_state_dict)...";
                  "Connector weights loaded successfully from full_state_dict."],
          Ok (with_connector self c)))
  ∧ (∀ c e c',
       load_state_dict (connector self) connector_sd true = (c, Some e) →
       load_state_dict c connector_sd false = (c', None) →
       load_connector self kwargs out
       = (out ++ ["Loading connector weights from provided checkpoint (full_state_dict)...";
                  "Error loading connector weights with strict=True from full_state_dict: " +:+ e;
                  "Attempting to load with strict=False.";
                  "Connector weights loaded successfully with strict=False from full_state_dict."],
          Ok (with_connector self c')))
  ∧ (∀ vt vt',
       vision_tower self = Some vt →
       load_state_dict vt vision_sd true = (vt', None) →
       load_vision_tower self kwargs out
       = (out ++ ["Loading vision tower weights from provided checkpoint (full_state_dict)...";
                  "Vision tower weights loaded successfully from full_state_dict."],
          Ok (with_vision_tower self vt')))
  ∧ (∀ vt vt' e,
       vision_tower self = Some vt →
       load_state_dict vt vision_sd true = (vt', Some e) →
       load_vision_tower self kwargs out
       = (out ++ ["Loading vision tower weights from provided checkpoint (full_state_dict)...";
                  "Error loading vision tower weights from full_state_dict: " +:+ e],
          Raise (RuntimeError e))).
Proof.
  intros Hfull rest llm_sd connector_sd vision_sd.
  assert (get_value_from_kwargs kwargs "full_state_dict"
          = (VStateDict full, rest)) as Hgot.
  { unfold get_value_from_kwargs. by rewrite Hfull. }
  split; [|split; [|split; [|split]]].
  - intros lm Hload. unfold load_llm. rewrite Hgot. cbn [fst snd items].
    eff_run. fold llm_sd. rewrite Hload. eff_run.
    by rewrite <- (assoc_L (++)).
  - intros c Hload. unfold load_connector. rewrite Hgot. cbn [fst snd items].
    eff_run. fold connector_sd. rewrite Hload. eff_run.
    by rewrite <- (assoc_L (++)).
  - intros c e c' Hstrict Hloose. unfold load_connector. rewrite Hgot.
    cbn [fst snd items]. eff_run. fold connector_sd.
    rewrite Hstrict. eff_run. rewrite Hloose. eff_run.
    by rewrite <- !(assoc_L (++)).
  - intros vt vt' Hvt Hload. unfold load_vision_tower, the_vision_tower.
    rewrite Hgot, Hvt. cbn [fst snd items]. eff_run. fold vision_sd.
    rewrite Hload. eff_run. by rewrite <- (assoc_L (++)).
  - intros vt vt' e Hvt Hload. unfold load_vision_tower, the_vision_tower.
    rewrite Hgot, Hvt. cbn [fst snd items]. eff_run. fold vision_sd.
    rewrite Hload. eff_run. by rewrite <- (assoc_L (++)).
Qed.

(** *** The prefix filter *)

Lemma startswith_app p k : Py.startswith (p +:+ k) p = true.
Proof.
  unfold Py.startswith. induction p as [|a p IH]; simpl; [by destruct k|].
  by destruct (Ascii.ascii_dec a a).
Qed.

Lemma startswith_inv s p :
  Py.startswith s p = true → ∃ k, s = p +:+ k.
Proof.
  unfold Py.startswith. revert s. induction p as [|a p IH]; intros s; simpl.
  - intros _. by exists s.
  - destruct s as [|b s]; simpl; [discriminate|].
    destruct (Ascii.ascii_dec a b) as [->|]; [|discriminate].
    intros [k ->]%IH. by exists k.
Qed.

Lemma substring_all s : String.substring 0 (String.length s) s = s.
Proof. induction s as [|a s IH]; simpl; [done | by rewrite IH]. Qed.

Lemma str_from_app p k : Py.str_from (String.length p) (p +:+ k) = k.
Proof.
  unfold Py.str_from. induction p as [|a p IH]; simpl.
  - rewrite Nat.sub_0_r. apply substring_all.
  - exact IH.
Qed.

Lemma append_inj p k k' : p +:+ k = p +:+ k' → k = k'.
Proof. induction p as [|a p IH]; simpl; [done|]. intros [= Heq]. auto. Qed.

Lemma dict_get_None {V} (d : list (string * V)) k :
  k ∉ map fst d → Py.dict_get d k = None.
Proof.
  induction d as [|[k' v] d IH]; simpl; [done|].
  intros [Hne Hd]%not_elem_of_cons.
  destruct (String.eqb_spec k' k); [done | by apply IH].
Qed.

Lemma route_loop prefix (full : list (string * Weight)) : ∀ sub k,
  NoDup (map fst full) →
  Py.dict_get
    (foldl (λ sub kv,
              if Py.startswith kv.1 prefix
              then Py.dict_set sub (Py.str_from (String.length prefix) kv.1) kv.2
              else sub)
           sub full) k
  = match Py.dict_get full (prefix +:+ k) with
    | Some v => Some v
    | None => Py.dict_get sub k
    end.
Proof.
  induction full as [|[k0 v0] full IH]; intros sub k Hnd; [done|].
  simpl in Hnd. apply NoDup_cons in Hnd as [Hfresh Hnd].
  cbn [foldl fst snd Py.dict_get]. rewrite IH by done.
  destruct (String.eqb_spec k0 (prefix +:+ k)) as [->|Hne].
  - rewrite (dict_get_None full) by done.
    by rewrite startswith_app, str_from_app, dict_get_set_eq.
  - destruct (Py.dict_get full (prefix +:+ k)); [done|].
    destruct (Py.startswith k0 prefix) eqn:Hstart; [|done].
    apply startswith_inv in Hstart as [k1 ->].
    rewrite str_from_app. apply dict_get_set_ne. by intros ->.
Qed.

Lemma route_lookup prefix (full : list (string * Weight)) k :
  NoDup (map fst full) →
  Py.dict_get (route prefix (String.length prefix) full) k
  = Py.dict_get full (prefix +:+ k).
Proof.
  intros Hnd. unfold route. rewrite route_loop by done.
  by destruct (Py.dict_get full (prefix +:+ k)).
Qed.

(** X3. The sub-state each loader builds from a merged map holds, under a key,
    the entry the merged map has under the component's prefix followed by
    that key, and nothing else. *)
Theorem route_prefix_strip (full : list (string * Weight)) k :
  NoDup (map fst full) →
  Py.dict_get (route "language_model." 15 full) k
  = Py.dict_get full ("language_model." +:+ k)
  ∧ Py.dict_get (route "vision_tower." 13 full) k
    = Py.dict_get full ("vision_tower." +:+ k)
  ∧ Py.dict_get (route "connector." 10 full) k
    = Py.dict_get full ("connector." +:+ k).
Proof.
  intros Hnd. split; [|split].
  - exact (route_lookup "language_model." full k Hnd).
  - exact (route_lookup "vision_tower." full k Hnd).
  - exact (route_lookup "connector." full k Hnd).
Qed.

End LoaderProperties.

(** ** What the fused samples hold *)

Section FusionContent.
Context {D : Domain} {C : Collaborators}.

Local Abbreviation vec := (list scalar).

Lemma runs_cons {A} ids (x : list A) : ∃ r rs, runs ids x = r :: rs.
Proof.
  revert x; induction ids as [|t ids IH]; intros [|a x]; simpl; eauto.
  destruct (t =? IMAGE_TOKEN_INDEX)%Z; eauto.
  destruct (IH x) as (r & rs & ->); eauto.
Qed.

Lemma length_runs {A} ids (x : list A) :
  length x = length ids → length (runs ids x) = S (num_images ids).
Proof.
  revert x; induction ids as [|t ids IH]; intros [|a x] Hlen;
    try discriminate; [reflexivity|].
  injection Hlen as Hlen. specialize (IH x Hlen).
  unfold num_images in *. simpl.
  destruct (t =? IMAGE_TOKEN_INDEX)%Z; simpl; [lia|].
  destruct (runs ids x); simpl in *; lia.
Qed.

Lemma runs_lengths {A B} ids (x : list A) (y : list B) :
  length x = length ids → length y = length ids →
  map length (runs ids x) = map length (runs ids y).
Proof.
  revert x y; induction ids as [|t ids IH]; intros [|a x] [|b y] Hx Hy;
    try discriminate; [reflexivity|].
  injection Hx as Hx. injection Hy as Hy. specialize (IH x y Hx Hy).
  simpl. destruct (t =? IMAGE_TOKEN_INDEX)%Z; simpl; [by f_equal|].
  destruct (runs_cons ids x) as (r & rs & Hr).
  destruct (runs_cons ids y) as (r' & rs' & Hr').
  rewrite Hr, Hr' in *. simpl in *. injection IH as -> ->. done.
Qed.

Lemma runs_map {A B} (f : A → B) ids (x : list A) :
  runs ids (map f x) = map (map f) (runs ids x).
Proof.
  revert x; induction ids as [|t ids IH]; intros [|a x]; try reflexivity.
  simpl. rewrite IH. destruct (t =? IMAGE_TOKEN_INDEX)%Z; [done|].
  by destruct (runs ids x).
Qed.

Lemma segments_cons {A} (x : list A) a b rest :
  segments x (a :: b :: rest)
  = Py.slice x (Some (a + 1)%Z) (Some b) :: segments x (b :: rest).
Proof. reflexivity. Qed.

(** The slices between consecutive sentinel positions are the runs. *)
Lemma segments_runs_from {A} ids : ∀ (pre y : list A) (s : Z) start,
  length y = length ids → start ≤ length pre →
  s = (Z.of_nat start - 1)%Z →
  segments (pre ++ y)
    (s :: where_image (Z.of_nat (length pre)) ids
       ++ [Z.of_nat (length (pre ++ y))])
  = match runs ids y with
    | r :: rs => (drop start pre ++ r) :: rs
    | [] => []
    end.
Proof.
  induction ids as [|t ids IH]; intros pre [|a y] s start Hlen Hstart ->;
    try discriminate.
  - (* HERE0 *)
    simpl. unfold Py.slice. cbn [Py.lower Py.upper].
    replace (Z.of_nat start - 1 + 1)%Z with (Z.of_nat start) by lia.
    rewrite !bound_nat, !app_nil_r.
    rewrite (Nat.min_l start) by lia. rewrite Nat.min_id.
    rewrite take_ge; [done|]. rewrite length_drop. lia.
  - injection Hlen as Hlen. cbn [where_image runs].
    destruct (t =? IMAGE_TOKEN_INDEX)%Z eqn:Ht.
    + rewrite <- app_comm_cons, segments_cons.
      specialize (IH (pre ++ [a]) y (Z.of_nat (length pre)) (S (length pre)) Hlen).
      rewrite length_app in IH. cbn [length] in IH.
      replace (Z.of_nat (length pre + 1)) with (Z.of_nat (length pre) + 1)%Z
        in IH by lia.
      rewrite <- !(app_assoc pre [a] y) in IH. cbn [app] in IH.
      rewrite IH by lia. clear IH.
      destruct (runs_cons ids y) as (r & rs & ->).
      rewrite drop_ge by (rewrite length_app; simpl; lia). simpl.
      f_equal. unfold Py.slice. cbn [Py.lower Py.upper].
      replace (Z.of_nat start - 1 + 1)%Z with (Z.of_nat start) by lia.
      rewrite !bound_nat, length_app. simpl.
      rewrite !Nat.min_l by lia.
      rewrite drop_app_le by lia. rewrite take_app_le by (rewrite length_drop; lia).
      rewrite take_ge by (rewrite length_drop; lia). by rewrite app_nil_r.
    + specialize (IH (pre ++ [a]) y (Z.of_nat start - 1)%Z start Hlen).
      rewrite length_app in IH. cbn [length] in IH.
      replace (Z.of_nat (length pre + 1)) with (Z.of_nat (length pre) + 1)%Z
        in IH by lia.
      rewrite <- !(app_assoc pre [a] y) in IH. cbn [app] in IH.
      rewrite IH by lia. clear IH.
      destruct (runs_cons ids y) as (r & rs & ->).
      rewrite drop_app_le by lia. by rewrite <- app_assoc.
Qed.

Lemma segments_runs {A} ids (x : list A) :
  length x = length ids → segments x (image_token_indices ids) = runs ids x.
Proof.
  intros Hlen. unfold image_token_indices.
  pose proof (segments_runs_from ids [] x (-1)%Z 0 Hlen) as H.
  cbn [app length] in H. change (Z.of_nat 0) with 0%Z in H.
  rewrite <- Hlen. change ([(-1)%Z] ++ ?l) with ((-1)%Z :: l).
  rewrite H by (simpl; lia).
  by destruct (runs_cons ids x) as (r & rs & ->).
Qed.

Lemma chunks_concat {A} (R : list (list A)) :
  chunks (concat R) (map length R) = R.
Proof.
  induction R as [|r R IH]; [reflexivity|]. simpl.
  by rewrite take_app_length, drop_app_length, IH.
Qed.

Lemma split_concat {A} (R : list (list A)) sizes :
  sizes = map length R → Torch.split (concat R) sizes = Ok R.
Proof.
  intros ->. unfold Torch.split.
  rewrite decide_True by apply sum_list_lengths.
  by rewrite chunks_concat.
Qed.

Lemma concat_snoc {A} (xs : list (list A)) x :
  concat (xs ++ [x]) = concat xs ++ x.
Proof. by rewrite concat_app; simpl; rewrite app_nil_r. Qed.

Lemma drop_lookup_cons {A} (l : list A) i x :
  l !! i = Some x → drop i l = x :: drop (S i) l.
Proof.
  revert i; induction l as [|a l IH]; intros [|i] H; try discriminate.
  - by injection H as ->.
  - simpl. by apply IH.
Qed.

(** The splice loop lays runs and image blocks down in turn. *)
Lemma splice_run feats n (no_im : list (list vec)) (labs_noim : list (list Z)) k :
  ∀ a st st',
  a + k = S n → length no_im = S n → length labs_noim = S n →
  foldM (splice_step feats n no_im labs_noim) st (seq a k) = Ok st' →
  concat st'.1.1 = concat st.1.1 ++ weave (drop a no_im) (drop st.2 feats)
  ∧ concat st'.1.2
    = concat st.1.2
      ++ weave (drop a labs_noim)
               (map (λ b, replicate (length b) IGNORE_INDEX) (drop st.2 feats)).
Proof.
  induction k as [|k IH]; intros a st st' Hak HE HL Hrun; simpl in Hrun.
  - injection Hrun as <-.
    rewrite (drop_ge no_im), (drop_ge labs_noim) by lia.
    simpl. by rewrite !app_nil_r.
  - ok_inv Hrun as s1 Hs1.
    destruct st as [[es ls] idx]. simpl in Hs1.
    ok_inv Hs1 as e He. ok_inv Hs1 as l Hl. apply index_Ok in He, Hl.
    rewrite (drop_lookup_cons _ _ _ He), (drop_lookup_cons _ _ _ Hl).
    case_decide as Han.
    + ok_inv Hs1 as f Hf. apply index_Ok in Hf. injection Hs1 as <-.
      apply IH in Hrun as [-> ->]; [|lia|done|done]. cbn [fst snd].
      rewrite (drop_lookup_cons _ _ _ Hf).
      rewrite !concat_snoc. cbn [weave map head tail default].
      destruct (drop (S a) no_im) as [|e' E'] eqn:HdE.
      { apply (f_equal length) in HdE. rewrite length_drop in HdE.
        simpl in HdE. lia. }
      destruct (drop (S a) labs_noim) as [|l' L'] eqn:HdL.
      { apply (f_equal length) in HdL. rewrite length_drop in HdL.
        simpl in HdL. lia. }
      by rewrite <- !app_assoc.
    + injection Hs1 as <-.
      apply IH in Hrun as [-> ->]; [|lia|done|done]. cbn [fst snd].
      rewrite (drop_ge no_im), (drop_ge labs_noim) by lia.
      rewrite !concat_snoc. simpl. by rewrite !app_nil_r.
Qed.

Lemma head_drop_lookup {A} (l : list A) i : head (drop i l) = l !! i.
Proof. by rewrite head_lookup, lookup_drop, Nat.add_0_r. Qed.

Lemma tail_drop {A} (l : list A) i : tail (drop i l) = drop (S i) l.
Proof.
  revert i; induction l as [|a l IH]; intros [|i]; try reflexivity.
  simpl. apply IH.
Qed.

(** The token-wise reading of a sample against runs and blocks. *)
Lemma interleave_embeds_weave embed feats ids : ∀ idx,
  interleave_embeds embed feats idx ids
  = weave (map (map embed) (runs ids ids)) (drop idx feats).
Proof.
  induction ids as [|t ids IH]; intros idx; [reflexivity|].
  cbn [interleave_embeds runs].
  destruct (runs_cons ids ids) as (r & rs & Hr).
  destruct (t =? IMAGE_TOKEN_INDEX)%Z.
  - rewrite IH, Hr. cbn [map weave app].
    by rewrite !tail_drop, !head_drop_lookup.
  - rewrite IH, Hr. reflexivity.
Qed.

Lemma interleave_labels_weave feats ids : ∀ idx l,
  length l = length ids →
  interleave_labels feats idx ids l
  = weave (runs ids l)
          (map (λ b, replicate (length b) IGNORE_INDEX) (drop idx feats)).
Proof.
  induction ids as [|t ids IH]; intros idx [|x l] Hlen; try discriminate;
    [reflexivity|].
  injection Hlen as Hlen.
  cbn [interleave_labels runs].
  destruct (runs_cons ids l) as (r & rs & Hr).
  destruct (t =? IMAGE_TOKEN_INDEX)%Z.
  - rewrite IH, Hr by done. cbn [weave app].
    rewrite <- tail_drop, <- head_drop_lookup.
    by destruct (drop idx feats).
  - rewrite IH, Hr by done. reflexivity.
Qed.

Lemma interleave_no_image embed feats ids : ∀ idx,
  num_images ids = 0 →
  interleave_embeds embed feats idx ids = map embed ids
  ∧ ∀ l, length l = length ids → interleave_labels feats idx ids l = l.
Proof.
  unfold num_images.
  induction ids as [|t ids IH]; intros idx Hn.
  - split; [done|]. by intros [|??].
  - simpl in Hn |- *. destruct (t =? IMAGE_TOKEN_INDEX)%Z; [discriminate|].
    destruct (IH idx Hn) as [-> Hl]. split; [done|].
    intros [|x l] Hlen; [discriminate|]. injection Hlen as Hlen.
    by rewrite Hl.
Qed.

(** One sample of the batch loop, read token by token. *)
Lemma fuse_sample_content self feats labels idx bi ids r l :
  fuse_sample self feats labels idx bi ids = Ok r →
  labels !! bi = Some l → length l = length ids →
  r.1.1 = interleave_embeds (embed_token (language_model self)) feats idx ids
  ∧ r.1.2 = interleave_labels feats idx ids l.
Proof.
  unfold fuse_sample. case_decide as Hn; intros Hrun Hl Hlen.
  - ok_inv Hrun as f Hf. ok_inv Hrun as l' Hl'. apply index_Ok in Hl'.
    injection Hrun as <-. rewrite Hl in Hl'. injection Hl' as <-.
    cbn [fst snd].
    destruct (interleave_no_image (embed_token (language_model self))
                feats ids idx Hn) as [-> Hlab].
    by rewrite slice_empty, app_nil_r, Hlab.
  - ok_inv Hrun as l' Hl'. apply index_Ok in Hl'.
    rewrite Hl in Hl'. injection Hl' as <-.
    rewrite !segments_runs in Hrun by done.
    unfold get_input_embeddings in Hrun.
    rewrite (concat_map (embed_token (language_model self))) in Hrun.
    rewrite <- runs_map in Hrun.
    rewrite split_concat in Hrun
      by (apply runs_lengths; [done | by rewrite length_map]).
    simpl in Hrun. ok_inv Hrun as st Hst. injection Hrun as <-.
    apply splice_run in Hst as [H1 H2].
    + cbn [fst snd] in *. rewrite H1, H2. simpl. rewrite !drop_0.
      by rewrite interleave_embeds_weave, interleave_labels_weave, runs_map.
    + lia.
    + rewrite length_runs; [done | by rewrite length_map].
    + by rewrite length_runs.
Qed.

(** The batch loop, read sample by sample. *)
Lemma fuse_loop_content self feats labels ids : ∀ k st st',
  (∀ j x l, ids !! j = Some x → labels !! (k + j) = Some l →
            length l = length x) →
  foldM (fuse_step self feats labels) st (enumerate_from k ids) = Ok st' →
  st'.1.1
  = st.1.1 ++ interleave_batch (embed_token (language_model self)) feats st.2 ids
  ∧ st'.1.2
    = st.1.2 ++ interleave_labels_batch feats st.2 ids (drop k labels).
Proof.
  induction ids as [|x ids IH]; intros k st st' Hal Hrun; simpl in Hrun.
  - injection Hrun as <-. simpl. by rewrite !app_nil_r.
  - ok_inv Hrun as s1 Hs1. unfold fuse_step in Hs1.
    ok_inv Hs1 as r Hr. injection Hs1 as <-. cbn [fst snd] in *.
    destruct (fuse_sample_lengths _ _ _ _ _ _ _ Hr) as (l & Hl & _).
    assert (length l = length x) as Hlen.
    { apply (Hal 0); [done | by rewrite Nat.add_0_r]. }
    destruct (fuse_sample_content _ _ _ _ _ _ _ _ Hr Hl Hlen) as [HE HL].
    pose proof (fuse_sample_cursor _ _ _ _ _ _ _ Hr) as Hc.
    apply IH in Hrun as [-> ->].
    + cbn [fst snd]. rewrite (drop_lookup_cons _ _ _ Hl).
      cbn [interleave_batch interleave_labels_batch].
      rewrite HE, HL, Hc, <- !app_assoc. done.
    + intros j y l' Hy Hl'. apply (Hal (S j)); [done|].
      by rewrite <- Nat.add_succ_comm.
Qed.

Lemma depad_inv {A} (xs : list (list A)) mask ys :
  depad xs mask = Ok ys → ys = zip_with select xs mask.
Proof.
  unfold depad. revert mask ys.
  induction xs as [|x xs IH]; intros [|m mask] ys Hrun; simpl in Hrun;
    try (by injection Hrun as <-).
  ok_inv Hrun as y Hy. ok_inv Hrun as ys' Hys. injection Hrun as <-.
  unfold mask_index in Hy. simpl in Hy. case_decide; [|discriminate].
  injection Hy as <-. simpl. f_equal. by apply IH.
Qed.

Lemma fuse_content self input_ids attention_mask labels images fu :
  fuse self input_ids attention_mask labels images = Ok fu →
  let mask := rows (default_attention_mask input_ids attention_mask) in
  let labs := rows (default_labels input_ids labels) in
  ∃ image_features,
    encode_images self images = Ok image_features
    ∧ depadded_input_ids fu = zip_with select (rows input_ids) mask
    ∧ depadded_labels fu = zip_with select labs mask
    ∧ spliced_embeds fu
      = interleave_batch (embed_token (language_model self)) image_features 0
                         (depadded_input_ids fu)
    ∧ spliced_labels fu
      = interleave_labels_batch image_features 0
                                (depadded_input_ids fu) (depadded_labels fu).
Proof.
  intros Hfu mask labs. subst mask labs.
  destruct (fuse_stages _ _ _ _ _ _ Hfu)
    as (feats & Henc & _ & Hids & Hlabs & Hbatch & _).
  exists feats. split; [done|].
  split; [by apply depad_inv|]. split; [by apply depad_inv|].
  unfold fuse_batch, enumerate in Hbatch.
  apply fuse_loop_content in Hbatch as [H1 H2];
    [split; [exact H1 | exact H2]|].
  intros j x l Hx Hl. symmetry.
  exact (depad_aligned _ _ _ _ _ _ _ _ Hids Hlabs Hx Hl).
Qed.

(** X4. The fusion path interleaves text and image embeddings token by
    token: after depadding (the tokens and labels at the positions the
    attention mask keeps), every sentinel of a sample gives way to the rows
    of the next block of [encode_images], in order, and every other token
    to its embedding; labels carry the ignore value over the image rows and
    the sample's own label elsewhere; a sample without sentinels moves the
    cursor on by one block. *)
Theorem fusion_interleaves self input_ids attention_mask labels images fu :
  fuse self input_ids attention_mask labels images = Ok fu →
  let mask := rows (default_attention_mask input_ids attention_mask) in
  let labs := rows (default_labels input_ids labels) in
  ∃ image_features,
    encode_images self images = Ok image_features
    ∧ depadded_input_ids fu = zip_with select (rows input_ids) mask
    ∧ depadded_labels fu = zip_with select labs mask
    ∧ spliced_embeds fu
      = interleave_batch (embed_token (language_model self)) image_features 0
                         (depadded_input_ids fu)
    ∧ spliced_labels fu
      = interleave_labels_batch image_features 0
                                (depadded_input_ids fu) (depadded_labels fu).
Proof. apply fuse_content. Qed.

(** *** The length cap and the width of the batch *)

Lemma foldl_max_elem (xs : list nat) a : foldl Nat.max a xs ∈ a :: xs.
Proof.
  revert a; induction xs as [|x xs IH]; intros a; simpl; [by left|].
  specialize (IH (Nat.max a x)).
  apply elem_of_cons in IH as [->|IH].
  - destruct (Nat.max_spec a x) as [[_ ->]|[_ ->]];
      [right; left | left].
  - by do 2 right.
Qed.

Lemma max_elem (xs : list nat) m : Py.max xs = Ok m → m ∈ xs.
Proof.
  destruct xs as [|x xs]; [discriminate|]. intros [= <-].
  apply foldl_max_elem.
Qed.

Lemma slice_take {A} (x : list A) (n : Z) :
  (0 ≤ n)%Z → Py.slice x None (Some n) = take (Z.to_nat n) x.
Proof.
  intros Hn. unfold Py.slice. cbn [Py.lower Py.upper].
  rewrite <- (Z2Nat.id n) at 1 by done.
  rewrite bound_nat, drop_0, Nat.sub_0_r.
  destruct (Nat.min_spec (Z.to_nat n) (length x)) as [[_ ->]|[? ->]];
    [done|].
  by rewrite !take_ge by lia.
Qed.

Lemma truncate_take {A} (n : Z) (xs : list (list A)) :
  (0 ≤ n)%Z → truncate (Some n) xs = map (take (Z.to_nat n)) xs.
Proof.
  intros Hn. unfold truncate. apply map_ext. intros x. by apply slice_take.
Qed.

Lemma pad_row_full {A} side m (v : A) x :
  length x = m → pad_row side m v x = x.
Proof.
  intros <-. unfold pad_row. rewrite Nat.sub_diag. simpl.
  case_decide; [done | by rewrite app_nil_r].
Qed.

(** X5. The length cap: with [tokenizer_model_max_length] set to a
    non-negative [n], every fused sample and its labels are cut to their
    first [n] positions before padding, and the padded batch is no wider
    than [n]; with no cap configured the samples go to the padding stage
    as spliced. *)
Theorem fusion_respects_cap self input_ids attention_mask labels images fu :
  fuse self input_ids attention_mask labels images = Ok fu →
  (tokenizer_model_max_length (config self) = None →
   new_input_embeds fu = spliced_embeds fu
   ∧ new_labels fu = spliced_labels fu)
  ∧ (∀ n, tokenizer_model_max_length (config self) = Some n → (0 ≤ n)%Z →
       new_input_embeds fu = map (take (Z.to_nat n)) (spliced_embeds fu)
       ∧ new_labels fu = map (take (Z.to_nat n)) (spliced_labels fu)
       ∧ max_len fu ≤ Z.to_nat n
       ∧ Forall (λ row, length row ≤ Z.to_nat n)
                (new_input_embeds_padded (padded fu))).
Proof.
  intros Hfu.
  destruct (fuse_stages _ _ _ _ _ _ Hfu)
    as (feats & _ & _ & _ & _ & _ & HE & HL & _).
  destruct (fuse_padded _ _ _ _ _ _ Hfu) as (_ & Hsame & _ & Hmax & Hpad).
  split.
  - intros Hcap. by rewrite HE, HL, Hcap.
  - intros n Hcap Hn. rewrite Hcap in HE, HL.
    rewrite truncate_take in HE by done. rewrite truncate_take in HL by done.
    split; [done|]. split; [done|].
    assert (max_len fu ≤ Z.to_nat n) as Hm.
    { apply max_elem in Hmax.
      apply list_elem_of_fmap in Hmax as (e & -> & He).
      rewrite HE in He. apply list_elem_of_fmap in He as (e' & -> & _).
      rewrite length_take. lia. }
    split; [done|].
    rewrite Hpad. simpl. apply Forall_fmap, Forall_forall. intros e He. simpl.
    rewrite length_pad_row; [done|].
    pose proof (max_Ok _ _ Hmax) as Hle.
    rewrite Forall_fmap, Forall_forall in Hle. by apply Hle.
Qed.

(** X6. The batch is padded to its longest sample and no further: some
    sample is exactly [max_len] long, and its padded row is the sample
    itself with an attention mask that is true throughout. *)
Theorem batch_width_attained self input_ids attention_mask labels images fu :
  fuse self input_ids attention_mask labels images = Ok fu →
  ∃ i e,
    new_input_embeds fu !! i = Some e
    ∧ length e = max_len fu
    ∧ new_input_embeds_padded (padded fu) !! i = Some e
    ∧ attention_mask_padded (padded fu) !! i
      = Some (replicate (max_len fu) true).
Proof.
  intros Hfu.
  destruct (fuse_padded _ _ _ _ _ _ Hfu) as (_ & Hsame & _ & Hmax & _).
  apply max_elem, list_elem_of_fmap in Hmax as (e & Hlen & He).
  apply list_elem_of_lookup in He as [i Hi].
  destruct (Forall2_lookup_l _ _ _ _ _ Hsame Hi) as (l & Hl & _).
  destruct (fuse_padded_rows _ _ _ _ _ _ _ _ _ Hfu Hi Hl)
    as (_ & _ & HpE & _ & HpM & _).
  exists i, e. split; [done|]. split; [done|].
  rewrite HpE, HpM, <- Hlen.
  rewrite !pad_row_full by (by rewrite ?length_replicate). done.
Qed.

(** *** Running out of image blocks, and the empty batch *)








(** *** A mask of another shape *)

Lemma depad_outcome {A} (xs : list (list A)) mask :
  depad xs mask = Ok (zip_with select xs mask)
  ∨ depad xs mask = Raise IndexError.
Proof.
  unfold depad. revert mask.
  induction xs as [|x xs IH]; intros [|m mask]; try (by left).
  cbn [zip_with mapM fst snd].
  destruct (decide (length x = length m)) as [Hlen|Hlen].
  - assert (mask_index x m = Ok (select x m)) as ->
      by (unfold mask_index; by rewrite decide_True).
    cbn [mbind Result_bind].
    destruct (IH mask) as [-> | ->]; [by left | by right].
  - assert (mask_index x m = Raise IndexError) as ->
      by (unfold mask_index; by rewrite decide_False).
    by right.
Qed.

Lemma depad_mismatch {A} (xs : list (list A)) mask i x m :
  xs !! i = Some x → mask !! i = Some m → length x ≠ length m →
  depad xs mask = Raise IndexError.
Proof.
  intros Hx Hm Hne. destruct (depad_outcome xs mask) as [Hok|]; [|done].
  assert (zip_with select xs mask !! i = Some (select x m)) as Hi
    by (apply lookup_zip_with_Some; eauto).
  destruct (depad_lookup _ _ _ _ _ Hok Hi) as (x' & m' & Hx' & Hm' & Hlen & _).
  congruence.
Qed.

(** X9. A mask of another shape is fatal: when some row of the attention
    mask is not as long as the row of token ids it goes with, the fusion
    path raises [IndexError]. *)
Theorem mask_shape_mismatch_raises self input_ids attention_mask labels images
    image_features i x m :
  encode_images self images = Ok image_features →
  tune_mm_mlp_adapter (config self) = false →
  rows input_ids !! i = Some x →
  rows (default_attention_mask input_ids attention_mask) !! i = Some m →
  length x ≠ length m →
  fuse self input_ids attention_mask labels images = Raise IndexError.
Proof.
  intros Henc Htune Hx Hm Hne. unfold fuse.
  rewrite Henc. cbn [mbind Result_bind]. rewrite Htune.
  by rewrite (depad_mismatch _ _ _ _ _ Hx Hm Hne).
Qed.

(** *** Samples the mask empties, and what the labels cannot change *)

Lemma select_all_false {A} (x : list A) (m : list bool) :
  Forall (λ b, b = false) m → select x m = [].
Proof.
  intros Hm. revert x. induction Hm as [|b m -> _ IH]; intros [|a x]; simpl; auto.
Qed.

Lemma interleave_batch_lookup embed feats ids : ∀ c i x,
  ids !! i = Some x →
  interleave_batch embed feats c ids !! i
  = Some (interleave_embeds embed feats
            (c + sum_list (map (λ y, Nat.max 1 (num_images y)) (take i ids)))
            x).
Proof.
  induction ids as [|y ids IH]; intros c [|i] x Hx; try discriminate.
  - injection Hx as ->. simpl. by rewrite Nat.add_0_r.
  - simpl. rewrite (IH _ _ _ Hx). by rewrite Nat.add_assoc.
Qed.

Lemma truncate_lookup_nil {A} cap (xs : list (list A)) i :
  xs !! i = Some [] → truncate cap xs !! i = Some [].
Proof.
  intros Hi. destruct cap as [n|]; [|done]. simpl.
  rewrite list_lookup_fmap, Hi. simpl. unfold Py.slice.
  by rewrite drop_nil, take_nil.
Qed.

(** X10. A sample the attention mask empties: when every entry of a
    sample's mask row is false, the sample has no token left after
    depadding, and its row of the padded batch is padding throughout: zero
    embeddings, ignore labels, a false mask and zero position ids. *)
Theorem masked_out_sample self input_ids attention_mask labels images fu i m :
  fuse self input_ids attention_mask labels images = Ok fu →
  i < length (rows input_ids) →
  rows (default_attention_mask input_ids attention_mask) !! i = Some m →
  Forall (λ b, b = false) m →
  depadded_input_ids fu !! i = Some []
  ∧ new_input_embeds_padded (padded fu) !! i
    = Some (replicate (max_len fu) (replicate hidden_dim szero))
  ∧ new_labels_padded (padded fu) !! i
    = Some (replicate (max_len fu) IGNORE_INDEX)
  ∧ attention_mask_padded (padded fu) !! i
    = Some (replicate (max_len fu) false)
  ∧ position_ids_padded (padded fu) !! i
    = Some (replicate (max_len fu) 0%Z).
Proof.
  intros Hfu Hi Hm Hall.
  destruct (fuse_content _ _ _ _ _ _ Hfu)
    as (feats & _ & Hids & _ & Hspliced & _).
  destruct (lookup_lt_is_Some_2 _ _ Hi) as [x Hx].
  assert (depadded_input_ids fu !! i = Some []) as Hnil.
  { rewrite Hids. apply lookup_zip_with_Some. exists x, m.
    by rewrite select_all_false. }
  split; [done|].
  assert (new_input_embeds fu !! i = Some []) as HE.
  { destruct (fuse_stages _ _ _ _ _ _ Hfu)
      as (? & _ & _ & _ & _ & _ & -> & _).
    apply truncate_lookup_nil. rewrite Hspliced.
    by rewrite (interleave_batch_lookup _ _ _ _ _ _ Hnil). }
  destruct (fuse_padded _ _ _ _ _ _ Hfu) as (_ & Hsame & _).
  destruct (Forall2_lookup_l _ _ _ _ _ Hsame HE) as (l & Hl & Hlen).
  destruct l; [|discriminate].
  destruct (fuse_padded_rows _ _ _ _ _ _ _ _ _ Hfu HE Hl)
    as (_ & _ & -> & -> & -> & ->).
  cbn [length replicate]. unfold arange. cbn [seq map].
  by rewrite !pad_row_nil.
Qed.

Lemma depad_same_shape {A B} (xs : list (list A)) (xs' : list (list B)) :
  ∀ mask ys,
  map length xs' = map length xs →
  depad xs mask = Ok ys → depad xs' mask = Ok (zip_with select xs' mask).
Proof.
  unfold depad. revert xs'.
  induction xs as [|x xs IH]; intros [|x' xs'] [|m mask] ys Hshape Hrun;
    try discriminate; try reflexivity.
  injection Hshape as Hx Hshape. cbn [zip_with mapM fst snd] in Hrun |- *.
  ok_inv Hrun as y Hy. ok_inv Hrun as ys' Hys.
  assert (length x = length m) as Hlen.
  { unfold mask_index in Hy. by case_decide. }
  assert (mask_index x' m = Ok (select x' m)) as ->.
  { unfold mask_index. rewrite decide_True; [done | congruence]. }
  cbn [mbind Result_bind]. by rewrite (IH _ _ _ Hshape Hys).
Qed.

Lemma fuse_sample_bound self feats labels idx bi ids r :
  fuse_sample self feats labels idx bi ids = Ok r →
  idx ≤ length feats → r.2 ≤ length feats.
Proof.
  unfold fuse_sample. case_decide as Hn; intros Hrun Hidx.
  - ok_inv Hrun as f Hf. ok_inv Hrun as l Hl. injection Hrun as <-.
    apply index_Ok, lookup_lt_Some in Hf. simpl. lia.
  - ok_inv Hrun as l Hl. ok_inv Hrun as no_im Hsplit.
    ok_inv Hrun as st Hst. injection Hrun as <-. cbn [snd].
    refine (foldM_invariant (λ s : splice_state, s.2 ≤ length feats)
              _ _ _ ([], [], idx) st Hidx Hst).
    intros [[es ls] c] i s' _ Hc Hstep. simpl in Hstep, Hc.
    ok_inv Hstep as e He. ok_inv Hstep as l' Hl'. case_decide.
    + ok_inv Hstep as f Hf. injection Hstep as <-.
      apply index_Ok, lookup_lt_Some in Hf. simpl. lia.
    + by injection Hstep as <-.
Qed.

Lemma fuse_loop_bound self feats labels xs st st' :
  foldM (fuse_step self feats labels) st xs = Ok st' →
  st.2 ≤ length feats → st'.2 ≤ length feats.
Proof.
  intros Hrun Hst.
  refine (foldM_invariant (λ s : batch_state, s.2 ≤ length feats)
            _ _ _ st st' Hst Hrun).
  intros s [j x] s' _ Hs Hstep. unfold fuse_step in Hstep.
  ok_inv Hstep as r Hr. injection Hstep as <-. cbn [snd].
  by eapply fuse_sample_bound.
Qed.

Lemma fuse_without_labels self input_ids attention_mask labels images fu :
  fuse self input_ids attention_mask (Some labels) images = Ok fu →
  ∃ fu',
    fuse self input_ids attention_mask None images = Ok fu'
    ∧ depadded_input_ids fu' = depadded_input_ids fu
    ∧ spliced_embeds fu' = spliced_embeds fu
    ∧ final_image_idx fu' = final_image_idx fu
    ∧ new_input_embeds fu' = new_input_embeds fu
    ∧ max_len fu' = max_len fu
    ∧ new_input_embeds_padded (padded fu') = new_input_embeds_padded (padded fu)
    ∧ attention_mask_padded (padded fu') = attention_mask_padded (padded fu)
    ∧ position_ids_padded (padded fu') = position_ids_padded (padded fu).
Proof.
  intros Hfu.
  destruct (fuse_stages _ _ _ _ _ _ Hfu)
    as (feats & Henc & Htune & Hids & Hlabs & Hbatch & HE & _ & _).
  destruct (fuse_padded _ _ _ _ _ _ Hfu) as (_ & _ & _ & Hmax & Hpad).
  destruct (fuse_content _ _ _ _ _ _ Hfu)
    as (feats' & Henc' & _ & _ & Hspliced & _).
  rewrite Henc in Henc'. injection Henc' as <-.
  set (mask := rows (default_attention_mask input_ids attention_mask)) in *.
  set (labs0 := rows (default_labels input_ids None)).
  assert (depad labs0 mask = Ok (zip_with select labs0 mask)) as Hlabs0.
  { apply (depad_same_shape (rows input_ids) labs0 mask
             (depadded_input_ids fu)); [|exact Hids].
    unfold labs0. simpl. rewrite map_map. apply map_ext. intros x.
    by rewrite length_map. }
  set (ids' := depadded_input_ids fu) in *.
  set (labs' := zip_with select labs0 mask) in *.
  assert (∀ j x l, ids' !! j = Some x → labs' !! j = Some l →
                   length x = length l) as Hal.
  { intros j x l Hx Hl.
    exact (depad_aligned _ _ _ _ _ _ _ _ Hids Hlabs0 Hx Hl). }
  assert (length labs' = length ids') as Hlen.
  { unfold labs'. subst ids'. rewrite (depad_inv _ _ _ Hids).
    rewrite !length_zip_with. unfold labs0. simpl. by rewrite length_map. }
  assert (final_image_idx fu ≤ length feats) as Hbound.
  { unfold fuse_batch in Hbatch.
    apply fuse_loop_bound in Hbatch; [exact Hbatch | simpl; lia]. }
  unfold fuse_batch in Hbatch.
  pose proof (fuse_loop_cursor _ _ _ _ _ _ Hbatch) as Hcur.
  cbn [snd] in Hcur.
  destruct (fuse_loop_total self feats labs' (enumerate ids') ([], [], 0))
    as [st Hst].
  { intros j x Hin%enumerate_elem.
    destruct (lookup_lt_is_Some_2 labs' j) as [l Hl].
    { rewrite Hlen. by eapply lookup_lt_Some. }
    exists l. split; [done|]. symmetry. by eapply Hal. }
  { simpl. lia. }
  pose proof (fuse_loop_cursor _ _ _ _ _ _ Hst) as Hcur'.
  unfold enumerate in Hst.
  pose proof Hst as Hst'.
  apply fuse_loop_content in Hst' as [HstE _]; last first.
  { intros j x l Hx Hl. symmetry. by eapply Hal. }
  cbn [fst snd app] in HstE, Hcur'.
  assert (st.1.1 = spliced_embeds fu) as HstE' by by rewrite HstE, Hspliced.
  destruct (fuse_batch_aligned self feats ids' labs' st Hal Hst) as [Hsame _].
  set (cap := tokenizer_model_max_length (config self)) in *.
  pose proof (truncate_aligned cap _ _ Hsame) as Hsame'.
  rewrite HstE', <- HE in Hsame'.
  pose proof (pad_batch_run (tokenizer_padding_side (config self))
                _ _ _ Hsame' Hmax) as Hrun.
  eexists (mkFusion ids' labs' st.1.1 st.1.2 st.2 (new_input_embeds fu)
             (truncate cap st.1.2) (max_len fu) _).
  split.
  { unfold fuse. rewrite Henc. cbn [mbind Result_bind]. rewrite Htune.
    fold mask labs0. rewrite Hids, Hlabs0. cbn [mbind Result_bind].
    unfold fuse_batch, enumerate. rewrite Hst. cbn [mbind Result_bind].
    fold cap. rewrite HstE', <- HE, Hrun. cbn [mbind Result_bind fst snd].
    reflexivity. }
  cbn [depadded_input_ids spliced_embeds final_image_idx new_input_embeds
       max_len padded].
  rewrite Hpad. cbn [padded_batch new_input_embeds_padded
                     attention_mask_padded position_ids_padded].
  repeat split; try done. unfold enumerate in *. lia.
Qed.

(** X11. Labels do not steer the fusion: a call that returns with labels
    also returns without them, and the two calls agree on everything but
    the labels: the depadded token ids, the spliced and capped embeddings,
    the image blocks drawn, the batch width, and the padded embeddings,
    attention mask and position ids. *)
Theorem labels_do_not_steer_fusion self input_ids attention_mask labels images fu :
  fuse self input_ids attention_mask (Some labels) images = Ok fu →
  ∃ fu',
    fuse self input_ids attention_mask None images = Ok fu'
    ∧ depadded_input_ids fu' = depadded_input_ids fu
    ∧ spliced_embeds fu' = spliced_embeds fu
    ∧ final_image_idx fu' = final_image_idx fu
    ∧ new_input_embeds fu' = new_input_embeds fu
    ∧ max_len fu' = max_len fu
    ∧ new_input_embeds_padded (padded fu') = new_input_embeds_padded (padded fu)
    ∧ attention_mask_padded (padded fu') = attention_mask_padded (padded fu)
    ∧ position_ids_padded (padded fu') = position_ids_padded (padded fu).
Proof. apply fuse_without_labels. Qed.

End FusionContent.

(** ** The loader end to end *)

Lemma eff_bind_Ok {A B} (m : Eff A) (f : A → Eff B) out out' b :
  (m ≫= f) out = (out', Ok b) →
  ∃ a o, m out = (o, Ok a) ∧ f a o = (out', Ok b).
Proof.
  rewrite eff_bind_run. destruct (m out) as [o [a|e]]; [eauto | discriminate].
Qed.

(** Peel a successful step off a run of the loader. *)
Tactic Notation "eff_inv" hyp(H) "as" ident(a) ident(o) ident(Ha) :=
  apply eff_bind_Ok in H as (a & o & Ha & H).

Lemma dict_get_del_ne {V} (d : list (string * V)) k k' :
  k ≠ k' → Py.dict_get (Py.dict_del d k) k' = Py.dict_get d k'.
Proof.
  intros Hne. induction d as [|[k0 v0] d IH]; [done|]. simpl.
  destruct (String.eqb k0 k) eqn:Hk.
  - apply String.eqb_eq in Hk as ->.
    by rewrite (proj2 (String.eqb_neq k k')).
  - simpl. by rewrite IH.
Qed.

Lemma dict_get_del_eq {V} (d : list (string * V)) k :
  NoDup (map fst d) → Py.dict_get (Py.dict_del d k) k = None.
Proof.
  induction d as [|[k0 v0] d IH]; [done|]. simpl. intros Hnd.
  apply NoDup_cons in Hnd as [Hk0 Hnd].
  destruct (String.eqb k0 k) eqn:Hk.
  - apply String.eqb_eq in Hk as ->. by apply dict_get_None.
  - simpl. rewrite Hk. by apply IH.
Qed.

Lemma dict_del_NoDup {V} (d : list (string * V)) k :
  NoDup (map fst d) → NoDup (map fst (Py.dict_del d k)).
Proof.
  induction d as [|[k0 v0] d IH]; [done|]. simpl. intros Hnd.
  apply NoDup_cons in Hnd as [Hk0 Hnd].
  destruct (String.eqb k0 k); [done|]. simpl. apply NoDup_cons.
  split; [|by apply IH].
  intros Hin. apply Hk0. clear -Hin.
  induction d as [|[k1 v1] d IH]; [done|]. simpl in *.
  destruct (String.eqb k1 k); [by right|].
  apply elem_of_cons in Hin as [->|Hin]; [by left | right; by apply IH].
Qed.

Lemma dict_del_absent {V} (d : list (string * V)) k :
  Py.dict_get d k = None → Py.dict_del d k = d.
Proof.
  induction d as [|[k0 v0] d IH]; [done|]. simpl.
  destruct (String.eqb k0 k); [discriminate|]. intros H. by rewrite IH.
Qed.

Section LoaderComposition.
Context {D : Domain} {C : Collaborators}.

(** X12. [get_value_from_kwargs] pops: it returns the value bound to the
    name ([None] for a name that is not there) and leaves every other
    keyword as it was; the name is gone afterwards, and keywords that did
    not hold the name are handed back unchanged. *)
Theorem get_value_from_kwargs_pops (kwargs : Kwargs) name :
  (get_value_from_kwargs kwargs name).1
  = default VNone (Py.dict_get kwargs name)
  ∧ (∀ k, k ≠ name →
       Py.dict_get (get_value_from_kwargs kwargs name).2 k
       = Py.dict_get kwargs k)
  ∧ (NoDup (map fst kwargs) →
     Py.dict_get (get_value_from_kwargs kwargs name).2 name = None)
  ∧ (Py.dict_get kwargs name = None →
     get_value_from_kwargs kwargs name = (VNone, kwargs)).
Proof.
  unfold get_value_from_kwargs.
  destruct (Py.dict_get kwargs name) as [v|] eqn:Hget; cbn [fst snd default].
  - split; [done|]. split; [|split; [|done]].
    + intros k Hk. by apply dict_get_del_ne.
    + apply dict_get_del_eq.
  - split; [done|]. split; [done|]. split; [|done]. by intros _.
Qed.

(** *** Grouping the manifest by shard *)

Lemma dict_get_Some_key {V} (d : list (string * V)) k v :
  Py.dict_get d k = Some v → k ∈ map fst d.
Proof.
  induction d as [|[k0 v0] d IH]; [done|]. simpl.
  destruct (String.eqb k0 k) eqn:Hk.
  - apply String.eqb_eq in Hk as ->. intros _. by left.
  - intros H. right. by apply IH.
Qed.

Lemma dict_set_fst {V} (d : list (string * V)) k v :
  map fst (Py.dict_set d k v)
  = map fst d ++ (if Py.dict_get d k is Some _ then [] else [k]).
Proof.
  induction d as [|[k0 v0] d IH]; [done|]. simpl.
  destruct (String.eqb k0 k) eqn:Hk; simpl.
  - by rewrite app_nil_r.
  - by rewrite IH.
Qed.

Lemma dict_set_NoDup {V} (d : list (string * V)) k v :
  NoDup (map fst d) → NoDup (map fst (Py.dict_set d k v)).
Proof.
  intros Hnd. rewrite dict_set_fst.
  destruct (Py.dict_get d k) as [w|] eqn:Hget; [by rewrite app_nil_r|].
  apply NoDup_app. split; [done|]. split; [|apply NoDup_singleton].
  intros k' Hk' ->%list_elem_of_singleton.
  apply list_elem_of_fmap in Hk' as ([k0 v0] & -> & Hin). simpl in Hget.
  clear Hnd. induction d as [|[k1 v1] d IH]; [by apply elem_of_nil in Hin|].
  simpl in Hget. destruct (String.eqb k1 k0) eqn:Hk; [discriminate|].
  apply elem_of_cons in Hin as [[= <- <-]|Hin]; [|by apply IH].
  by rewrite String.eqb_refl in Hk.
Qed.

Lemma group_step_NoDup G entry :
  NoDup (map fst G) → NoDup (map fst (group_step G entry)).
Proof.
  intros Hnd. unfold group_step. apply dict_set_NoDup.
  destruct (Py.dict_contains G entry.2); [done | by apply dict_set_NoDup].
Qed.

Lemma group_loop_NoDup wm : ∀ G,
  NoDup (map fst G) → NoDup (map fst (foldl group_step G wm)).
Proof.
  induction wm as [|e wm IH]; intros G Hnd; [done|].
  simpl. by apply IH, group_step_NoDup.
Qed.

(** X13. Every shard is opened once: the loader's grouping of the manifest
    names every shard file a single time, and a tensor is listed under a
    file exactly when the manifest places it there. *)
Theorem shards_grouped_once (wm : list (string * string)) :
  NoDup (map fst (group_by_file wm))
  ∧ ∀ t f, (t, f) ∈ wm
           ↔ ∃ names, (f, names) ∈ group_by_file wm ∧ t ∈ names.
Proof.
  split; [apply group_loop_NoDup; constructor|].
  intros t f. rewrite <- (group_by_file_flat wm). unfold flat_groups.
  rewrite list_elem_of_In, in_concat. split.
  - intros (l & Hl & Hin).
    apply list_elem_of_In, list_elem_of_fmap in Hl as ([f' names] & -> & Hg).
    apply list_elem_of_In, list_elem_of_fmap in Hin as (t' & [= -> ->] & Ht).
    by exists names.
  - intros (names & Hg & Ht). exists (map (λ t, (t, f)) names). split.
    + apply list_elem_of_In, list_elem_of_fmap. by exists (f, names).
    + apply list_elem_of_In, list_elem_of_fmap. by exists t.
Qed.

(** X14. The merge does not depend on the order in which the manifest
    lists its tensors: two manifests with the same entries give merged maps
    that agree at every name. *)
Theorem merge_order_irrelevant disk pretrained_path wm wm' out0 :
  wm ≡ₚ wm' → NoDup (map fst wm) →
  (∀ f, f ∈ map snd wm →
        isfile disk (Py.path_join pretrained_path f) = true →
        ∃ part, load_file disk (Py.path_join pretrained_path f) = Ok part) →
  ∃ full out full' out',
    merge_shards disk pretrained_path wm out0 = (out, Ok full)
    ∧ merge_shards disk pretrained_path wm' out0 = (out', Ok full')
    ∧ ∀ t, Py.dict_get full t = Py.dict_get full' t.
Proof.
  intros Hperm Hnd Hread.
  destruct (merge_shards_run disk pretrained_path wm out0 Hnd Hread)
    as (full & out & Hrun & Hin & Hout & _).
  destruct (merge_shards_run disk pretrained_path wm' out0)
    as (full' & out' & Hrun' & Hin' & Hout' & _).
  { by rewrite <- Hperm. }
  { intros f Hf. apply Hread. by rewrite Hperm. }
  exists full, out, full', out'. split; [done|]. split; [done|].
  intros t. destruct (decide (t ∈ map fst wm)) as [Ht|Ht].
  - apply list_elem_of_fmap in Ht as ([t' f] & -> & Htf). simpl.
    pose proof (Hin _ _ Htf) as H1.
    rewrite Hperm in Htf. pose proof (Hin' _ _ Htf) as H2.
    unfold shard_outcome in H1, H2.
    destruct (isfile disk (Py.path_join pretrained_path f)).
    + destruct H1 as (part & Hpart & H1). destruct H2 as (part' & Hpart' & H2).
      rewrite Hpart in Hpart'. injection Hpart' as <-.
      destruct (Py.dict_get part t') as [v|].
      * by rewrite H1, H2.
      * destruct H1 as [-> _]. by destruct H2 as [-> _].
    + destruct H1 as [-> _]. by destruct H2 as [-> _].
  - rewrite (Hout _ Ht). rewrite Hperm in Ht. by rewrite (Hout' _ Ht).
Qed.

(** *** A shard that cannot be read *)

Lemma merge_files_unreadable disk path G : ∀ full0 out0 g e,
  g ∈ G → isfile disk (Py.path_join path g.1) = true →
  load_file disk (Py.path_join path g.1) = Raise e →
  ∃ out e' g',
    foldM (merge_file disk path) full0 G out0 = (out, Raise e')
    ∧ g' ∈ G ∧ isfile disk (Py.path_join path g'.1) = true
    ∧ load_file disk (Py.path_join path g'.1) = Raise e'.
Proof.
  induction G as [|g0 G IH]; intros full0 out0 g e Hin Hfile Hload;
    [by apply elem_of_nil in Hin|].
  cbn [foldM]. rewrite eff_bind_run. unfold merge_file at 1.
  destruct (isfile disk (Py.path_join path g0.1)) eqn:Hfile0; cbn [negb].
  - eff_run. destruct (load_file disk (Py.path_join path g0.1))
      as [part|e0] eqn:Hload0.
    + destruct (merge_tensors_run (Py.path_join path g0.1) part g0.2 full0
                  (out0 ++ ["Loading part from " +:+ Py.path_join path g0.1]))
        as (full1 & out1 & -> & _).
      apply elem_of_cons in Hin as [->|Hin]; [congruence|].
      destruct (IH full1 out1 g e Hin Hfile Hload)
        as (out & e' & g' & Hrun & Hg' & Hfile' & Hload').
      exists out, e', g'. split; [done|]. split; [by right | done].
    + exists (out0 ++ ["Loading part from " +:+ Py.path_join path g0.1]), e0, g0.
      split; [done|]. split; [by left | done].
  - eff_run.
    apply elem_of_cons in Hin as [->|Hin]; [congruence|].
    edestruct (IH full0) as (out & e' & g' & Hrun & Hg' & Hfile' & Hload');
      [exact Hin | exact Hfile | exact Hload |].
    exists out, e', g'. split; [exact Hrun|]. split; [by right | done].
Qed.

(** X15. A shard that is missing is skipped with a warning, but a shard
    that is there and cannot be read aborts the merge: when [load_file]
    raises on a shard file the manifest names and the disk holds, the merge
    raises the exception of such a shard and yields no weight map. *)
Theorem unreadable_shard_aborts disk pretrained_path wm out0 t f e :
  (t, f) ∈ wm →
  isfile disk (Py.path_join pretrained_path f) = true →
  load_file disk (Py.path_join pretrained_path f) = Raise e →
  ∃ out e' f',
    merge_shards disk pretrained_path wm out0 = (out, Raise e')
    ∧ f' ∈ map snd wm
    ∧ isfile disk (Py.path_join pretrained_path f') = true
    ∧ load_file disk (Py.path_join pretrained_path f') = Raise e'.
Proof.
  intros Hin Hfile Hload. unfold merge_shards.
  rewrite <- (group_by_file_flat wm) in Hin. unfold flat_groups in Hin.
  apply list_elem_of_In, in_concat in Hin as (l & Hl & Hin).
  apply list_elem_of_In, list_elem_of_fmap in Hl as ([f0 names] & -> & Hg).
  apply list_elem_of_In, list_elem_of_fmap in Hin as (t' & [= -> ->] & Ht).
  destruct (merge_files_unreadable disk pretrained_path (group_by_file wm)
              [] out0 (f0, names) e Hg Hfile Hload)
    as (out & e' & g' & Hrun & Hg' & Hfile' & Hload').
  exists out, e', g'.1. split; [done|]. split; [|done].
  by apply group_by_file_keys.
Qed.

(** *** What each loader touches *)

Lemma eff_ret_Ok {A} (a b : A) out out' :
  (mret a : Eff A) out = (out', Ok b) → a = b ∧ out = out'.
Proof. rewrite eff_ret_run. by intros [= -> ->]. Qed.


(** X16. What [load_llm] does to the model, on every path that returns:
    the decoder is frozen, the tokenizer's pad token and pad token id are
    copied into the configuration, and the vision tower, the connector, the
    tokenizer and the settings the fusion reads are left as they were.
    Without a checkpoint map in the call, a [pretrained_llm_path] decides
    which decoder is loaded, whatever [model_name_or_path] says. *)
Theorem load_llm_effects self kwargs out out' m :
  load_llm self kwargs out = (out', Ok m) →
  language_model_requires_grad m = false
  ∧ pad_token (config m) = tokenizer_pad_token (tokenizer self)
  ∧ pad_token_id (config m) = tokenizer_pad_token_id (tokenizer self)
  ∧ vision_tower m = vision_tower self
  ∧ connector m = connector self
  ∧ tokenizer m = tokenizer self
  ∧ tune_mm_mlp_adapter (config m) = tune_mm_mlp_adapter (config self)
  ∧ tokenizer_model_max_length (config m)
    = tokenizer_model_max_length (config self)
  ∧ tokenizer_padding_side (config m) = tokenizer_padding_side (config self)
  ∧ (∀ path,
       Py.dict_get kwargs "full_state_dict" = None →
       Py.dict_get kwargs "pretrained_llm_path" = Some (VStr path) →
       ∃ kwargs',
         language_model_from_pretrained (language_model self) (VStr path) kwargs'
         = Ok (language_model m)).
Proof.
  intros Hrun. unfold load_llm in Hrun.
  eff_inv Hrun as r o Hr. apply eff_ret_Ok in Hrun as [<- _].
  do 9 (split; [reflexivity|]).
  intros path Hfull Hpath.
  cbn [language_model freeze_and_configure with_language_model].
  assert (get_value_from_kwargs kwargs "full_state_dict" = (VNone, kwargs))
    as G0 by (unfold get_value_from_kwargs; by rewrite Hfull).
  rewrite G0 in Hr. cbn [fst snd] in Hr.
  set (kw1 := (get_value_from_kwargs kwargs "model_name_or_path").2) in *.
  assert (Py.dict_get kw1 "pretrained_llm_path" = Some (VStr path)) as Hk1.
  { unfold kw1, get_value_from_kwargs.
    destruct (Py.dict_get kwargs "model_name_or_path"); cbn [snd]; [|done].
    by rewrite dict_get_del_ne. }
  assert (get_value_from_kwargs kw1 "pretrained_llm_path"
          = (VStr path, Py.dict_del kw1 "pretrained_llm_path")) as G1
    by (unfold get_value_from_kwargs; by rewrite Hk1).
  rewrite G1 in Hr. cbn [fst snd] in Hr.
  eff_inv Hr as lm o1 Hlm. rewrite lift_run in Hlm. injection Hlm as _ Hlm.
  eff_inv Hr as u o2 Hp. apply eff_ret_Ok in Hr as [<- _]. simpl. eauto.
Qed.

(** X17. What the other two loaders touch, on every path that returns:
    [load_vision_tower] replaces the vision tower and nothing else, and
    [load_connector] replaces the connector and nothing else. *)
Theorem component_loaders_frame self kwargs out out' m :
  (load_vision_tower self kwargs out = (out', Ok m) →
   ∃ vt, m = with_vision_tower self vt)
  ∧ (load_connector self kwargs out = (out', Ok m) →
     ∃ c, m = with_connector self c).
Proof.
  split; intros Hrun.
  - unfold load_vision_tower in Hrun.
    destruct (get_value_from_kwargs kwargs "full_state_dict").1.
    + eff_inv Hrun as vt o Hvt. eff_inv Hrun as vt' o1 Hload.
      eff_inv Hrun as u o2 Hp. apply eff_ret_Ok in Hrun as [<- _]. eauto.
    + eff_inv Hrun as u o Hp. eff_inv Hrun as d o1 Hd.
      unfold items, raise in Hd. discriminate.
    + eff_inv Hrun as u o Hp. eff_inv Hrun as d' o1 Hd.
      eff_inv Hrun as vt o2 Hvt.
      destruct (load_state_dict vt _ true) as [vt' [e|]].
      * eff_inv Hrun as u' o3 Hp'. rewrite raise_run in Hrun. discriminate.
      * eff_inv Hrun as u' o3 Hp'. apply eff_ret_Ok in Hrun as [<- _]. eauto.
    + eff_inv Hrun as u o Hp. eff_inv Hrun as d o1 Hd.
      unfold items, raise in Hd. discriminate.
  - unfold load_connector in Hrun.
    destruct (get_value_from_kwargs kwargs "full_state_dict").1.
    + eff_inv Hrun as c o Hc. eff_inv Hrun as u o1 Hp.
      apply eff_ret_Ok in Hrun as [<- _]. eauto.
    + eff_inv Hrun as u o Hp. eff_inv Hrun as d o1 Hd.
      unfold items, raise in Hd. discriminate.
    + eff_inv Hrun as u o Hp. eff_inv Hrun as d' o1 Hd.
      destruct (load_state_dict (connector self) _ true) as [c [e|]].
      * eff_inv Hrun as u1 o2 Hp1. eff_inv Hrun as u2 o3 Hp2.
        destruct (load_state_dict c _ false) as [c' [e'|]].
        -- rewrite raise_run in Hrun. discriminate.
        -- eff_inv Hrun as u3 o4 Hp3. apply eff_ret_Ok in Hrun as [<- _].
           eauto.
      * eff_inv Hrun as u1 o2 Hp1. apply eff_ret_Ok in Hrun as [<- _]. eauto.
    + eff_inv Hrun as u o Hp. eff_inv Hrun as d o1 Hd.
      unfold items, raise in Hd. discriminate.
Qed.

(** *** [from_pretrained] from the checkpoint to the model *)

Lemma load_llm_dict self kwargs full out :
  Py.dict_get kwargs "full_state_dict" = Some (VStateDict full) →
  load_llm self kwargs out
  = match load_state_dict (language_model self)
                          (route "language_model." 15 full) false with
    | (lm, None) =>
        (out ++ ["Loading language model weights from provided checkpoint (full_state_dict)...";
                 "Language model weights loaded successfully from full_state_dict."],
         Ok (freeze_and_configure (with_language_model self lm)
                                  (Py.dict_del kwargs "full_state_dict")))
    | (_, Some e) =>
        (out ++ ["Loading language model weights from provided checkpoint (full_state_dict)...";
                 "Error loading language model weights from full_state_dict: " +:+ e],
         Raise (RuntimeError e))
    end.
Proof.
  intros Hfull. unfold load_llm, get_value_from_kwargs. rewrite Hfull.
  cbn [fst snd items]. eff_run.
  destruct (load_state_dict _ _ false) as [lm [e|]]; eff_run;
    by rewrite <- (assoc_L (++)).
Qed.

Lemma load_vision_tower_dict self kwargs full vt out :
  Py.dict_get kwargs "full_state_dict" = Some (VStateDict full) →
  vision_tower self = Some vt →
  load_vision_tower self kwargs out
  = match load_state_dict vt (route "vision_tower." 13 full) true with
    | (vt', None) =>
        (out ++ ["Loading vision tower weights from provided checkpoint (full_state_dict)...";
                 "Vision tower weights loaded successfully from full_state_dict."],
         Ok (with_vision_tower self vt'))
    | (_, Some e) =>
        (out ++ ["Loading vision tower weights from provided checkpoint (full_state_dict)...";
                 "Error loading vision tower weights from full_state_dict: " +:+ e],
         Raise (RuntimeError e))
    end.
Proof.
  intros Hfull Hvt.
  unfold load_vision_tower, the_vision_tower, get_value_from_kwargs.
  rewrite Hfull, Hvt. cbn [fst snd items]. eff_run.
  destruct (load_state_dict _ _ true) as [vt' [e|]]; eff_run;
    by rewrite <- (assoc_L (++)).
Qed.

Lemma load_connector_dict self kwargs full out :
  Py.dict_get kwargs "full_state_dict" = Some (VStateDict full) →
  load_connector self kwargs out
  = match load_state_dict (connector self) (route "connector." 10 full) true with
    | (c, None) =>
        (out ++ ["Loading connector weights from provided checkpoint (full_state_dict)...";
                 "Connector weights loaded successfully from full_state_dict."],
         Ok (with_connector self c))
    | (c, Some e) =>
        match load_state_dict c (route "connector." 10 full) false with
        | (c', None) =>
            (out ++ ["Loading connector weights from provided checkpoint (full_state_dict)...";
                     "Error loading connector weights with strict=True from full_state_dict: " +:+ e;
                     "Attempting to load with strict=False.";
                     "Connector weights loaded successfully with strict=False from full_state_dict."],
             Ok (with_connector self c'))
        | (_, Some e') =>
            (out ++ ["Loading connector weights from provided checkpoint (full_state_dict)...";
                     "Error loading connector weights with strict=True from full_state_dict: " +:+ e;
                     "Attempting to load with strict=False."],
             Raise (RuntimeError e'))
        end
    end.
Proof.
  intros Hfull. unfold load_connector, get_value_from_kwargs. rewrite Hfull.
  cbn [fst snd items]. eff_run.
  destruct (load_state_dict _ _ true) as [c [e|]]; eff_run.
  - destruct (load_state_dict c _ false) as [c' [e'|]]; eff_run;
      by rewrite <- !(assoc_L (++)).
  - by rewrite <- (assoc_L (++)).
Qed.

(** The three loads that follow a checkpoint that was found. *)
Lemma from_pretrained_found disk model_config kwargs pretrained_path full
    out out1 :
  Py.dict_get kwargs "pretrained_model_path" = Some (VStr pretrained_path) →
  find_checkpoint disk pretrained_path out
  = (out1, Ok (Bound (VStateDict full))) →
  let kwargs' :=
    Py.dict_set (Py.dict_del kwargs "pretrained_model_path")
                "full_state_dict" (VStateDict full) in
  from_pretrained disk model_config kwargs out
  = (model ← load_llm (init model_config) kwargs';
     model ← load_vision_tower model kwargs';
     model ← load_connector model kwargs';
     print "All components (LLM, Vision Tower, Connector) loaded from model.safetensors successfully.";;
     mret model) out1.
Proof.
  intros Hpath Hfind kwargs'.
  unfold from_pretrained, get_value_from_kwargs. rewrite Hpath.
  cbn [fst snd as_path]. eff_run. rewrite Hfind. by eff_run.
Qed.

Lemma torch_dtype_kept (kwargs : Kwargs) v :
  Py.dict_get
    (Py.dict_del
       (Py.dict_set (Py.dict_del kwargs "pretrained_model_path")
                    "full_state_dict" v)
       "full_state_dict")
    "torch_dtype"
  = Py.dict_get kwargs "torch_dtype".
Proof.
  rewrite dict_get_del_ne by done. rewrite dict_get_set_ne by done.
  by rewrite dict_get_del_ne.
Qed.

(** X18. [from_pretrained] on a checkpoint that was found: when the decoder
    takes its part of the weight map (permissively), the vision tower takes
    its part strictly, and the connector takes its part strictly or, after
    a strict failure, permissively, the call returns the model built from
    the configuration with the three loaded components, the decoder frozen,
    and its report ends with the line that all components were loaded. *)
Theorem from_pretrained_loads_all disk model_config kwargs pretrained_path
    full out out1 lm vt c oe c' :
  Py.dict_get kwargs "pretrained_model_path" = Some (VStr pretrained_path) →
  find_checkpoint disk pretrained_path out
  = (out1, Ok (Bound (VStateDict full))) →
  load_state_dict (LLMFactory model_config)
                  (route "language_model." 15 full) false = (lm, None) →
  load_state_dict (VisionTowerFactory model_config)
                  (route "vision_tower." 13 full) true = (vt, None) →
  load_state_dict (ConnectorFactory model_config)
                  (route "connector." 10 full) true = (c, oe) →
  match oe with
  | None => c' = c
  | Some _ => load_state_dict c (route "connector." 10 full) false = (c', None)
  end →
  ∃ out',
    from_pretrained disk model_config kwargs out
    = (out', Ok (loaded_model model_config kwargs lm vt c'))
    ∧ out1 `prefix_of` out'
    ∧ last out'
      = Some "All components (LLM, Vision Tower, Connector) loaded from model.safetensors successfully.".
Proof.
  intros Hpath Hfind Hlm Hvt Hc Hc'.
  rewrite (from_pretrained_found _ _ _ _ _ _ _ Hpath Hfind).
  rewrite eff_bind_run, (load_llm_dict _ _ full) by apply dict_get_set_eq.
  cbn [language_model init]. rewrite Hlm. cbn beta iota.
  rewrite eff_bind_run, (load_vision_tower_dict _ _ full (VisionTowerFactory model_config))
    by (apply dict_get_set_eq || reflexivity).
  rewrite Hvt. cbn beta iota.
  rewrite eff_bind_run, (load_connector_dict _ _ full) by apply dict_get_set_eq.
  cbn [connector with_vision_tower freeze_and_configure with_language_model
       init].
  rewrite Hc. destruct oe as [e|].
  - rewrite Hc'. cbn beta iota. eff_run. eexists. split.
    + unfold loaded_model, with_connector. cbn. rewrite torch_dtype_kept.
      reflexivity.
    + split; [|by rewrite last_snoc].
      rewrite <- !(assoc_L (++)). by apply prefix_app_r.
  - subst c'. cbn beta iota. eff_run. eexists. split.
    + unfold loaded_model, with_connector. cbn. rewrite torch_dtype_kept.
      reflexivity.
    + split; [|by rewrite last_snoc].
      rewrite <- !(assoc_L (++)). by apply prefix_app_r.
Qed.


End LoaderComposition.

(** ** What the decoder is handed *)

Section EntryPoints.
Context {D : Domain} {C : Collaborators} {G : Decoder}.

Local Abbreviation vec := (list scalar).

(** The tensors of a fused tuple have one shape: as many rows as there are
    samples, each [max_len] wide. *)
Lemma fused_output_shapes self input_ids position_ids attention_mask
    past_key_values labels images fu :
  fuse self input_ids attention_mask labels images = Ok fu →
  let p := fused_output position_ids attention_mask past_key_values labels fu in
  let E := new_input_embeds_padded (padded fu) in
  length E = length (depadded_input_ids fu)
  ∧ Forall (λ row, length row = max_len fu) E
  ∧ ∀ t, out_attention_mask p = Some t ∨ out_position_ids p = Some t
         ∨ out_labels p = Some t →
         shape1 t = max_len fu ∧ length (rows t) = length E ∧ wf t.
Proof.
  intros Hfu p E. subst p E.
  destruct (fuse_padded _ _ _ _ _ _ Hfu) as (_ & Hsame & Hlen & Hmax & Hpad).
  pose proof (max_Ok _ _ Hmax) as Hle. rewrite Forall_fmap in Hle.
  assert (Forall (λ l : list Z, length l ≤ max_len fu) (new_labels fu)) as HleL.
  { apply Forall_forall. intros l [i Hl]%list_elem_of_lookup.
    destruct (Forall2_lookup_r _ _ _ _ _ Hsame Hl) as (e & He & Hel).
    rewrite <- Hel. rewrite Forall_forall in Hle.
    apply Hle. by eapply list_elem_of_lookup_2. }
  unfold fused_output. cbn [out_attention_mask out_position_ids out_labels].
  rewrite Hpad. cbn [padded_batch new_input_embeds_padded new_labels_padded
                     attention_mask_padded position_ids_padded].
  split; [by rewrite length_map|]. split.
  { apply Forall_fmap. eapply Forall_impl; [exact Hle|].
    intros e He. simpl. by apply length_pad_row. }
  intros t [Ht|[Ht|Ht]].
  - destruct attention_mask as [am|]; [|discriminate].
    injection Ht as <-. cbn. split; [done|].
    split; [by rewrite !length_map|].
    unfold wf. cbn. apply Forall_fmap, Forall_fmap.
    eapply Forall_impl; [exact Hle|]. intros e He. simpl.
    rewrite length_map. apply length_pad_row. by rewrite length_replicate.
  - destruct position_ids as [pi|]; [|discriminate].
    injection Ht as <-. cbn. split; [done|].
    split; [by rewrite !length_map|].
    unfold wf. cbn. apply Forall_fmap.
    eapply Forall_impl; [exact Hle|]. intros e He. simpl.
    apply length_pad_row. by rewrite length_arange.
  - destruct labels as [lb|]; [|discriminate].
    injection Ht as <-. cbn. split; [done|].
    split; [rewrite !length_map; symmetry; by eapply Forall2_length|].
    unfold wf. cbn. apply Forall_fmap.
    eapply Forall_impl; [exact HleL|]. intros l Hl. simpl.
    by apply length_pad_row.
Qed.

(** X20. What [forward] hands the decoder when it is called with token ids
    and no embeddings: an exception of the fusion routine leaves [forward]
    before the decoder is called; otherwise the decoder receives the
    routine's tuple with the caller's cache and flags ([use_cache] from the
    configuration when the caller passed none), which is either the
    caller's own inputs with no embeddings, or no token ids and a batch of
    embeddings whose rows, like the rows of the attention mask, position
    ids and labels that go with it, all have the same count and width. *)
Theorem forward_hands_over self ids attention_mask position_ids
    past_key_values labels use_cache output_attentions output_hidden_states
    images image_sizes return_dict :
  let use_cache' :=
    match use_cache with
    | Some b => Some b
    | None => config_use_cache (config self)
    end in
  let call :=
    forward self (Some ids) attention_mask position_ids past_key_values None
            labels use_cache output_attentions output_hidden_states images
            image_sizes return_dict in
  match prepare_inputs_labels_for_multimodal self ids position_ids
          attention_mask past_key_values labels images with
  | Raise e => call = Raise e
  | Ok p =>
      call
      = language_model_forward (language_model self)
          (mkForwardArgs (out_input_ids p) (out_attention_mask p)
             (out_position_ids p) past_key_values (out_inputs_embeds p)
             (out_labels p) use_cache' output_attentions
             output_hidden_states return_dict)
      ∧ ((out_input_ids p = Some ids ∧ out_inputs_embeds p = None
          ∧ out_attention_mask p = attention_mask
          ∧ out_position_ids p = position_ids ∧ out_labels p = labels)
         ∨ (out_input_ids p = None
            ∧ ∃ E m,
                out_inputs_embeds p = Some E
                ∧ Forall (λ row, length row = m) E
                ∧ ∀ t, out_attention_mask p = Some t
                       ∨ out_position_ids p = Some t
                       ∨ out_labels p = Some t →
                       shape1 t = m ∧ length (rows t) = length E ∧ wf t))
  end.
Proof.
  intros use_cache' call. subst use_cache' call.
  unfold forward, call_prepare_inputs_labels_for_multimodal.
  destruct (prepare_inputs_labels_for_multimodal _ _ _ _ _ _ _)
    as [p|e] eqn:Hp; [|done].
  cbn [mbind Result_bind].
  destruct (prepare_inv _ _ _ _ _ _ _ _ Hp)
    as [[_ ->]|(vt & imgs & fu & _ & _ & _ & Hfu & ->)].
  - split; [done|]. left. by repeat split.
  - split; [done|]. right. split; [done|].
    destruct (fused_output_shapes self ids position_ids attention_mask
                past_key_values labels imgs fu Hfu) as (_ & HE & Ht).
    by exists (new_input_embeds_padded (padded fu)), (max_len fu).
Qed.

(** X21. [generate] by cases: an [inputs_embeds] keyword is refused with
    [NotImplementedError] whatever else the call holds; without images the
    decoder generates from the embedding of every token of every row, with
    the caller's position ids, attention mask and other keywords; with
    images it generates from the position ids, attention mask and
    embeddings of the fusion routine, called without labels and without a
    cache, and when that routine short-circuits (no vision tower, or token
    ids one column wide) the decoder is handed no embeddings at all. *)
Theorem generate_dispatch self inputs images image_sizes position_ids
    attention_mask kwargs :
  let call :=
    generate self inputs images image_sizes position_ids attention_mask
             kwargs in
  (Py.dict_contains kwargs "inputs_embeds" = true →
   call = Raise NotImplementedError)
  ∧ (Py.dict_contains kwargs "inputs_embeds" = false →
     (∀ t, inputs = Some t → images = None →
        call
        = language_model_generate (language_model self) position_ids
            attention_mask (Some (map (get_input_embeddings self) (rows t)))
            kwargs)
     ∧ (∀ ids imgs, inputs = Some ids → images = Some imgs →
          match prepare_inputs_labels_for_multimodal self ids position_ids
                  attention_mask None None (Some imgs) with
          | Raise e => call = Raise e
          | Ok p =>
              call
              = language_model_generate (language_model self)
                  (out_position_ids p) (out_attention_mask p)
                  (out_inputs_embeds p) kwargs
              ∧ out_labels p = None ∧ out_past_key_values p = None
          end)
     ∧ (∀ ids imgs, inputs = Some ids → images = Some imgs →
          vision_tower self = None ∨ shape1 ids = 1 →
          call
          = language_model_generate (language_model self) position_ids
              attention_mask None kwargs)).
Proof.
  intros call. subst call. unfold generate. split; [by intros ->|].
  intros ->. split; [|split].
  - by intros t -> ->.
  - intros ids imgs -> ->. cbn [call_prepare_inputs_labels_for_multimodal].
    destruct (prepare_inputs_labels_for_multimodal _ _ _ _ _ _ _)
      as [p|e] eqn:Hp; [|done].
    cbn [mbind Result_bind]. split; [done|].
    destruct (prepare_inv _ _ _ _ _ _ _ _ Hp)
      as [[_ ->]|(vt & imgs' & fu & _ & _ & _ & _ & ->)]; by split.
  - intros ids imgs -> -> Hshort.
    cbn [call_prepare_inputs_labels_for_multimodal].
    unfold prepare_inputs_labels_for_multimodal.
    destruct Hshort as [->| Hone]; [done|].
    destruct (vision_tower self); [|done]. by rewrite decide_True.
Qed.

(** X22. [generate] fuses as [forward] does: when [forward], called with
    labels, runs the fusion path, [generate] on the same token ids,
    attention mask, position ids and images runs it as well, and the
    decoder is handed the same embeddings, attention mask and position ids
    by both. *)
Theorem generate_fuses_like_forward self ids attention_mask position_ids
    past_key_values labels use_cache output_attentions output_hidden_states
    imgs image_sizes return_dict kwargs vt fu :
  vision_tower self = Some vt → shape1 ids ≠ 1 →
  Py.dict_contains kwargs "inputs_embeds" = false →
  fuse self ids attention_mask (Some labels) imgs = Ok fu →
  let E := new_input_embeds_padded (padded fu) in
  let M :=
    (λ _, of_bool (mkTensor2 (max_len fu) (attention_mask_padded (padded fu))))
      <$> attention_mask in
  let P :=
    (λ _, mkTensor2 (max_len fu) (position_ids_padded (padded fu)))
      <$> position_ids in
  forward self (Some ids) attention_mask position_ids past_key_values None
          (Some labels) use_cache output_attentions output_hidden_states
          (Some imgs) image_sizes return_dict
  = language_model_forward (language_model self)
      (mkForwardArgs None M P past_key_values (Some E)
         (Some (mkTensor2 (max_len fu) (new_labels_padded (padded fu))))
         (match use_cache with
          | Some b => Some b
          | None => config_use_cache (config self)
          end)
         output_attentions output_hidden_states return_dict)
  ∧ generate self (Some ids) (Some imgs) image_sizes position_ids
             attention_mask kwargs
    = language_model_generate (language_model self) P M (Some E) kwargs.
Proof.
  intros Hvt Hshape Hkw Hfu E M P. subst E M P. split.
  - unfold forward, call_prepare_inputs_labels_for_multimodal,
      prepare_inputs_labels_for_multimodal.
    rewrite Hvt, decide_False, Hfu by done. cbn [mbind Result_bind].
    by destruct attention_mask, position_ids.
  - destruct (fuse_without_labels _ _ _ _ _ _ Hfu)
      as (fu' & Hfu' & _ & _ & _ & _ & Hm & HE & HM & HP).
    unfold generate, call_prepare_inputs_labels_for_multimodal,
      prepare_inputs_labels_for_multimodal.
    rewrite Hkw, Hvt, decide_False, Hfu' by done. cbn [mbind Result_bind].
    cbn [out_position_ids out_attention_mask out_inputs_embeds].
    rewrite Hm, HE, HM, HP. by destruct attention_mask, position_ids.
Qed.

(** X23. [prepare_inputs_for_generation] carries the images round the
    decoder: the decoder prepares its inputs from keywords that no longer
    hold [images] and [image_sizes]; an [images] or [image_sizes] value that
    is not [None] is written into the prepared inputs under its name; one
    that is [None] or left out is not, and every other entry of the
    prepared inputs is the decoder's. *)
Theorem prepare_inputs_for_generation_images self input_ids past_key_values
    inputs_embeds kwargs inputs :
  prepare_inputs_for_generation self input_ids past_key_values inputs_embeds
    kwargs = Ok inputs →
  ∃ base,
    language_model_prepare_inputs_for_generation (language_model self)
      input_ids past_key_values inputs_embeds
      (Py.dict_del (Py.dict_del kwargs "images") "image_sizes")
    = Ok base
    ∧ (∀ name, name = "images" ∨ name = "image_sizes" →
         match Py.dict_get kwargs name with
         | None | Some GNone =>
             Py.dict_get inputs name = Py.dict_get base name
         | Some v => Py.dict_get inputs name = Some v
         end)
    ∧ (∀ k, k ≠ "images" → k ≠ "image_sizes" →
         Py.dict_get inputs k = Py.dict_get base k)
    ∧ (NoDup (map fst kwargs) →
       Py.dict_get (Py.dict_del (Py.dict_del kwargs "images") "image_sizes")
                   "images" = None
       ∧ Py.dict_get (Py.dict_del (Py.dict_del kwargs "images") "image_sizes")
                     "image_sizes" = None).
Proof.
  unfold prepare_inputs_for_generation. intros Hrun.
  ok_inv Hrun as base Hbase. injection Hrun as <-.
  exists base. split; [done|].
  rewrite (dict_get_del_ne kwargs "images" "image_sizes") by done.
  set (set_images :=
         match default GNone (Py.dict_get kwargs "images") with
         | GNone => base
         | _ => Py.dict_set base "images"
                  (default GNone (Py.dict_get kwargs "images"))
         end).
  assert (∀ k, k ≠ "images" → Py.dict_get set_images k = Py.dict_get base k)
    as Hother.
  { intros k Hk. unfold set_images.
    destruct (default GNone (Py.dict_get kwargs "images"));
      by rewrite ?dict_get_set_ne. }
  split; [|split].
  - intros name [->| ->].
    + assert (Py.dict_get
                match default GNone (Py.dict_get kwargs "image_sizes") with
                | GNone => set_images
                | _ => Py.dict_set set_images "image_sizes"
                         (default GNone (Py.dict_get kwargs "image_sizes"))
                end "images"
              = Py.dict_get set_images "images") as ->.
      { destruct (default GNone (Py.dict_get kwargs "image_sizes"));
          by rewrite ?dict_get_set_ne. }
      unfold set_images.
      destruct (Py.dict_get kwargs "images") as [[]|]; simpl;
        by rewrite ?dict_get_set_eq.
    + destruct (Py.dict_get kwargs "image_sizes") as [[]|]; simpl;
        rewrite ?dict_get_set_eq; try done; by apply Hother.
  - intros k Hk1 Hk2.
    destruct (default GNone (Py.dict_get kwargs "image_sizes"));
      rewrite ?dict_get_set_ne by done; by apply Hother.
  - intros Hnd. split.
    + rewrite dict_get_del_ne by done. by apply dict_get_del_eq.
    + apply dict_get_del_eq. by apply dict_del_NoDup.
Qed.

End EntryPoints.

(** ** The claims on the concrete model *)

(** Membership in a list that is written out. *)
Ltac elem_of_concrete :=
  repeat first [ apply list_elem_of_here | apply list_elem_of_further ].

(** The scenario of two samples, one with an image of two patches and one
    without: fused lengths 4 and 1, padded to 4 on the right. *)
Example sample_fuse_right :
  fuse Sample.model Sample.input_ids (Some Sample.attention_mask)
       (Some Sample.labels) Sample.images = Ok Sample.fused.
Proof. reflexivity. Qed.

(** The same samples capped at 3 positions and padded on the left. *)
Example sample_fuse_left :
  fuse Sample.model_left Sample.input_ids (Some Sample.attention_mask)
       (Some Sample.labels) Sample.images = Ok Sample.fused_left.
Proof. reflexivity. Qed.

(** Two shards holding one tensor each are merged into a map of both. *)
Example merge_two_shards :
  merge_shards (Sample.disk_two true) "dir" Sample.manifest_two []
  = (["Loading part from dir/shard1.bin"; "Loading part from dir/shard2.bin"],
     Ok [("w1", 1%Z); ("w2", 2%Z)]).
Proof. reflexivity. Qed.

(** With the second shard missing the merge still returns, without [w2]. *)
Example merge_missing_shard :
  merge_shards (Sample.disk_two false) "dir" Sample.manifest_two []
  = (["Loading part from dir/shard1.bin";
      "Warning: Expected safetensors file dir/shard2.bin not found."],
     Ok [("w1", 1%Z)]).
Proof. reflexivity. Qed.

Lemma fusion_length_invariant_witness :
  fuse Sample.model Sample.input_ids (Some Sample.attention_mask)
       (Some Sample.labels) Sample.images = Ok Sample.fused
  ∧ Forall2 (λ e l, length e = length l)
            (spliced_embeds Sample.fused) (spliced_labels Sample.fused)
  ∧ Forall2 (λ e l, length e = length l)
            (new_input_embeds Sample.fused) (new_labels Sample.fused)
  ∧ Forall2 (λ e l, length e = 4 ∧ length l = 4)
            (new_input_embeds_padded (padded Sample.fused))
            (new_labels_padded (padded Sample.fused))
  ∧ length (new_input_embeds_padded (padded Sample.fused)) = 2.
Proof.
  split; [reflexivity|].
  destruct (fusion_length_invariant Sample.model Sample.input_ids
              (Some Sample.attention_mask) (Some Sample.labels) Sample.images
              Sample.fused) as (Hspliced & Hcapped & Hpadded & Hrows & _);
    [reflexivity|].
  split; [exact Hspliced|]. split; [exact Hcapped|].
  split; [exact Hpadded | exact Hrows].
Defined.

Lemma padding_correctness_witness :
  ∃ pe pl pm,
    new_input_embeds_padded (padded Sample.fused) !! 1 = Some pe
    ∧ new_labels_padded (padded Sample.fused) !! 1 = Some pl
    ∧ attention_mask_padded (padded Sample.fused) !! 1 = Some pm
    ∧ length pe = 4 ∧ length pl = 4 ∧ length pm = 4 ∧ 1 ≤ 4
    ∧ ("right" ≠ "left" →
       take 1 pe = [[9; 9; 9; 9]%Z] ∧ take 1 pl = [9%Z]
       ∧ (∀ j, j < 1 → pm !! j = Some true)
       ∧ (∀ j, 1 ≤ j < 4 →
            pe !! j = Some [0; 0; 0; 0]%Z
            ∧ pl !! j = Some (-100)%Z
            ∧ pm !! j = Some false))
    ∧ ("right" = "left" →
       drop (4 - 1) pe = [[9; 9; 9; 9]%Z] ∧ drop (4 - 1) pl = [9%Z]
       ∧ (∀ j, j < 1 → pm !! (4 - 1 + j) = Some true)
       ∧ (∀ j, j < 4 - 1 →
            pe !! j = Some [0; 0; 0; 0]%Z
            ∧ pl !! j = Some (-100)%Z
            ∧ pm !! j = Some false)).
Proof.
  apply (padding_correctness Sample.model Sample.input_ids
           (Some Sample.attention_mask) (Some Sample.labels) Sample.images
           Sample.fused 1 [[9; 9; 9; 9]%Z] [9%Z]); reflexivity.
Defined.

Lemma position_ids_restart_witness :
  ∃ pp pm,
    position_ids_padded (padded Sample.fused_left) !! 1 = Some pp
    ∧ attention_mask_padded (padded Sample.fused_left) !! 1 = Some pm
    ∧ length pp = 3
    ∧ ∀ j, j < 1 →
        pp !! (2 + j) = Some (Z.of_nat j) ∧ pm !! (2 + j) = Some true.
Proof.
  apply (position_ids_restart Sample.model_left Sample.input_ids
           (Some Sample.attention_mask) (Some Sample.labels) Sample.images
           Sample.fused_left 1 [[9; 9; 9; 9]%Z]); reflexivity.
Defined.

(** C4, as stated, fails on a sample without sentinels: the cursor moves
    from 0 to 1 although the sample holds no image placeholder. *)
Lemma sentinel_conservation_counterexample :
  num_images [9%Z] = 0
  ∧ fuse_sample Sample.model Sample.images [[9%Z]] 0 0 [9%Z]
    = Ok ([[9; 9; 9; 9]%Z], [9%Z], 1)
  ∧ 1 - 0 ≠ num_images [9%Z].
Proof. split; [reflexivity|]. split; [reflexivity|]. discriminate. Qed.

Lemma sentinel_conservation_witness :
  fuse_sample Sample.model Sample.images [[5; -200; 7]%Z] 0 0 [5; -200; 7]%Z
  = Ok ([[5; 5; 5; 5]; [100; 100; 100; 100]; [101; 101; 101; 101]; [7; 7; 7; 7]]%Z,
        [5; -100; -100; 7]%Z, 1)
  ∧ 0 ≤ 1
  ∧ (0 < num_images [5; -200; 7]%Z → 1 - 0 = num_images [5; -200; 7]%Z)
  ∧ (num_images [5; -200; 7]%Z = 0 →
     1 - 0 = 1
     ∧ [[5; 5; 5; 5]; [100; 100; 100; 100]; [101; 101; 101; 101]; [7; 7; 7; 7]]%Z
       = get_input_embeddings Sample.model [5; -200; 7]%Z).
Proof.
  split; [reflexivity|].
  apply (sentinel_conservation Sample.model Sample.images [[5; -200; 7]%Z] 0 0
           [5; -200; 7]%Z
           ([[5; 5; 5; 5]; [100; 100; 100; 100]; [101; 101; 101; 101];
             [7; 7; 7; 7]]%Z, [5; -100; -100; 7]%Z, 1)).
  reflexivity.
Defined.

Lemma passthrough_without_fusion_witness :
  prepare_inputs_labels_for_multimodal Sample.model Sample.input_ids
    (Some Sample.position_ids) (Some Sample.attention_mask) None
    (Some Sample.labels) None
  = Ok (mkPrepared (Some Sample.input_ids) (Some Sample.position_ids)
                   (Some Sample.attention_mask) None None (Some Sample.labels)).
Proof.
  apply (passthrough_without_fusion Sample.model Sample.input_ids
           (Some Sample.position_ids) (Some Sample.attention_mask) None
           (Some Sample.labels) None).
  right. left. reflexivity.
Defined.

Lemma absence_propagation_witness :
  prepare_inputs_labels_for_multimodal Sample.model Sample.input_ids
    None None None None (Some Sample.images) = Ok Sample.prepared_bare
  ∧ out_attention_mask Sample.prepared_bare = None
  ∧ out_labels Sample.prepared_bare = None
  ∧ out_position_ids Sample.prepared_bare = None.
Proof.
  assert (prepare_inputs_labels_for_multimodal Sample.model Sample.input_ids
            None None None None (Some Sample.images) = Ok Sample.prepared_bare)
    as Hrun by reflexivity.
  split; [exact Hrun|].
  destruct (absence_propagation Sample.model Sample.input_ids None None None
              None (Some Sample.images) Sample.prepared_bare Hrun)
    as (Hm & Hl & Hp & _).
  split; [exact (Hm eq_refl)|]. split; [exact (Hl eq_refl) | exact (Hp eq_refl)].
Defined.

Lemma fusion_returns_no_token_ids_witness :
  prepare_inputs_labels_for_multimodal Sample.model Sample.input_ids
    (Some Sample.position_ids) (Some Sample.attention_mask) None
    (Some Sample.labels) (Some Sample.images) = Ok Sample.prepared
  ∧ out_input_ids Sample.prepared = None
  ∧ is_Some (out_inputs_embeds Sample.prepared).
Proof.
  assert (prepare_inputs_labels_for_multimodal Sample.model Sample.input_ids
            (Some Sample.position_ids) (Some Sample.attention_mask) None
            (Some Sample.labels) (Some Sample.images) = Ok Sample.prepared)
    as Hrun by reflexivity.
  split; [exact Hrun|].
  apply (fusion_returns_no_token_ids Sample.model Sample.input_ids
           (Some Sample.position_ids) (Some Sample.attention_mask) None
           (Some Sample.labels) (Some Sample.images) Sample.prepared Hrun);
    discriminate.
Defined.

Lemma shard_merge_completeness_witness :
  ∃ full out,
    find_checkpoint Sample.disk "ckpt" [] = (out, Ok (Bound (VStateDict full)))
    ∧ Py.dict_get full "language_model.w" = Some 1%Z
    ∧ Py.dict_get full "connector.c" = Some 3%Z
    ∧ (Py.dict_get full "vision_tower.v" = None
       ∧ "Warning: Tensor vision_tower.v not found in ckpt/shard2" ∈ out)
    ∧ (Py.dict_get full "lost" = None
       ∧ "Warning: Expected safetensors file ckpt/shard3 not found." ∈ out).
Proof.
  assert (isfile Sample.disk "ckpt" && Py.endswith "ckpt" ".safetensors" = false)
    as Hnofile by reflexivity.
  assert (isdir Sample.disk "ckpt" = true) as Hdir by reflexivity.
  assert (isfile Sample.disk (Py.path_join "ckpt" "model.safetensors") = false)
    as Hsingle by reflexivity.
  assert (isfile Sample.disk (Py.path_join "ckpt" "model.safetensors.index.json")
          = true) as Hindex by reflexivity.
  assert (json_load Sample.disk (Py.path_join "ckpt" "model.safetensors.index.json")
          = Ok (mkIndexData (Some Sample.manifest))) as Hjson by reflexivity.
  assert (NoDup (map fst Sample.manifest)) as Hnd.
  { apply (bool_decide_unpack _). vm_compute. exact I. }
  assert (∀ f, f ∈ map snd Sample.manifest →
               isfile Sample.disk (Py.path_join "ckpt" f) = true →
               ∃ part, load_file Sample.disk (Py.path_join "ckpt" f) = Ok part)
    as Hread.
  { intros f Hin Hfile. simpl in Hin.
    repeat (apply elem_of_cons in Hin as [->|Hin]);
      [by eexists| by eexists | by eexists | discriminate
      | by apply elem_of_nil in Hin]. }
  destruct (shard_merge_completeness Sample.disk "ckpt" Sample.manifest []
              Hnofile Hdir Hsingle Hindex Hjson Hnd Hread)
    as (full & out & Hrun & Hhit & Hmissing & Hnotensor & _).
  exists full, out. split; [exact Hrun|].
  split.
  { apply (Hhit "language_model.w" "shard1"
             [("language_model.w", 1%Z); ("connector.c", 3%Z)] 1%Z);
      [elem_of_concrete | reflexivity..]. }
  split.
  { apply (Hhit "connector.c" "shard1"
             [("language_model.w", 1%Z); ("connector.c", 3%Z)] 3%Z);
      [elem_of_concrete | reflexivity..]. }
  split.
  { apply (Hnotensor "vision_tower.v" "shard2" [("other", 9%Z)]);
      [elem_of_concrete | reflexivity..]. }
  apply (Hmissing "lost" "shard3"); [elem_of_concrete | reflexivity].
Defined.

(** C8. In a directory that holds neither a consolidated file nor a
    manifest, the loader does not reach the standalone loaders: the test
    of [full_state_dict] raises, nothing having been printed or loaded. *)
Theorem no_checkpoint_raises :
  from_pretrained Sample.disk Sample.config_right
    [("pretrained_model_path", VStr "bare")] []
  = ([], Raise (UnboundLocalError "full_state_dict"))
  ∧ from_pretrained Sample.disk Sample.config_right
      [("pretrained_model_path", VStr "nowhere")] []
    = ([], Raise (UnboundLocalError "full_state_dict")).
Proof. split; reflexivity. Qed.

(** C9, as stated, fails for the vision encoder: a strict load that raises
    is not retried, although the permissive load of the same entries would
    have gone through; and the connector is first loaded strictly. *)
Lemma component_load_strictness_counterexample :
  load_vision_tower Sample.model
    Sample.kwargs_extra []
  = (["Loading vision tower weights from provided checkpoint (full_state_dict)...";
      "Error loading vision tower weights from full_state_dict: Error(s) in loading state_dict"],
     Raise (RuntimeError "Error(s) in loading state_dict"))
  ∧ load_state_dict [("v", 0%Z)] (route "vision_tower." 13 Sample.merged_extra) false
    = ([("v", 2%Z)], None)
  ∧ load_connector Sample.model
      Sample.kwargs_extra []
    = (["Loading connector weights from provided checkpoint (full_state_dict)...";
        "Error loading connector weights with strict=True from full_state_dict: Error(s) in loading state_dict";
        "Attempting to load with strict=False.";
        "Connector weights loaded successfully with strict=False from full_state_dict."],
       Ok (with_connector Sample.model [("c", 3%Z)])).
Proof. repeat split. Qed.

Lemma component_load_strictness_witness :
  load_llm Sample.model Sample.kwargs_extra []
  = (["Loading language model weights from provided checkpoint (full_state_dict)...";
      "Language model weights loaded successfully from full_state_dict."],
     Ok (freeze_and_configure (with_language_model Sample.model [("w", 1%Z)]) []))
  ∧ load_connector Sample.model
      Sample.kwargs_extra []
    = (["Loading connector weights from provided checkpoint (full_state_dict)...";
        "Error loading connector weights with strict=True from full_state_dict: Error(s) in loading state_dict";
        "Attempting to load with strict=False.";
        "Connector weights loaded successfully with strict=False from full_state_dict."],
       Ok (with_connector Sample.model [("c", 3%Z)]))
  ∧ load_vision_tower Sample.model
      Sample.kwargs_extra []
    = (["Loading vision tower weights from provided checkpoint (full_state_dict)...";
        "Error loading vision tower weights from full_state_dict: Error(s) in loading state_dict"],
       Raise (RuntimeError "Error(s) in loading state_dict")).
Proof.
  assert (Py.dict_get Sample.kwargs_extra "full_state_dict"
          = Some (VStateDict Sample.merged_extra)) as Hfull by reflexivity.
  destruct (component_load_strictness Sample.model Sample.kwargs_extra
              Sample.merged_extra [] Hfull)
    as (Hllm & _ & Hconnector & _ & Hvision).
  split; [apply Hllm; reflexivity|].
  split; [eapply Hconnector; reflexivity|].
  eapply Hvision; reflexivity.
Defined.


Lemma fusion_cursor_total_witness :
  final_image_idx Sample.fused
  = sum_list (map (λ x, Nat.max 1 (num_images x))
                  (depadded_input_ids Sample.fused)).
Proof.
  apply (fusion_cursor_total Sample.model Sample.input_ids
           (Some Sample.attention_mask) (Some Sample.labels) Sample.images
           Sample.fused).
  reflexivity.
Defined.

Lemma route_prefix_strip_witness :
  Py.dict_get (route "language_model." 15 Sample.merged_extra) "w"
  = Py.dict_get Sample.merged_extra ("language_model." +:+ "w")
  ∧ Py.dict_get (route "vision_tower." 13 Sample.merged_extra) "w"
    = Py.dict_get Sample.merged_extra ("vision_tower." +:+ "w")
  ∧ Py.dict_get (route "connector." 10 Sample.merged_extra) "w"
    = Py.dict_get Sample.merged_extra ("connector." +:+ "w").
Proof.
  apply (route_prefix_strip Sample.merged_extra "w").
  apply (bool_decide_unpack _). vm_compute. exact I.
Defined.

(** ** The further properties on the concrete model *)

Example sample_fuse_off :
  fuse Sample.model Sample.input_ids (Some Sample.attention_mask_off)
       (Some Sample.labels) Sample.images = Ok Sample.fused_off.
Proof. reflexivity. Qed.

Lemma fusion_interleaves_witness :
  ∃ image_features,
    encode_images Sample.model Sample.images = Ok image_features
    ∧ depadded_input_ids Sample.fused
      = zip_with select (rows Sample.input_ids)
          (rows (default_attention_mask Sample.input_ids
                   (Some Sample.attention_mask)))
    ∧ depadded_labels Sample.fused
      = zip_with select
          (rows (default_labels Sample.input_ids (Some Sample.labels)))
          (rows (default_attention_mask Sample.input_ids
                   (Some Sample.attention_mask)))
    ∧ spliced_embeds Sample.fused
      = interleave_batch (embed_token (language_model Sample.model))
          image_features 0 (depadded_input_ids Sample.fused)
    ∧ spliced_labels Sample.fused
      = interleave_labels_batch image_features 0
          (depadded_input_ids Sample.fused) (depadded_labels Sample.fused).
Proof.
  apply (fusion_interleaves Sample.model Sample.input_ids
           (Some Sample.attention_mask) (Some Sample.labels) Sample.images
           Sample.fused).
  reflexivity.
Defined.

Lemma fusion_respects_cap_witness :
  new_input_embeds Sample.fused_left
  = map (take 3) (spliced_embeds Sample.fused_left)
  ∧ new_labels Sample.fused_left = map (take 3) (spliced_labels Sample.fused_left)
  ∧ max_len Sample.fused_left ≤ 3
  ∧ Forall (λ row, length row ≤ 3)
           (new_input_embeds_padded (padded Sample.fused_left)).
Proof.
  assert (fuse Sample.model_left Sample.input_ids (Some Sample.attention_mask)
               (Some Sample.labels) Sample.images = Ok Sample.fused_left)
    as Hfu by reflexivity.
  destruct (fusion_respects_cap Sample.model_left Sample.input_ids
              (Some Sample.attention_mask) (Some Sample.labels) Sample.images
              Sample.fused_left Hfu) as [_ Hcap].
  apply (Hcap 3%Z); [reflexivity | lia].
Defined.

Lemma batch_width_attained_witness :
  ∃ i e,
    new_input_embeds Sample.fused !! i = Some e
    ∧ length e = max_len Sample.fused
    ∧ new_input_embeds_padded (padded Sample.fused) !! i = Some e
    ∧ attention_mask_padded (padded Sample.fused) !! i
      = Some (replicate (max_len Sample.fused) true).
Proof.
  apply (batch_width_attained Sample.model Sample.input_ids
           (Some Sample.attention_mask) (Some Sample.labels) Sample.images
           Sample.fused).
  reflexivity.
Defined.



Lemma masked_out_sample_witness :
  depadded_input_ids Sample.fused_off !! 1 = Some []
  ∧ new_input_embeds_padded (padded Sample.fused_off) !! 1
    = Some (replicate 4 [0; 0; 0; 0]%Z)
  ∧ new_labels_padded (padded Sample.fused_off) !! 1
    = Some (replicate 4 (-100)%Z)
  ∧ attention_mask_padded (padded Sample.fused_off) !! 1
    = Some (replicate 4 false)
  ∧ position_ids_padded (padded Sample.fused_off) !! 1
    = Some (replicate 4 0%Z).
Proof.
  apply (masked_out_sample Sample.model Sample.input_ids
           (Some Sample.attention_mask_off) (Some Sample.labels) Sample.images
           Sample.fused_off 1 [false; false; false]).
  - reflexivity.
  - simpl. lia.
  - reflexivity.
  - repeat constructor.
Defined.

Lemma labels_do_not_steer_fusion_witness :
  ∃ fu',
    fuse Sample.model Sample.input_ids (Some Sample.attention_mask) None
         Sample.images = Ok fu'
    ∧ depadded_input_ids fu' = depadded_input_ids Sample.fused
    ∧ spliced_embeds fu' = spliced_embeds Sample.fused
    ∧ final_image_idx fu' = final_image_idx Sample.fused
    ∧ new_input_embeds fu' = new_input_embeds Sample.fused
    ∧ max_len fu' = max_len Sample.fused
    ∧ new_input_embeds_padded (padded fu')
      = new_input_embeds_padded (padded Sample.fused)
    ∧ attention_mask_padded (padded fu')
      = attention_mask_padded (padded Sample.fused)
    ∧ position_ids_padded (padded fu')
      = position_ids_padded (padded Sample.fused).
Proof.
  apply (labels_do_not_steer_fusion Sample.model Sample.input_ids
           (Some Sample.attention_mask) Sample.labels Sample.images
           Sample.fused).
  reflexivity.
Defined.

Lemma get_value_from_kwargs_pops_witness :
  get_value_from_kwargs Sample.kwargs_whole "pretrained_model_path"
  = (VStr "whole", [("torch_dtype", VStr "float16")])
  ∧ Py.dict_get
      (get_value_from_kwargs Sample.kwargs_whole "pretrained_model_path").2
      "pretrained_model_path" = None
  ∧ Py.dict_get
      (get_value_from_kwargs Sample.kwargs_whole "pretrained_model_path").2
      "torch_dtype" = Py.dict_get Sample.kwargs_whole "torch_dtype"
  ∧ get_value_from_kwargs Sample.kwargs_whole "full_state_dict"
    = (VNone, Sample.kwargs_whole).
Proof.
  destruct (get_value_from_kwargs_pops Sample.kwargs_whole
              "pretrained_model_path") as (_ & Hother & Hgone & _).
  destruct (get_value_from_kwargs_pops Sample.kwargs_whole "full_state_dict")
    as (_ & _ & _ & Habsent).
  split; [reflexivity|]. split.
  { apply Hgone. apply (bool_decide_unpack _). vm_compute. exact I. }
  split; [by apply Hother|].
  by apply Habsent.
Defined.

Lemma merge_order_irrelevant_witness :
  ∃ full out full' out',
    merge_shards (Sample.disk_two true) "dir" Sample.manifest_two []
    = (out, Ok full)
    ∧ merge_shards (Sample.disk_two true) "dir"
        [("w2", "shard2.bin"); ("w1", "shard1.bin")] []
      = (out', Ok full')
    ∧ ∀ t, Py.dict_get full t = Py.dict_get full' t.
Proof.
  apply (merge_order_irrelevant (Sample.disk_two true) "dir"
           Sample.manifest_two [("w2", "shard2.bin"); ("w1", "shard1.bin")] []).
  - apply perm_swap.
  - apply (bool_decide_unpack _). vm_compute. exact I.
  - intros f Hin Hfile. simpl in Hin.
    repeat (apply elem_of_cons in Hin as [->|Hin]);
      [by eexists | by eexists | by apply elem_of_nil in Hin].
Defined.

Lemma load_llm_effects_witness :
  load_llm Sample.model Sample.kwargs_paths []
  = (["loading language model from  tuned"],
     Ok (freeze_and_configure Sample.model []))
  ∧ language_model_requires_grad (freeze_and_configure Sample.model []) = false
  ∧ vision_tower (freeze_and_configure Sample.model [])
    = vision_tower Sample.model
  ∧ connector (freeze_and_configure Sample.model []) = connector Sample.model
  ∧ ∃ kwargs',
      language_model_from_pretrained (language_model Sample.model)
        (VStr "tuned") kwargs'
      = Ok (language_model (freeze_and_configure Sample.model [])).
Proof.
  assert (load_llm Sample.model Sample.kwargs_paths []
          = (["loading language model from  tuned"],
             Ok (freeze_and_configure Sample.model []))) as Hrun
    by reflexivity.
  destruct (load_llm_effects Sample.model Sample.kwargs_paths [] _ _ Hrun)
    as (Hgrad & _ & _ & Hvt & Hc & _ & _ & _ & _ & Hpath).
  split; [exact Hrun|]. split; [exact Hgrad|]. split; [exact Hvt|].
  split; [exact Hc|]. apply (Hpath "tuned"); reflexivity.
Defined.

Lemma component_loaders_frame_witness :
  load_vision_tower Sample.model Sample.kwargs_merged []
  = (["Loading vision tower weights from provided checkpoint (full_state_dict)...";
      "Vision tower weights loaded successfully from full_state_dict."],
     Ok (with_vision_tower Sample.model [("v", 2%Z)]))
  ∧ (∃ vt, with_vision_tower Sample.model [("v", 2%Z)]
           = with_vision_tower Sample.model vt)
  ∧ load_connector Sample.model Sample.kwargs_merged []
    = (["Loading connector weights from provided checkpoint (full_state_dict)...";
        "Connector weights loaded successfully from full_state_dict."],
       Ok (with_connector Sample.model [("c", 3%Z)]))
  ∧ (∃ c, with_connector Sample.model [("c", 3%Z)]
          = with_connector Sample.model c).
Proof.
  assert (load_vision_tower Sample.model Sample.kwargs_merged []
          = (["Loading vision tower weights from provided checkpoint (full_state_dict)...";
              "Vision tower weights loaded successfully from full_state_dict."],
             Ok (with_vision_tower Sample.model [("v", 2%Z)]))) as Hvt
    by reflexivity.
  assert (load_connector Sample.model Sample.kwargs_merged []
          = (["Loading connector weights from provided checkpoint (full_state_dict)...";
              "Connector weights loaded successfully from full_state_dict."],
             Ok (with_connector Sample.model [("c", 3%Z)]))) as Hc
    by reflexivity.
  split; [exact Hvt|]. split.
  { exact (proj1 (component_loaders_frame Sample.model Sample.kwargs_merged
                    [] _ _) Hvt). }
  split; [exact Hc|].
  exact (proj2 (component_loaders_frame Sample.model Sample.kwargs_merged
                  [] _ _) Hc).
Defined.

Lemma from_pretrained_loads_all_witness :
  ∃ out',
    from_pretrained Sample.disk_whole Sample.config_right Sample.kwargs_whole []
    = (out', Ok (loaded_model Sample.config_right Sample.kwargs_whole
                   [("w", 1%Z)] [("v", 2%Z)] [("c", 3%Z)]))
    ∧ ["Found model.safetensors at whole/model.safetensors. Loading checkpoint."]
      `prefix_of` out'
    ∧ last out'
      = Some "All components (LLM, Vision Tower, Connector) loaded from model.safetensors successfully.".
Proof.
  apply (from_pretrained_loads_all Sample.disk_whole Sample.config_right
           Sample.kwargs_whole "whole" Sample.merged [] _
           [("w", 1%Z)] [("v", 2%Z)] [("c", 3%Z)] None [("c", 3%Z)]);
    reflexivity.
Defined.


Lemma forward_hands_over_witness :
  forward Sample.model (Some Sample.input_ids) (Some Sample.attention_mask)
          (Some Sample.position_ids) None None (Some Sample.labels) None None
          None (Some Sample.images) None None
  = language_model_forward (language_model Sample.model)
      (mkForwardArgs (out_input_ids Sample.prepared)
         (out_attention_mask Sample.prepared)
         (out_position_ids Sample.prepared) None
         (out_inputs_embeds Sample.prepared) (out_labels Sample.prepared)
         (config_use_cache (config Sample.model)) None None None)
  ∧ ((out_input_ids Sample.prepared = Some Sample.input_ids
      ∧ out_inputs_embeds Sample.prepared = None
      ∧ out_attention_mask Sample.prepared = Some Sample.attention_mask
      ∧ out_position_ids Sample.prepared = Some Sample.position_ids
      ∧ out_labels Sample.prepared = Some Sample.labels)
     ∨ (out_input_ids Sample.prepared = None
        ∧ ∃ E m,
            out_inputs_embeds Sample.prepared = Some E
            ∧ Forall (λ row, length row = m) E
            ∧ ∀ t, out_attention_mask Sample.prepared = Some t
                   ∨ out_position_ids Sample.prepared = Some t
                   ∨ out_labels Sample.prepared = Some t →
                   shape1 t = m ∧ length (rows t) = length E ∧ wf t)).
Proof.
  exact (forward_hands_over Sample.model Sample.input_ids
           (Some Sample.attention_mask) (Some Sample.position_ids) None
           (Some Sample.labels) None None None (Some Sample.images) None None).
Defined.

Lemma generate_dispatch_witness :
  generate Sample.model (Some Sample.input_ids) None None None None
           [("inputs_embeds", GNone)]
  = Raise NotImplementedError
  ∧ generate Sample.model (Some Sample.input_ids) None None
             (Some Sample.position_ids) (Some Sample.attention_mask) []
    = language_model_generate (language_model Sample.model)
        (Some Sample.position_ids) (Some Sample.attention_mask)
        (Some (map (get_input_embeddings Sample.model) (rows Sample.input_ids)))
        []
  ∧ generate Sample.model (Some Sample.input_ids_one) (Some Sample.images)
             None None None []
    = language_model_generate (language_model Sample.model) None None None [].
Proof.
  split; [|split].
  - by apply (generate_dispatch Sample.model (Some Sample.input_ids) None None
                None None [("inputs_embeds", GNone)]).
  - destruct (generate_dispatch Sample.model (Some Sample.input_ids) None None
                (Some Sample.position_ids) (Some Sample.attention_mask) [])
      as [_ Hrest].
    destruct (Hrest eq_refl) as (Hplain & _ & _). by apply Hplain.
  - destruct (generate_dispatch Sample.model (Some Sample.input_ids_one)
                (Some Sample.images) None None None []) as [_ Hrest].
    destruct (Hrest eq_refl) as (_ & _ & Hshort).
    apply (Hshort Sample.input_ids_one Sample.images); [done | done | by right].
Defined.

Lemma generate_fuses_like_forward_witness :
  forward Sample.model (Some Sample.input_ids) (Some Sample.attention_mask)
          (Some Sample.position_ids) None None (Some Sample.labels) None None
          None (Some Sample.images) None None
  = language_model_forward (language_model Sample.model)
      (mkForwardArgs None
         (Some (of_bool (mkTensor2 4 (attention_mask_padded (padded Sample.fused)))))
         (Some (mkTensor2 4 (position_ids_padded (padded Sample.fused))))
         None
         (Some (new_input_embeds_padded (padded Sample.fused)))
         (Some (mkTensor2 4 (new_labels_padded (padded Sample.fused))))
         (config_use_cache (config Sample.model)) None None None)
  ∧ generate Sample.model (Some Sample.input_ids) (Some Sample.images) None
             (Some Sample.position_ids) (Some Sample.attention_mask) []
    = language_model_generate (language_model Sample.model)
        (Some (mkTensor2 4 (position_ids_padded (padded Sample.fused))))
        (Some (of_bool (mkTensor2 4 (attention_mask_padded (padded Sample.fused)))))
        (Some (new_input_embeds_padded (padded Sample.fused))) [].
Proof.
  apply (generate_fuses_like_forward Sample.model Sample.input_ids
           (Some Sample.attention_mask) (Some Sample.position_ids) None
           Sample.labels None None None Sample.images None None []
           [("v", 0%Z)] Sample.fused).
  - reflexivity.
  - simpl. lia.
  - reflexivity.
  - reflexivity.
Defined.

Lemma prepare_inputs_for_generation_images_witness :
  ∃ base,
    language_model_prepare_inputs_for_generation (language_model Sample.model)
      Sample.input_ids None None
      (Py.dict_del (Py.dict_del Sample.kwargs_step "images") "image_sizes")
    = Ok base
    ∧ (∀ name, name = "images" ∨ name = "image_sizes" →
         match Py.dict_get Sample.kwargs_step name with
         | None | Some GNone =>
             Py.dict_get Sample.inputs_step name = Py.dict_get base name
         | Some v => Py.dict_get Sample.inputs_step name = Some v
         end)
    ∧ (∀ k, k ≠ "images" → k ≠ "image_sizes" →
         Py.dict_get Sample.inputs_step k = Py.dict_get base k)
    ∧ (NoDup (map fst Sample.kwargs_step) →
       Py.dict_get
         (Py.dict_del (Py.dict_del Sample.kwargs_step "images") "image_sizes")
         "images" = None
       ∧ Py.dict_get
           (Py.dict_del (Py.dict_del Sample.kwargs_step "images") "image_sizes")
           "image_sizes" = None).
Proof.
  apply (prepare_inputs_for_generation_images Sample.model Sample.input_ids
           None None Sample.kwargs_step Sample.inputs_step).
  reflexivity.
Defined.

Lemma mask_shape_mismatch_raises_witness :
  fuse Sample.model Sample.input_ids (Some Sample.attention_mask_short)
       (Some Sample.labels) Sample.images = Raise IndexError.
Proof.
  apply (mask_shape_mismatch_raises Sample.model Sample.input_ids
           (Some Sample.attention_mask_short) (Some Sample.labels)
           Sample.images Sample.images 0 [5; -200; 7]%Z [true; true]).
  - reflexivity.
  - reflexivity.
  - reflexivity.
  - reflexivity.
  - simpl. lia.
Defined.

Lemma unreadable_shard_aborts_witness :
  ∃ out e' f',
    merge_shards Sample.disk_corrupt "dir" Sample.manifest_two []
    = (out, Raise e')
    ∧ f' ∈ map snd Sample.manifest_two
    ∧ isfile Sample.disk_corrupt (Py.path_join "dir" f') = true
    ∧ load_file Sample.disk_corrupt (Py.path_join "dir" f') = Raise e'.
Proof.
  apply (unreadable_shard_aborts Sample.disk_corrupt "dir" Sample.manifest_two
           [] "w2" "shard2.bin" ValueError).
  - elem_of_concrete.
  - reflexivity.
  - reflexivity.
Defined.
